(** * Model cards: a shallow embedding of [sofa/utils/backend/modelcard.py]

    The module turns training logs and a summary record into a markdown
    model card.  Python values are embedded as follows.

    - [str] is [string]; the text handled here is ASCII, so [len] is
      [String.length] and [lower]/[capitalize] act on the letters A-Z, a-z.
    - [int] is [Z]; [float] is an IEEE binary64 number, [PrimFloat.float].
    - a [dict] is an association list in insertion order with unique keys;
      assigning to a key that is present keeps its position.
    - an exception is a [Raise] result of the error monad [result]. *)

From Stdlib Require Import String Ascii List ZArith Lia Bool PrimFloat.
From Stdlib Require Import DecimalString.
Import ListNotations.

Set Warnings "-inexact-float".

Local Open Scope string_scope.
Local Open Scope list_scope.
Local Open Scope Z_scope.

(** [s + t] on strings. *)
Infix "+++" := String.append (at level 60, right associativity).

(** ** Exceptions *)

Inductive exn : Type :=
| IndexError
| KeyError
| TypeError.

Inductive result (A : Type) : Type :=
| Ok (a : A)
| Raise (e : exn).

Arguments Ok {A} a.
Arguments Raise {A} e.

Definition bind {A B : Type} (m : result A) (k : A -> result B) : result B :=
  match m with
  | Ok a => k a
  | Raise e => Raise e
  end.

Notation "x <- m ;; k" := (bind m (fun x => k))
  (at level 61, m at next level, right associativity).
Notation "' p <- m ;; k" := (bind m (fun x => match x with p => k end))
  (at level 61, p pattern, m at next level, right associativity).

(** [mapM f l]: a comprehension whose body may raise, left to right. *)
Fixpoint mapM {A B : Type} (f : A -> result B) (l : list A) : result (list B) :=
  match l with
  | [] => Ok []
  | a :: l' => b <- f a ;; bs <- mapM f l' ;; Ok (b :: bs)
  end.

(** [foldM f l acc]: a [for] loop over [l] that updates [acc] and may raise. *)
Fixpoint foldM {A S : Type} (f : S -> A -> result S) (l : list A) (acc : S)
  : result S :=
  match l with
  | [] => Ok acc
  | a :: l' => acc' <- f acc a ;; foldM f l' acc'
  end.

(** ** Strings *)

Module Str.

Definition nl : string := String (ascii_of_nat 10) EmptyString.

Definition len (s : string) : Z := Z.of_nat (String.length s).

Definition is_upper (c : ascii) : bool :=
  let n := nat_of_ascii c in (Nat.leb 65 n && Nat.leb n 90)%bool.

Definition is_lower (c : ascii) : bool :=
  let n := nat_of_ascii c in (Nat.leb 97 n && Nat.leb n 122)%bool.

Definition lower_char (c : ascii) : ascii :=
  if is_upper c then ascii_of_nat (nat_of_ascii c + 32) else c.

Definition upper_char (c : ascii) : ascii :=
  if is_lower c then ascii_of_nat (nat_of_ascii c - 32) else c.

Fixpoint map (f : ascii -> ascii) (s : string) : string :=
  match s with
  | EmptyString => EmptyString
  | String c s' => String (f c) (map f s')
  end.

(** [s.lower()] *)
Definition lower (s : string) : string := map lower_char s.

(** [s.replace(a, b)] for one-character [a] and [b]. *)
Definition replace_char (a b : ascii) (s : string) : string :=
  map (fun c => if Ascii.eqb c a then b else c) s.

(** [s.capitalize()] *)
Definition capitalize (s : string) : string :=
  match s with
  | EmptyString => EmptyString
  | String c s' => String (upper_char c) (lower s')
  end.

(** [s.split(sep)] for a one-character [sep]: never empty, [""] gives [[""]]. *)
Fixpoint split (sep : ascii) (s : string) : list string :=
  match s with
  | EmptyString => [EmptyString]
  | String c s' =>
      if Ascii.eqb c sep then EmptyString :: split sep s'
      else match split sep s' with
           | [] => [String c EmptyString]
           | w :: ws => String c w :: ws
           end
  end.

(** [sep.join(parts)] *)
Definition join (sep : string) (parts : list string) : string :=
  String.concat sep parts.

(** [s.startswith(p)] *)
Definition startswith (p s : string) : bool := String.prefix p s.

(** [s[n:]] *)
Fixpoint drop (n : nat) (s : string) : string :=
  match n, s with
  | O, _ => s
  | S n', String _ s' => drop n' s'
  | S _, EmptyString => EmptyString
  end.

(** [s * n]: the empty string when [n <= 0]. *)
Definition repeat (s : string) (n : Z) : string :=
  String.concat "" (List.repeat s (Z.to_nat n)).

(** [str(n)] for an [int]. *)
Definition of_Z (n : Z) : string := NilZero.string_of_int (Z.to_int n).

(** [x in l] for a list of strings. *)
Definition mem (x : string) (l : list string) : bool :=
  existsb (String.eqb x) l.

End Str.

(** ** Values *)

(** The values a log record, a table row or a hyperparameter mapping holds. *)
Inductive value : Type :=
| VNone
| VInt (n : Z)
| VFloat (x : float)
| VStr (s : string).

(** ** Dictionaries *)

(** Keys are compared with [==]. *)
Class EqKey (K : Type) : Type := { keqb : K -> K -> bool }.

#[export] Instance string_EqKey : EqKey string := {| keqb := String.eqb |}.

Definition option_eqb {K : Type} `{EqKey K} (a b : option K) : bool :=
  match a, b with
  | None, None => true
  | Some x, Some y => keqb x y
  | _, _ => false
  end.

#[export] Instance option_EqKey {K : Type} `{EqKey K} : EqKey (option K) :=
  {| keqb := option_eqb |}.

(** [==] decides equality of keys. *)
Class EqKeyOk (K : Type) `{EqKey K} : Prop :=
  keqb_spec : forall a b : K, keqb a b = true <-> a = b.

Module Dict.
Section WithKey.
Context {K : Type} `{EqKey K} {V : Type}.

Definition t : Type := list (K * V).

(** [d.keys()], [d.values()], [d.items()] is the list itself. *)
Definition keys (d : t) : list K := List.map fst d.
Definition values (d : t) : list V := List.map snd d.

(** [d.get(k)] *)
Fixpoint get (k : K) (d : t) : option V :=
  match d with
  | [] => None
  | (k', v) :: d' => if keqb k k' then Some v else get k d'
  end.

(** [k in d] *)
Definition has (k : K) (d : t) : bool :=
  match get k d with Some _ => true | None => false end.

(** [d[k]] *)
Definition index (d : t) (k : K) : result V :=
  match get k d with
  | Some v => Ok v
  | None => Raise KeyError
  end.

(** [d[k] = v] *)
Fixpoint set (k : K) (v : V) (d : t) : t :=
  match d with
  | [] => [(k, v)]
  | (k', v') :: d' =>
      if keqb k k' then (k', v) :: d' else (k', v') :: set k v d'
  end.

(** [d.pop(k, None)], keeping the mapping that is left. *)
Fixpoint remove (k : K) (d : t) : t :=
  match d with
  | [] => []
  | (k', v') :: d' => if keqb k k' then d' else (k', v') :: remove k d'
  end.

(** [{k: v for k, v in pairs}] *)
Definition of_pairs (pairs : list (K * V)) : t :=
  fold_left (fun d kv => set (fst kv) (snd kv) d) pairs [].

(** Keys are unique in a Python [dict]. *)
Definition wf (d : t) : Prop := NoDup (keys d).

End WithKey.
Arguments t K V : clear implicits.
End Dict.

(** A record of the log history, a row of the results table. *)
Definition record : Type := Dict.t string value.
Definition row : Type := Dict.t string value.

(** [l[i]]: a negative index counts from the end. *)
Definition list_index {A : Type} (l : list A) (i : Z) : result A :=
  let n := Z.of_nat (length l) in
  let j := if i <? 0 then i + n else i in
  if (0 <=? j) && (j <? n) then
    match nth_error l (Z.to_nat j) with
    | Some a => Ok a
    | None => Raise IndexError
    end
  else Raise IndexError.

(** [range(n)] *)
Definition range (n : Z) : list Z :=
  List.map Z.of_nat (List.seq 0 (Z.to_nat n)).

(** ** Parsing the log history of a Trainer *)

(** [" ".join([part.capitalize() for part in parts])] *)
Definition humanize (parts : list string) : string :=
  Str.join " " (List.map Str.capitalize parts).

(** [while idx < len(log_history) and "train_runtime" not in log_history[idx]:
    idx += 1], where [rest] is [log_history[idx:]]. *)
Fixpoint train_runtime_scan (rest : list record) (idx : Z) : Z :=
  match rest with
  | [] => idx
  | r :: rest' =>
      if Dict.has "train_runtime" r then idx
      else train_runtime_scan rest' (idx + 1)
  end.

(** [while idx >= 0 and "eval_loss" not in log_history[idx]: idx -= 1]
    with [n = idx + 1] iterations left; the result is the final [idx]. *)
Fixpoint eval_loss_loop (log_history : list record) (n : nat) : result Z :=
  match n with
  | O => Ok (-1)
  | S i =>
      r <- list_index log_history (Z.of_nat i) ;;
      if Dict.has "eval_loss" r then Ok (Z.of_nat i)
      else eval_loss_loop log_history i
  end.

(** The same loop entered with [idx]. *)
Definition eval_loss_scan (log_history : list record) (idx : Z) : result Z :=
  eval_loss_loop log_history (Z.to_nat (idx + 1)).

(** [d.pop(k, None)]: the value taken out and the mapping that is left. *)
Definition pop (k : string) (d : record) : value * record :=
  (match Dict.get k d with Some v => v | None => VNone end, Dict.remove k d).

(** The row of the results table for one evaluation record. *)
Definition table_line (training_loss : value) (r : record) : row :=
  let metrics := r in
  let '(_, metrics) := pop "total_flos" metrics in
  let '(epoch, metrics) := pop "epoch" metrics in
  let '(step, metrics) := pop "step" metrics in
  let '(_, metrics) := pop "eval_runtime" metrics in
  let '(_, metrics) := pop "eval_samples_per_second" metrics in
  let '(_, metrics) := pop "eval_steps_per_second" metrics in
  let values :=
    [("Training Loss", training_loss); ("Epoch", epoch); ("Step", step)] in
  fold_left
    (fun values kv =>
       let '(k, v) := kv in
       if String.eqb k "eval_loss" then Dict.set "Validation Loss" v values
       else
         let splits := Str.split "_" k in
         let name := humanize (List.tl splits) in
         Dict.set name v values)
    metrics values.

(** The body of [for i in range(idx)]: the state is the last training loss
    seen and the rows so far. *)
Definition table_step (log_history : list record) (st : value * list row)
  (i : Z) : result (value * list row) :=
  let '(training_loss, lines) := st in
  r <- list_index log_history i ;;
  let training_loss :=
    match Dict.get "loss" r with
    | Some v => v
    | None => training_loss
    end in
  if Dict.has "eval_loss" r
  then Ok (training_loss, lines ++ [table_line training_loss r])
  else Ok (training_loss, lines).

Definition non_metric_keys : list string :=
  ["runtime"; "samples_per_second"; "steps_per_second"; "epoch"; "step"].

(** The final evaluation results built from the record [log_history[idx]]. *)
Definition final_results (r : record) : Dict.t string value :=
  fold_left
    (fun eval_results kv =>
       let '(key, value) := kv in
       let key := if Str.startswith "eval_" key then Str.drop 5 key else key in
       if negb (Str.mem key non_metric_keys) then
         let camel_cased_key := humanize (Str.split "_" key) in
         Dict.set camel_cased_key value eval_results
       else eval_results)
    r [].

Definition parse_log_history (log_history : list record)
  : result (option record * option (list row) * option (Dict.t string value)) :=
  let idx := train_runtime_scan log_history 0 in
  if idx =? Z.of_nat (length log_history) then
    (* If there are no training logs *)
    idx <- eval_loss_scan log_history (idx - 1) ;;
    if idx >? 0 then
      r <- list_index log_history idx ;;
      Ok (None, None, Some r)
    else Ok (None, None, None)
  else
    train_log <- list_index log_history idx ;;
    '(_, lines) <- foldM (table_step log_history) (range idx) (VStr "No log", []) ;;
    idx <- eval_loss_scan log_history (Z.of_nat (length log_history) - 1) ;;
    if idx >? 0 then
      r <- list_index log_history idx ;;
      Ok (Some train_log, Some lines, Some (final_results r))
    else Ok (Some train_log, Some lines, None).

(** *** The final result as the specification words it

    The last record of the history that holds an evaluation loss, and the
    final result the specification promises for every history: that record
    with the keys that are no metrics left out and the others humanized
    (which is what [final_results] does to a record). *)
Definition spec_last_eval_record (log_history : list record) : option record :=
  List.find (Dict.has "eval_loss") (List.rev log_history).

Definition spec_final_eval_results (log_history : list record)
  : option (Dict.t string value) :=
  option_map final_results (spec_last_eval_record log_history).

(** Records without an evaluation loss, without the training runtime. *)
Definition no_eval_loss (r : record) : Prop := Dict.has "eval_loss" r = false.
Definition no_train_runtime (r : record) : Prop :=
  Dict.has "train_runtime" r = false.
Definition has_train_runtime (r : record) : Prop :=
  Dict.has "train_runtime" r = true.

(** The name a key of the last record gets in the final result, if any:
    the eval_ prefix stripped, nothing for the keys that are no metrics,
    the tokens between underscores capitalized and joined with spaces. *)
Definition spec_humanized_key (key : string) : option string :=
  let key := if Str.startswith "eval_" key then Str.drop 5 key else key in
  if Str.mem key non_metric_keys then None
  else Some (humanize (Str.split "_" key)).

(** ** Parsing the history of a Keras run *)

(** What [parse_keras_history] is given: a [History] object, with its
    [history] mapping and [epoch] list, or a list of per-epoch mappings. *)
Inductive keras_logs : Type :=
| History (history : Dict.t string (list value)) (epoch : list value)
| LogList (logs : list record).

(** The row of one epoch. *)
Definition keras_line (epoch_dict : Dict.t string value) : row :=
  fold_left
    (fun values kv =>
       let '(k, v) := kv in
       let k :=
         if Str.startswith "val_" k then "validation_" +++ Str.drop 4 k
         else if negb (String.eqb k "epoch") then "train_" +++ k
         else k in
       let splits := Str.split "_" k in
       let name := humanize splits in
       Dict.set name v values)
    epoch_dict [].

Definition parse_keras_history (logs : keras_logs)
  : result (Dict.t string (list value) * list row * row) :=
  logs <-
    match logs with
    | History history epoch =>
        (* This looks like a History object *)
        Ok (Dict.set "epoch" epoch history)
    | LogList logs =>
        (* A list of dicts, inverted to a dict of lists *)
        first <- list_index logs 0 ;;
        columns <-
          mapM (fun log_key =>
                  column <- mapM (fun single_dict => Dict.index single_dict log_key)
                                 logs ;;
                  Ok (log_key, column))
               (Dict.keys first) ;;
        Ok (Dict.of_pairs columns)
    end ;;
  epochs <- Dict.index logs "epoch" ;;
  lines <-
    mapM (fun i =>
            epoch_dict <-
              mapM (fun kl =>
                      let '(log_key, log_value_list) := kl in
                      v <- list_index log_value_list i ;;
                      Ok (log_key, v))
                   logs ;;
            Ok (keras_line (Dict.of_pairs epoch_dict)))
         (range (Z.of_nat (length epochs))) ;;
  eval_results <- list_index lines (-1) ;;
  Ok (logs, lines, eval_results).

(** ** Tags and summary fields *)

Definition TASK_TAG_TO_NAME_MAPPING : Dict.t string string :=
  [ ("fill-mask", "Masked Language Modeling");
    ("image-classification", "Image Classification");
    ("image-segmentation", "Image Segmentation");
    ("multiple-choice", "Multiple Choice");
    ("object-detection", "Object Detection");
    ("question-answering", "Question Answering");
    ("summarization", "Summarization");
    ("table-question-answering", "Table Question Answering");
    ("text-classification", "Text Classification");
    ("text-generation", "Causal Language Modeling");
    ("text2text-generation", "Sequence-to-sequence Language Modeling");
    ("token-classification", "Token Classification");
    ("translation", "Translation");
    ("zero-shot-classification", "Zero Shot Classification") ].

Definition METRIC_TAGS : list string :=
  [ "accuracy"; "bleu"; "f1"; "matthews_correlation"; "pearsonr";
    "precision"; "recall"; "rouge"; "sacrebleu"; "spearmanr" ].

(** A field typed [Union[str, List[str]]]; a list may hold [None]. *)
Inductive str_or_list : Type :=
| Single (s : string)
| Many (l : list (option string)).

Definition _listify (obj : option str_or_list) : list (option string) :=
  match obj with
  | None => []
  | Some (Single s) => [Some s]
  | Some (Many l) => l
  end.

Definition infer_metric_tags_from_eval_results
  (eval_results : option (Dict.t string value)) : Dict.t string string :=
  match eval_results with
  | None => []
  | Some eval_results =>
      fold_left
        (fun result key =>
           if Str.mem (Str.replace_char " " "_" (Str.lower key)) METRIC_TAGS
           then Dict.set (Str.replace_char " " "_" (Str.lower key)) key result
           else if String.eqb (Str.lower key) "rouge1"
           then Dict.set "rouge" key result
           else result)
        (Dict.keys eval_results) []
  end.

Record TrainingSummary : Type := {
  model_name : string;
  language : option str_or_list;
  license : option string;
  tags : option str_or_list;
  finetuned_from : option string;
  tasks : option str_or_list;
  dataset : option str_or_list;
  dataset_tags : option str_or_list;
  dataset_args : option str_or_list;
  eval_results : option (Dict.t string value);
  eval_lines : option (list row);
  hyperparameters : option (Dict.t string value);
  source : option string
}.

(** ** The model index *)

(** The mappings under ["task"], ["dataset"] and in ["metrics"]. *)
Record task_info : Type := {
  task_name : option string;
  task_type : string
}.

Record dataset_info : Type := {
  ds_name : option string;
  ds_type : string;
  ds_args : option string
}.

Record metric_info : Type := {
  metric_name : string;
  metric_type : string;
  metric_value : value
}.

(** One result: each of the keys ["task"], ["dataset"], ["metrics"] is
    present or not. *)
Record result_entry : Type := {
  r_task : option task_info;
  r_dataset : option dataset_info;
  r_metrics : option (list metric_info)
}.

Record model_index_entry : Type := {
  index_name : string;
  index_results : list result_entry
}.

(** [dataset_args + [None] * (len(dataset_tags) - len(dataset_args))] when
    the arguments are fewer than the tags. *)
Definition pad_dataset_args (dataset_args dataset_tags : list (option string))
  : list (option string) :=
  if Z.of_nat (length dataset_args) <? Z.of_nat (length dataset_tags) then
    dataset_args
    ++ List.repeat None
         (Z.to_nat (Z.of_nat (length dataset_tags)
                    - Z.of_nat (length dataset_args)))
  else dataset_args.

Definition dataset_arg_mapping_of (dataset_tags dataset_args : list (option string))
  : Dict.t (option string) (option string) :=
  Dict.of_pairs (List.combine dataset_tags
                              (pad_dataset_args dataset_args dataset_tags)).

Definition task_mapping_of (tasks : option str_or_list)
  : Dict.t (option string) (option string) :=
  Dict.of_pairs
    (flat_map
       (fun task =>
          match task with
          | Some tag =>
              match Dict.get tag TASK_TAG_TO_NAME_MAPPING with
              | Some name => [(Some tag, Some name)]
              | None => []
              end
          | None => []
          end)
       (_listify tasks)).

(** [self.eval_results[metric_name]] *)
Definition eval_result_of (self : TrainingSummary) (name : string)
  : result value :=
  match self.(eval_results) with
  | Some d => Dict.index d name
  | None => Raise TypeError
  end.

(** The body of the loop over [all_possibilities], up to the filter. *)
Definition build_result (self : TrainingSummary)
  (metric_mapping : Dict.t string string)
  (task_mapping dataset_mapping dataset_arg_mapping
     : Dict.t (option string) (option string))
  (task_tag ds_tag : option string) : result result_entry :=
  task <-
    match task_tag with
    | Some tag =>
        name <- Dict.index task_mapping task_tag ;;
        Ok (Some {| task_name := name; task_type := tag |})
    | None => Ok None
    end ;;
  ds <-
    match ds_tag with
    | Some tag =>
        name <- Dict.index dataset_mapping ds_tag ;;
        arg <- Dict.index dataset_arg_mapping ds_tag ;;
        Ok (Some {| ds_name := name; ds_type := tag; ds_args := arg |})
    | None => Ok None
    end ;;
  ms <-
    (if Z.of_nat (length metric_mapping) >? 0 then
       l <- mapM (fun kv =>
                    let '(metric_tag, metric_name) := kv in
                    v <- eval_result_of self metric_name ;;
                    Ok {| metric_name := metric_name;
                          metric_type := metric_tag;
                          metric_value := v |})
                 metric_mapping ;;
       Ok (Some l)
     else Ok None) ;;
  Ok {| r_task := task; r_dataset := ds; r_metrics := ms |}.

(** ["task" in result and "dataset" in result and "metrics" in result] *)
Definition is_complete (r : result_entry) : bool :=
  match r.(r_task), r.(r_dataset), r.(r_metrics) with
  | Some _, Some _, Some _ => true
  | _, _, _ => false
  end.

(** What [create_model_index] leaves behind: the list it returns and the
    results it dropped, each written to the log at level info. *)
Record indexed : Type := {
  returned : list model_index_entry;
  logged : list result_entry
}.

Definition dataset_mapping_of (self : TrainingSummary)
  : Dict.t (option string) (option string) :=
  Dict.of_pairs (List.combine (_listify self.(dataset_tags))
                              (_listify self.(dataset))).

(** [if len(mapping) == 0: mapping = {None: None}] *)
Definition or_none (mapping : Dict.t (option string) (option string))
  : Dict.t (option string) (option string) :=
  if Z.of_nat (length mapping) =? 0 then [(None, None)] else mapping.

(** [[(task_tag, ds_tag) for task_tag in task_mapping
      for ds_tag in dataset_mapping]] *)
Definition all_possibilities
  (task_mapping dataset_mapping : Dict.t (option string) (option string))
  : list (option string * option string) :=
  flat_map (fun task_tag =>
              List.map (fun ds_tag => (task_tag, ds_tag))
                       (Dict.keys dataset_mapping))
           (Dict.keys task_mapping).

(** The result built for one possibility of [self]. *)
Definition possibility_result (self : TrainingSummary)
  (metric_mapping : Dict.t string string)
  (possibility : option string * option string) : result result_entry :=
  build_result self metric_mapping
    (or_none (task_mapping_of self.(tasks)))
    (or_none (dataset_mapping_of self))
    (dataset_arg_mapping_of (_listify self.(dataset_tags))
                            (_listify self.(dataset_args)))
    (fst possibility) (snd possibility).

(** The body of the loop over [all_possibilities]: a result with all three
    fields is appended, any other is logged and dropped. *)
Definition keep_or_drop
  (build : option string * option string -> result result_entry)
  (st : list result_entry * list result_entry)
  (possibility : option string * option string)
  : result (list result_entry * list result_entry) :=
  let '(results, dropped) := st in
  r <- build possibility ;;
  if is_complete r then Ok (results ++ [r], dropped)
  else Ok (results, dropped ++ [r]).

Definition create_model_index (self : TrainingSummary)
  (metric_mapping : Dict.t string string) : result indexed :=
  (* Dataset mapping tag -> name; the arguments are padded in
     [dataset_arg_mapping_of], which [possibility_result] reads. *)
  let dataset_mapping := dataset_mapping_of self in
  let task_mapping := task_mapping_of self.(tasks) in
  if (Z.of_nat (length task_mapping) =? 0)
     && (Z.of_nat (length dataset_mapping) =? 0)
  then Ok {| returned := [ {| index_name := self.(model_name);
                              index_results := [] |} ];
             logged := [] |}
  else
    let task_mapping := or_none task_mapping in
    let dataset_mapping := or_none dataset_mapping in
    (* One entry per dataset and per task *)
    '(results, dropped) <-
      foldM (keep_or_drop (possibility_result self metric_mapping))
            (all_possibilities task_mapping dataset_mapping) ([], []) ;;
    Ok {| returned := [ {| index_name := self.(model_name);
                           index_results := results |} ];
          logged := dropped |}.

(** *** Recognized metrics as the specification words them

    A display name is recognized as [tag] when its lower-cased form with
    spaces turned into underscores is [tag] and one of the metric tags, or
    when its lower-cased form is rouge1 and [tag] is rouge. *)
Definition spec_recognized_as (name tag : string) : Prop :=
  (Str.replace_char " " "_" (Str.lower name) = tag /\ In tag METRIC_TAGS)
  \/ (Str.lower name = "rouge1" /\ tag = "rouge").

(** The display names of the evaluation results. *)
Definition metric_names (eval_results : option (Dict.t string value))
  : list string :=
  match eval_results with
  | Some d => Dict.keys d
  | None => []
  end.

(** ** The metadata *)

Inductive meta_value : Type :=
| MetaList (l : list string)
| MetaModelIndex (l : list model_index_entry).

Definition metadata_map : Type := Dict.t string meta_value.

Definition _insert_values_as_list (metadata : metadata_map) (name : string)
  (values : option str_or_list) : metadata_map :=
  match values with
  | None => metadata
  | Some values =>
      let values :=
        match values with
        | Single s => [Some s]
        | Many l => l
        end in
      let values :=
        flat_map (fun v => match v with Some s => [s] | None => [] end) values in
      if Z.of_nat (length values) =? 0 then metadata
      else Dict.set name (MetaList values) metadata
  end.

Definition create_metadata (self : TrainingSummary) : result metadata_map :=
  let metric_mapping := infer_metric_tags_from_eval_results self.(eval_results) in
  let metadata := [] in
  let metadata := _insert_values_as_list metadata "language" self.(language) in
  let metadata := _insert_values_as_list metadata "tags" self.(tags) in
  let metadata := _insert_values_as_list metadata "datasets" self.(dataset_tags) in
  let metadata :=
    _insert_values_as_list metadata "metrics"
      (Some (Many (List.map Some (Dict.keys metric_mapping)))) in
  model_index <- create_model_index self metric_mapping ;;
  Ok (Dict.set "model-index" (MetaModelIndex model_index.(returned)) metadata).

(** ** Rendering *)

(** The versions of the optional libraries: [None] when a library is not
    installed, so [is_torch_available()] is [torch_version <> None]. *)
Record libraries : Type := {
  torch_version : option string;
  tensorflow_version : option string;
  datasets_version : option string;
  tokenizers_version : option string
}.

Definition AUTOGENERATED_TRAINER_COMMENT : string :=
  Str.nl
  +++ "<!-- This model card has been generated automatically according to the information the Trainer had access to. You"
  +++ Str.nl
  +++ "should probably proofread and complete it, then remove this comment. -->"
  +++ Str.nl.

Definition AUTOGENERATED_KERAS_COMMENT : string :=
  Str.nl
  +++ "<!-- This model card has been generated automatically according to the information Keras had access to. You should"
  +++ Str.nl
  +++ "probably proofread and complete it, then remove this comment. -->"
  +++ Str.nl.

(** [str(x)] of an optional string. *)
Definition str_opt (x : option string) : string :=
  match x with
  | Some s => s
  | None => "None"
  end.

Section Rendering.

(** What Python and PyYAML supply: [str(x)] and [f"{x:.{decimals}f}"] of a
    float, and [yaml.dump(metadata, sort_keys=False)]. *)
Variable str_float : float -> string.
Variable format_float : Z -> float -> string.
Variable yaml_dump : metadata_map -> string.

(** [str(v)] *)
Definition str (v : value) : string :=
  match v with
  | VNone => "None"
  | VInt n => Str.of_Z n
  | VFloat x => str_float x
  | VStr s => s
  end.

Definition _maybe_round_to (decimals : Z) (v : value) : string :=
  match v with
  | VFloat x =>
      let parts := Str.split "." (str v) in
      if (Z.of_nat (length parts) >? 1)
         && (Str.len (nth 1 parts "") >? decimals)
      then format_float decimals x
      else str v
  | _ => str v
  end.

(** [_maybe_round(v)] with the default [decimals=4]. *)
Definition _maybe_round (v : value) : string := _maybe_round_to 4 v.

Definition _regular_table_line (values : list string) (col_widths : list Z)
  : string :=
  let values_with_space :=
    List.map (fun vw =>
                let '(v, w) := vw in
                ("| " +++ v) +++ Str.repeat " " (w - Str.len v + 1))
             (List.combine values col_widths) in
  Str.join "" values_with_space +++ "|" +++ Str.nl.

Definition _second_table_line (col_widths : list Z) : string :=
  let values :=
    List.map (fun w => "|:" +++ Str.repeat "-" w +++ ":") col_widths in
  Str.join "" values +++ "|" +++ Str.nl.

(** The body of [for key, value in line.items()]. *)
Definition widen (col_widths : Dict.t string Z) (kv : string * value)
  : result (Dict.t string Z) :=
  let '(key, value) := kv in
  w <- Dict.index col_widths key ;;
  if w <? Str.len (_maybe_round value)
  then Ok (Dict.set key (Str.len (_maybe_round value)) col_widths)
  else Ok col_widths.

Definition make_markdown_table (lines : option (list row)) : result string :=
  match lines with
  | None => Ok ""
  | Some [] => Ok ""
  | Some ((first :: _) as lines) =>
      let col_widths :=
        Dict.of_pairs (List.map (fun key => (key, Str.len key))
                                (Dict.keys first)) in
      col_widths <-
        foldM (fun col_widths line => foldM widen line col_widths)
              lines col_widths ;;
      let table :=
        _regular_table_line (Dict.keys first) (Dict.values col_widths) in
      let table := table +++ _second_table_line (Dict.values col_widths) in
      Ok (fold_left
            (fun table line =>
               table
               +++ _regular_table_line
                     (List.map _maybe_round (Dict.values line))
                     (Dict.values col_widths))
            lines table)
  end.

(** The widths a table is laid out with: one per key of the first row, in
    order, none shorter than its key. *)
Definition widths_for (first : row) (col_widths : Dict.t string Z) : Prop :=
  Dict.keys col_widths = Dict.keys first
  /\ Forall (fun kw => Str.len (fst kw) <= snd kw) col_widths.

(** The start of [to_model_card]: the metadata between its delimiters. *)
Definition metadata_block (self : TrainingSummary) : result string :=
  let model_card := "" in
  metadata <- create_metadata self ;;
  let metadata := yaml_dump metadata in
  if Str.len metadata >? 0
  then Ok ("---" +++ Str.nl +++ metadata +++ "---" +++ Str.nl)
  else Ok model_card.

(** The sentence on the data the model was trained on. *)
Definition dataset_sentence (self : TrainingSummary) : result string :=
  match self.(dataset) with
  | None => Ok "an unknown dataset."
  | Some (Single s) => Ok ("the " +++ s +++ " dataset.")
  | Some (Many [ds]) => Ok ("the " +++ str_opt ds +++ " dataset.")
  | Some (Many l) =>
      let front :=
        Str.join ", " (List.map (fun ds => "the " +++ str_opt ds)
                                (List.removelast l)) in
      last <- list_index l (-1) ;;
      Ok (front +++ " and the " +++ str_opt last +++ " datasets.")
  end.

Definition to_model_card (libs : libraries) (self : TrainingSummary)
  : result string :=
  model_card <- metadata_block self ;;
  (* Now the model card for realsies. *)
  let is_trainer :=
    match self.(source) with Some s => String.eqb s "trainer" | None => false end in
  let is_keras :=
    match self.(source) with Some s => String.eqb s "keras" | None => false end in
  let model_card :=
    if is_trainer then model_card +++ AUTOGENERATED_TRAINER_COMMENT
    else model_card +++ AUTOGENERATED_KERAS_COMMENT in
  let model_card :=
    model_card +++ Str.nl +++ "# " +++ self.(model_name) +++ Str.nl +++ Str.nl in
  let model_card :=
    match self.(finetuned_from) with
    | None => model_card +++ "This model was trained from scratch on "
    | Some ft =>
        model_card +++ "This model is a fine-tuned version of [" +++ ft
        +++ "](https://huggingface.co/" +++ ft +++ ") on "
    end in
  sentence <- dataset_sentence self ;;
  let model_card := model_card +++ sentence in
  let model_card :=
    match self.(eval_results) with
    | Some eval_results =>
        (model_card +++ Str.nl
         +++ "It achieves the following results on the evaluation set:"
         +++ Str.nl)
        +++ Str.join Str.nl
              (List.map (fun nv => "- " +++ fst nv +++ ": " +++ _maybe_round (snd nv))
                        eval_results)
    | None => model_card
    end in
  let model_card := model_card +++ Str.nl in
  let model_card :=
    model_card +++ Str.nl +++ "## Model description" +++ Str.nl +++ Str.nl
    +++ "More information needed" +++ Str.nl in
  let model_card :=
    model_card +++ Str.nl +++ "## Intended uses & limitations" +++ Str.nl
    +++ Str.nl +++ "More information needed" +++ Str.nl in
  let model_card :=
    model_card +++ Str.nl +++ "## Training and evaluation data" +++ Str.nl
    +++ Str.nl +++ "More information needed" +++ Str.nl in
  let model_card :=
    model_card +++ Str.nl +++ "## Training procedure" +++ Str.nl in
  let model_card :=
    model_card +++ Str.nl +++ "### Training hyperparameters" +++ Str.nl in
  let model_card :=
    match self.(hyperparameters) with
    | Some hyperparameters =>
        (model_card +++ Str.nl
         +++ "The following hyperparameters were used during training:"
         +++ Str.nl)
        +++ Str.join Str.nl
              (List.map (fun nv => "- " +++ fst nv +++ ": " +++ str (snd nv))
                        hyperparameters)
        +++ Str.nl
    | None => model_card +++ Str.nl +++ "More information needed" +++ Str.nl
    end in
  model_card <-
    match self.(eval_lines) with
    | Some _ =>
        table <- make_markdown_table self.(eval_lines) ;;
        Ok ((model_card +++ Str.nl +++ "### Training results" +++ Str.nl +++ Str.nl)
            +++ table +++ Str.nl)
    | None => Ok model_card
    end ;;
  let model_card :=
    model_card +++ Str.nl +++ "### Framework versions" +++ Str.nl +++ Str.nl in
  let model_card :=
    match (if is_trainer then libs.(torch_version) else None) with
    | Some v => model_card +++ "- Pytorch " +++ v +++ Str.nl
    | None =>
        match (if is_keras then libs.(tensorflow_version) else None) with
        | Some v => model_card +++ "- TensorFlow " +++ v +++ Str.nl
        | None => model_card
        end
    end in
  let model_card :=
    match libs.(datasets_version) with
    | Some v => model_card +++ "- Datasets " +++ v +++ Str.nl
    | None => model_card
    end in
  let model_card :=
    match libs.(tokenizers_version) with
    | Some v => model_card +++ "- Tokenizers " +++ v +++ Str.nl
    | None => model_card
    end in
  Ok model_card.

(** [s] starts with [p]. *)
Definition starts_with (p s : string) : Prop := exists rest, s = p +++ rest.

(** ** Hyperparameters of a Trainer *)

(** [ParallelMode] is declared with the training arguments; this module
    names three of its members and reads the [value] of the others. *)
Inductive ParallelMode : Type :=
| NOT_PARALLEL
| NOT_DISTRIBUTED
| DISTRIBUTED
| OTHER_MODE (value : string).

Record TrainingArguments : Type := {
  learning_rate : float;
  train_batch_size : Z;
  eval_batch_size : Z;
  seed : Z;
  parallel_mode : ParallelMode;
  world_size : Z;
  gradient_accumulation_steps : Z;
  adafactor : bool;
  adam_beta1 : float;
  adam_beta2 : float;
  adam_epsilon : float;
  lr_scheduler_type : string;
  warmup_ratio : float;
  warmup_steps : Z;
  max_steps : Z;
  num_train_epochs : float;
  fp16 : bool;
  fp16_opt_level : string;
  label_smoothing_factor : float
}.

Record Trainer : Type := {
  args : TrainingArguments;
  use_amp : bool;
  use_apex : bool
}.

Definition _TRAINING_ARGS_KEYS : list string :=
  ["learning_rate"; "train_batch_size"; "eval_batch_size"; "seed"].

(** [getattr(trainer.args, k)] for the keys above. *)
Definition getattr (a : TrainingArguments) (k : string) : value :=
  if String.eqb k "learning_rate" then VFloat a.(learning_rate)
  else if String.eqb k "train_batch_size" then VInt a.(train_batch_size)
  else if String.eqb k "eval_batch_size" then VInt a.(eval_batch_size)
  else if String.eqb k "seed" then VInt a.(seed)
  else VNone.

(** [n != hyperparameters[k]] for an [int] [n]. *)
Definition differs (n : Z) (hyperparameters : Dict.t string value)
  (k : string) : bool :=
  match Dict.get k hyperparameters with
  | Some (VInt m) => negb (n =? m)
  | _ => true
  end.

(** [x != 0.0] *)
Definition nonzero (x : float) : bool := negb (PrimFloat.eqb x 0%float).

(** [if c: hyperparameters[k] = v] *)
Definition set_if (c : bool) (k : string) (v : value)
  (hyperparameters : Dict.t string value) : Dict.t string value :=
  if c then Dict.set k v hyperparameters else hyperparameters.

Definition extract_hyperparameters_from_trainer (trainer : Trainer)
  : Dict.t string value :=
  let a := trainer.(args) in
  let hyperparameters :=
    Dict.of_pairs (List.map (fun k => (k, getattr a k)) _TRAINING_ARGS_KEYS) in
  let hyperparameters :=
    match a.(parallel_mode) with
    | NOT_PARALLEL | NOT_DISTRIBUTED => hyperparameters
    | DISTRIBUTED =>
        Dict.set "distributed_type" (VStr "multi-GPU") hyperparameters
    | OTHER_MODE v => Dict.set "distributed_type" (VStr v) hyperparameters
    end in
  let hyperparameters :=
    set_if (a.(world_size) >? 1) "num_devices" (VInt a.(world_size))
      hyperparameters in
  let hyperparameters :=
    set_if (a.(gradient_accumulation_steps) >? 1)
      "gradient_accumulation_steps" (VInt a.(gradient_accumulation_steps))
      hyperparameters in
  let total_train_batch_size :=
    a.(train_batch_size) * a.(world_size) * a.(gradient_accumulation_steps) in
  let hyperparameters :=
    set_if (differs total_train_batch_size hyperparameters "train_batch_size")
      "total_train_batch_size" (VInt total_train_batch_size)
      hyperparameters in
  let total_eval_batch_size := a.(eval_batch_size) * a.(world_size) in
  let hyperparameters :=
    set_if (differs total_eval_batch_size hyperparameters "eval_batch_size")
      "total_eval_batch_size" (VInt total_eval_batch_size)
      hyperparameters in
  let hyperparameters :=
    if a.(adafactor)
    then Dict.set "optimizer" (VStr "Adafactor") hyperparameters
    else
      Dict.set "optimizer"
        (VStr ("Adam with betas=(" +++ str_float a.(adam_beta1) +++ ","
               +++ str_float a.(adam_beta2) +++ ") and epsilon="
               +++ str_float a.(adam_epsilon)))
        hyperparameters in
  let hyperparameters :=
    Dict.set "lr_scheduler_type" (VStr a.(lr_scheduler_type)) hyperparameters in
  let hyperparameters :=
    set_if (nonzero a.(warmup_ratio))
      "lr_scheduler_warmup_ratio" (VFloat a.(warmup_ratio)) hyperparameters in
  let hyperparameters :=
    set_if (negb (a.(warmup_steps) =? 0))
      "lr_scheduler_warmup_steps" (VInt a.(warmup_steps)) hyperparameters in
  let hyperparameters :=
    if negb (a.(max_steps) =? -1)
    then Dict.set "training_steps" (VInt a.(max_steps)) hyperparameters
    else Dict.set "num_epochs" (VFloat a.(num_train_epochs)) hyperparameters in
  let hyperparameters :=
    if a.(fp16) then
      if trainer.(use_amp)
      then Dict.set "mixed_precision_training" (VStr "Native AMP")
             hyperparameters
      else
        set_if trainer.(use_apex) "mixed_precision_training"
          (VStr ("Apex, opt level " +++ a.(fp16_opt_level))) hyperparameters
    else hyperparameters in
  let hyperparameters :=
    set_if (nonzero a.(label_smoothing_factor))
      "label_smoothing_factor" (VFloat a.(label_smoothing_factor))
      hyperparameters in
  hyperparameters.

End Rendering.
(** The history of the specification's example, and a closing record of
    the training run. *)


Definition demo_history : list record :=
  [ [("loss", VFloat 0.5)];
    [("eval_loss", VFloat 0.3); ("epoch", VInt 1); ("step", VInt 10)] ].

Definition demo_train_log : record :=
  [("train_runtime", VFloat 12.5); ("epoch", VInt 1); ("step", VInt 10)].


(** The row and the final result the specification's example expects. *)
Definition demo_row : row :=
  [ ("Training Loss", VFloat 0.5); ("Epoch", VInt 1); ("Step", VInt 10);
    ("Validation Loss", VFloat 0.3) ].

Definition demo_final : Dict.t string value := [("Loss", VFloat 0.3)].

(** An evaluation-only history with more than the loss in its last record. *)
Definition eval_only_history : list record :=
  [ [("loss", VFloat 1.25); ("step", VInt 5)];
    [("eval_loss", VFloat 0.75); ("eval_accuracy", VFloat 0.5);
     ("eval_runtime", VFloat 3.5); ("epoch", VInt 1); ("step", VInt 5)] ].

(** A summary that names the model and nothing else. *)
Definition bare_summary (name : string) : TrainingSummary :=
  {| model_name := name; language := None; license := None; tags := None;
     finetuned_from := None; tasks := None; dataset := None;
     dataset_tags := None; dataset_args := None; eval_results := None;
     eval_lines := None; hyperparameters := None; source := Some "trainer" |}.

(** A summary with a task, two datasets and a metric. *)
Definition translation_summary : TrainingSummary :=
  {| model_name := "m"; language := Some (Single "ro"); license := None;
     tags := None; finetuned_from := None;
     tasks := Some (Single "translation");
     dataset := Some (Many [Some "WMT"; Some "X"]);
     dataset_tags := Some (Many [Some "wmt16"; Some "x"]);
     dataset_args := Some (Single "ro-en");
     eval_results := Some [("Loss", VFloat 0.5); ("Bleu", VFloat 28.5)];
     eval_lines := None; hyperparameters := None; source := Some "trainer" |}.

(** The text Python prints for the floats of the examples, and their text
    with a fixed number of decimals. *)
Definition demo_str_float (x : float) : string :=
  if PrimFloat.eqb x 0.5 then "0.5"
  else if PrimFloat.eqb x 0.3 then "0.3"
  else if PrimFloat.eqb x 12.5 then "12.5"
  else if PrimFloat.eqb x 28.5 then "28.5"
  else if PrimFloat.eqb x 0.123456789 then "0.123456789"
  else "nan".

Definition demo_format_float (decimals : Z) (x : float) : string :=
  if PrimFloat.eqb x 0.123456789 then "0.1235" else demo_str_float x.

(** A stand-in for [yaml.dump(metadata, sort_keys=False)] to run the
    examples with: block style, two spaces of indentation, sequences at the
    level of their key, every scalar plain. *)
Module PlainYaml.

Definition item (lines : list string) : list string :=
  match lines with
  | [] => []
  | first :: rest => ("- " +++ first) :: List.map (fun l => "  " +++ l) rest
  end.

Definition nested (lines : list string) : list string :=
  List.map (fun l => "  " +++ l) lines.

Definition scalar (x : option string) : string :=
  match x with
  | Some s => s
  | None => "null"
  end.

Definition metric_lines (m : metric_info) : list string :=
  [ "name: " +++ m.(metric_name); "type: " +++ m.(metric_type);
    "value: " +++ str demo_str_float m.(metric_value) ].

Definition result_lines (r : result_entry) : list string :=
  match r.(r_task) with
  | Some t =>
      "task:" :: nested [ "name: " +++ scalar t.(task_name);
                          "type: " +++ t.(task_type) ]
  | None => []
  end
  ++ match r.(r_dataset) with
     | Some d =>
         "dataset:"
         :: nested ([ "name: " +++ scalar d.(ds_name);
                      "type: " +++ d.(ds_type) ]
                    ++ match d.(ds_args) with
                       | Some a => [ "args: " +++ a ]
                       | None => []
                       end)
     | None => []
     end
  ++ match r.(r_metrics) with
     | Some [] => [ "metrics: []" ]
     | Some ms => "metrics:" :: flat_map (fun m => item (metric_lines m)) ms
     | None => []
     end.

Definition index_lines (e : model_index_entry) : list string :=
  ("name: " +++ e.(index_name))
  :: match e.(index_results) with
     | [] => [ "results: []" ]
     | rs => "results:" :: flat_map (fun r => item (result_lines r)) rs
     end.

Definition entry_lines (kv : string * meta_value) : list string :=
  match snd kv with
  | MetaList [] => [ fst kv +++ ": []" ]
  | MetaList l => (fst kv +++ ":") :: List.map (fun s => "- " +++ s) l
  | MetaModelIndex [] => [ fst kv +++ ": []" ]
  | MetaModelIndex es =>
      (fst kv +++ ":") :: flat_map (fun e => item (index_lines e)) es
  end.

Definition dump (metadata : metadata_map) : string :=
  match metadata with
  | [] => "{}" +++ Str.nl
  | _ =>
      String.concat ""
        (List.map (fun l => l +++ Str.nl) (flat_map entry_lines metadata))
  end.

End PlainYaml.

(** A Trainer on two devices, with [train_batch_size] and [eval_batch_size]
    of 8 per device and no gradient accumulation. *)
Definition two_device_trainer : Trainer :=
  {| args :=
       {| learning_rate := 0.5; train_batch_size := 8; eval_batch_size := 8;
          seed := 42; parallel_mode := DISTRIBUTED; world_size := 2;
          gradient_accumulation_steps := 1; adafactor := false;
          adam_beta1 := 0.5; adam_beta2 := 0.5; adam_epsilon := 0.5;
          lr_scheduler_type := "linear"; warmup_ratio := 0;
          warmup_steps := 0; max_steps := -1; num_train_epochs := 0.5;
          fp16 := false; fp16_opt_level := "O1";
          label_smoothing_factor := 0 |};
     use_amp := false; use_apex := false |}.

(** ** Further definitions: the rows of the results table *)

(** The keys [parse_log_history] takes out of an evaluation record before
    it names the columns. *)
Definition bookkeeping_keys : list string :=
  [ "total_flos"; "epoch"; "step"; "eval_runtime";
    "eval_samples_per_second"; "eval_steps_per_second" ].

(** The column a metric key of an evaluation record is written to. *)
Definition column_name (k : string) : string :=
  if String.eqb k "eval_loss" then "Validation Loss"
  else humanize (List.tl (Str.split "_" k)).

(** The rows of the records [rest], read from the first to the last with
    the training loss seen so far: what the loop over [range(idx)] builds,
    as a recursion on the records. *)
Fixpoint rows_of (rest : list record) (training_loss : value) : list row :=
  match rest with
  | [] => []
  | r :: rest' =>
      let training_loss :=
        match Dict.get "loss" r with
        | Some v => v
        | None => training_loss
        end in
      if Dict.has "eval_loss" r
      then table_line training_loss r :: rows_of rest' training_loss
      else rows_of rest' training_loss
  end.

(** A record whose metric keys leave the four standard columns alone. *)
Definition plain_columns (r : record) : Prop :=
  Forall (fun key =>
            In key bookkeeping_keys \/ key = "eval_loss"
            \/ ~ In (column_name key)
                 ["Training Loss"; "Epoch"; "Step"; "Validation Loss"])
         (Dict.keys r).

(** ** Further definitions: present values *)

(** The entries of a field that are not [None], and whether there is one. *)
Definition present_values (values : option str_or_list) : list string :=
  flat_map (fun v => match v with Some s => [s] | None => [] end)
           (_listify values).

Definition has_values (values : option str_or_list) : bool :=
  negb (Nat.eqb (length (present_values values)) 0).

(** ** Further definitions: the rows of a Keras history *)

(** The name a key of a Keras log gets in a row. *)
Definition keras_name (k : string) : string :=
  humanize
    (Str.split "_"
       (if Str.startswith "val_" k then "validation_" +++ Str.drop 4 k
        else if negb (String.eqb k "epoch") then "train_" +++ k
        else k)).

(** The record [d] read at the keys [ks], in their order. *)
Definition restrict (ks : list string) (d : record) : record :=
  flat_map (fun k => match Dict.get k d with
                     | Some v => [(k, v)]
                     | None => []
                     end) ks.

(** The values the columns [logs] hold at position [j]. *)
Definition column_values (logs : Dict.t string (list value)) (j : nat)
  : Dict.t string value :=
  List.map (fun kl => (fst kl, nth j (snd kl) VNone)) logs.

(** ** Further definitions: the widths of the columns of a table *)

Section ColumnWidths.

Variable str_float : float -> string.
Variable format_float : Z -> float -> string.

(** The width [w] of the column [key] once the cells [cells] are seen: the
    greatest of [w] and the lengths of the cells under [key]. *)
Definition grow (key : string) (cells : list (string * value)) (w : Z) : Z :=
  fold_left
    (fun w kv =>
       if String.eqb (fst kv) key
       then Z.max w (Str.len (_maybe_round str_float format_float (snd kv)))
       else w)
    cells w.

(** The width of the column [key] of the table of [lines]. *)
Definition column_width (key : string) (lines : list row) : Z :=
  grow key (List.concat lines) (Str.len key).

(** The line of the table for one row. *)
Definition row_line (col_widths : list Z) (line : row) : string :=
  _regular_table_line
    (List.map (_maybe_round str_float format_float) (Dict.values line))
    col_widths.

End ColumnWidths.

(** ** Further definitions: the summary of a Trainer *)

(** [needle in hay] on strings. *)
Fixpoint str_contains (needle hay : string) : bool :=
  if String.prefix needle hay then true
  else match hay with
       | EmptyString => false
       | String _ hay' => str_contains needle hay'
       end.

(** [x in l] for a list of optional strings. *)
Definition opt_mem (x : option string) (l : list (option string)) : bool :=
  existsb (keqb x) l.

(** A dataset of a Trainer: a [datasets.Dataset], with its builder and
    configuration names, or any other object. *)
Inductive dataset_object : Type :=
| HFDataset (builder_name : string) (config_name : option string)
| OtherDataset.

(** A value of a mapping from model types to class names: a name, or a
    tuple or list of names. *)
Inductive mapping_value : Type :=
| ClassName (s : string)
| ClassNames (l : list string).

Definition _get_mapping_values (mapping : Dict.t string mapping_value)
  : list string :=
  fold_left
    (fun result v =>
       match v with
       | ClassNames l => result ++ l
       | ClassName s => result ++ [s]
       end)
    (Dict.values mapping) [].

(** What [from_trainer] reads of a Trainer besides the arguments: its
    datasets, the class name of its model, the [_name_or_path] of the
    model's configuration ([None] when it has no such attribute), and the
    log history of its state. *)
Record TrainerObject : Type := {
  trainer_core : Trainer;
  train_dataset : option dataset_object;
  eval_dataset : option dataset_object;
  model_class_name : string;
  model_name_or_path : option string;
  output_dir : string;
  log_history : list record
}.

(** What building a summary can raise: what the log parser raises, or the
    AttributeError of [tags.append] on a string. *)
Inductive summary_exn : Type :=
| ParserError (e : exn)
| AttributeError.

Inductive built (A : Type) : Type :=
| Built (a : A)
| Failed (e : summary_exn).

Arguments Built {A} a.
Arguments Failed {A} e.

(** The tags of [from_trainer], with generated_from_trainer added. *)
Definition trainer_tags (tags : option str_or_list)
  : built (option str_or_list) :=
  match tags with
  | None => Built (Some (Many [Some "generated_from_trainer"]))
  | Some (Single s) =>
      if negb (String.eqb s "generated_from_trainer")
      then Built (Some (Many [Some s; Some "generated_from_trainer"]))
      else if negb (str_contains "generated_from_trainer" s)
      then Failed AttributeError
      else Built tags
  | Some (Many l) =>
      if negb (opt_mem (Some "generated_from_trainer") l)
      then Built (Some (Many (l ++ [Some "generated_from_trainer"])))
      else Built tags
  end.

(** The tags of [from_keras], with generated_from_keras_callback added; the
    last test reads generated_from_trainer, as the source does. *)
Definition keras_tags (tags : option str_or_list)
  : built (option str_or_list) :=
  match tags with
  | None => Built (Some (Many [Some "generated_from_keras_callback"]))
  | Some (Single s) =>
      if negb (String.eqb s "generated_from_keras_callback")
      then Built (Some (Many [Some s; Some "generated_from_keras_callback"]))
      else if negb (str_contains "generated_from_trainer" s)
      then Failed AttributeError
      else Built tags
  | Some (Many l) =>
      if negb (opt_mem (Some "generated_from_trainer") l)
      then Built (Some (Many (l ++ [Some "generated_from_keras_callback"])))
      else Built tags
  end.

Section FromTrainer.

(** What the environment supplies: [str(x)] of a float, whether the
    datasets library is installed, [os.path.isdir], the [name] of a path,
    and the mappings from model types to class names of the auto classes. *)
Variable str_float : float -> string.
Variable datasets_available : bool.
Variable isdir : string -> bool.
Variable path_name : string -> string.
Variable MODEL_FOR_CAUSAL_LM_MAPPING_NAMES : Dict.t string mapping_value.
Variable MODEL_FOR_IMAGE_CLASSIFICATION_MAPPING_NAMES : Dict.t string mapping_value.
Variable MODEL_FOR_IMAGE_SEGMENTATION_MAPPING_NAMES : Dict.t string mapping_value.
Variable MODEL_FOR_MASKED_LM_MAPPING_NAMES : Dict.t string mapping_value.
Variable MODEL_FOR_OBJECT_DETECTION_MAPPING_NAMES : Dict.t string mapping_value.
Variable MODEL_FOR_QUESTION_ANSWERING_MAPPING_NAMES : Dict.t string mapping_value.
Variable MODEL_FOR_SEQ_TO_SEQ_CAUSAL_LM_MAPPING_NAMES : Dict.t string mapping_value.
Variable MODEL_FOR_SEQUENCE_CLASSIFICATION_MAPPING_NAMES : Dict.t string mapping_value.
Variable MODEL_FOR_TABLE_QUESTION_ANSWERING_MAPPING_NAMES : Dict.t string mapping_value.
Variable MODEL_FOR_TOKEN_CLASSIFICATION_MAPPING_NAMES : Dict.t string mapping_value.
Variable MODEL_FOR_AUDIO_CLASSIFICATION_MAPPING_NAMES : Dict.t string mapping_value.

Definition TASK_MAPPING : Dict.t string (Dict.t string mapping_value) :=
  [ ("text-generation", MODEL_FOR_CAUSAL_LM_MAPPING_NAMES);
    ("image-classification", MODEL_FOR_IMAGE_CLASSIFICATION_MAPPING_NAMES);
    ("image-segmentation", MODEL_FOR_IMAGE_SEGMENTATION_MAPPING_NAMES);
    ("fill-mask", MODEL_FOR_MASKED_LM_MAPPING_NAMES);
    ("object-detection", MODEL_FOR_OBJECT_DETECTION_MAPPING_NAMES);
    ("question-answering", MODEL_FOR_QUESTION_ANSWERING_MAPPING_NAMES);
    ("text2text-generation", MODEL_FOR_SEQ_TO_SEQ_CAUSAL_LM_MAPPING_NAMES);
    ("text-classification", MODEL_FOR_SEQUENCE_CLASSIFICATION_MAPPING_NAMES);
    ("table-question-answering",
     MODEL_FOR_TABLE_QUESTION_ANSWERING_MAPPING_NAMES);
    ("token-classification", MODEL_FOR_TOKEN_CLASSIFICATION_MAPPING_NAMES);
    ("audio-classification", MODEL_FOR_AUDIO_CLASSIFICATION_MAPPING_NAMES) ].

Definition is_hf_dataset (dataset : option dataset_object) : bool :=
  if negb datasets_available then false
  else match dataset with
       | Some (HFDataset _ _) => true
       | _ => false
       end.

(** The builder names that are no datasets of the Hub. *)
Definition local_builders : list string :=
  ["csv"; "json"; "pandas"; "parquet"; "text"].

(** The default tags and arguments inferred from the dataset. *)
Definition default_dataset_tags (one_dataset : option dataset_object)
  (dataset_tags dataset_args : option str_or_list)
  : option str_or_list * option str_or_list :=
  match one_dataset with
  | Some (HFDataset builder_name config_name) =>
      if is_hf_dataset one_dataset
         && (match dataset_tags with None => true | Some _ => false end
             || match dataset_args with None => true | Some _ => false end)
      then
        let default_tag := builder_name in
        if negb (Str.mem default_tag local_builders) then
          (match dataset_tags with
           | None => Some (Many [Some default_tag])
           | Some _ => dataset_tags
           end,
           match dataset_args with
           | None => Some (Many [config_name])
           | Some _ => dataset_args
           end)
        else (dataset_tags, dataset_args)
      else (dataset_tags, dataset_args)
  | _ => (dataset_tags, dataset_args)
  end.

(** The default task: the loop over [TASK_MAPPING] has no [break], so the
    last task whose mapping lists the class name stays. *)
Definition default_task (model_class_name : string) (tasks : option str_or_list)
  : option str_or_list :=
  match tasks with
  | None =>
      fold_left
        (fun tasks tm =>
           let '(task, mapping) := tm in
           if Str.mem model_class_name (_get_mapping_values mapping)
           then Some (Single task)
           else tasks)
        TASK_MAPPING None
  | Some _ => tasks
  end.

Definition from_trainer (trainer : TrainerObject)
  (language : option str_or_list) (license : option string)
  (tags : option str_or_list) (model_name : option string)
  (finetuned_from : option string) (tasks dataset_tags dataset dataset_args
     : option str_or_list)
  : built TrainingSummary :=
  (* Infer default from dataset *)
  let one_dataset :=
    match trainer.(train_dataset) with
    | Some d => Some d
    | None => trainer.(eval_dataset)
    end in
  let '(dataset_tags, dataset_args) :=
    default_dataset_tags one_dataset dataset_tags dataset_args in
  let dataset :=
    match dataset, dataset_tags with
    | None, Some _ => dataset_tags
    | _, _ => dataset
    end in
  (* Infer default finetuned_from *)
  let finetuned_from :=
    match finetuned_from, trainer.(model_name_or_path) with
    | None, Some name_or_path =>
        if negb (isdir name_or_path) then Some name_or_path else None
    | _, _ => finetuned_from
    end in
  (* Infer default task tag *)
  let tasks := default_task trainer.(model_class_name) tasks in
  let model_name :=
    match model_name with
    | None => path_name trainer.(output_dir)
    | Some name => name
    end in
  (* Add generated_from_trainer to the tags *)
  match trainer_tags tags with
  | Failed e => Failed e
  | Built tags =>
      match parse_log_history trainer.(log_history) with
      | Raise e => Failed (ParserError e)
      | Ok (_, eval_lines, eval_results) =>
          let hyperparameters :=
            extract_hyperparameters_from_trainer str_float
              trainer.(trainer_core) in
          Built {| model_name := model_name;
                   language := language;
                   license := license;
                   tags := tags;
                   finetuned_from := finetuned_from;
                   tasks := tasks;
                   dataset := dataset;
                   dataset_tags := dataset_tags;
                   dataset_args := dataset_args;
                   eval_results := eval_results;
                   eval_lines := eval_lines;
                   hyperparameters := Some hyperparameters;
                   source := Some "trainer" |}
      end
  end.

End FromTrainer.
(** * Properties *)

(** ** Dictionaries *)

#[export] Instance string_EqKeyOk : EqKeyOk string.
Proof. exact String.eqb_eq. Qed.

#[export] Instance option_EqKeyOk {K : Type} `{EqKeyOk K} : EqKeyOk (option K).
Proof.
  intros [x|] [y|]; simpl; try (split; discriminate).
  - rewrite keqb_spec. split; intro E; [now subst | now injection E].
  - split; reflexivity.
Qed.

Section DictFacts.
Context {K : Type} `{EqKeyOk K} {V : Type}.
Implicit Types (d : Dict.t K V) (k : K) (v : V).

Lemma keqb_refl k : keqb k k = true.
Proof. now apply keqb_spec. Qed.

Lemma keqb_neq k k' : k <> k' -> keqb k k' = false.
Proof.
  intro Hne. destruct (keqb k k') eqn:E; [|reflexivity].
  apply keqb_spec in E. contradiction.
Qed.

Lemma keqb_dec k k' : {k = k'} + {k <> k'}.
Proof.
  destruct (keqb k k') eqn:E.
  - left. now apply keqb_spec.
  - right. intro Heq. apply keqb_spec in Heq. congruence.
Qed.

Lemma get_set_eq k v d : Dict.get k (Dict.set k v d) = Some v.
Proof.
  induction d as [|[k' v'] d IH]; simpl.
  - now rewrite keqb_refl.
  - destruct (keqb k k') eqn:E; simpl; rewrite E; [reflexivity | exact IH].
Qed.

Lemma get_set_neq k k' v d :
  k <> k' -> Dict.get k (Dict.set k' v d) = Dict.get k d.
Proof.
  intro Hne. induction d as [|[k0 v0] d IH]; simpl.
  - now rewrite keqb_neq.
  - destruct (keqb k' k0) eqn:E; simpl.
    + apply keqb_spec in E. subst k0. now rewrite keqb_neq.
    + now rewrite IH.
Qed.

Lemma has_in_keys k d : Dict.has k d = true <-> In k (Dict.keys d).
Proof.
  unfold Dict.has. induction d as [|[k' v'] d IH]; simpl.
  - split; [discriminate | contradiction].
  - destruct (keqb k k') eqn:E.
    + apply keqb_spec in E. subst. split; [now left | reflexivity].
    + rewrite IH. split; [now right|].
      intros [Heq|Hin]; [|exact Hin].
      subst. rewrite keqb_refl in E. discriminate.
Qed.

Lemma get_in k v d : Dict.get k d = Some v -> In (k, v) d.
Proof.
  induction d as [|[k' v'] d IH]; simpl; [discriminate|].
  destruct (keqb k k') eqn:E.
  - apply keqb_spec in E. intro Hv. injection Hv as ->. subst. now left.
  - intro Hv. right. now apply IH.
Qed.

Lemma has_set k k' v d :
  Dict.has k (Dict.set k' v d) = true <-> k = k' \/ Dict.has k d = true.
Proof.
  unfold Dict.has. destruct (keqb_dec k k') as [->|Hne].
  - rewrite get_set_eq. split; [now left | reflexivity].
  - rewrite get_set_neq by assumption. split; [now right|].
    intros [Heq|Hh]; [contradiction | exact Hh].
Qed.

Lemma keys_set_present k v d :
  Dict.has k d = true -> Dict.keys (Dict.set k v d) = Dict.keys d.
Proof.
  unfold Dict.has. induction d as [|[k' v'] d IH]; simpl; [discriminate|].
  destruct (keqb k k') eqn:E; simpl; [reflexivity|].
  intro Hh. now rewrite IH.
Qed.

Lemma set_absent k v d :
  Dict.has k d = false -> Dict.set k v d = d ++ [(k, v)].
Proof.
  unfold Dict.has. induction d as [|[k' v'] d IH]; simpl; [reflexivity|].
  destruct (keqb k k') eqn:E; [discriminate|].
  intro Hh. now rewrite IH.
Qed.

Lemma set_not_nil k v d : Dict.set k v d <> [].
Proof.
  destruct d as [|[k' v'] d]; simpl; [discriminate|].
  destruct (keqb k k'); discriminate.
Qed.

(** A loop that assigns [d[k] = v] for some of the items it visits: which
    keys the mapping ends with, and where their values come from. *)
Section FoldSet.
Context {A : Type} (upd : A -> option (K * V)).

Local Abbreviation assign :=
  (fun d x => match upd x with
              | Some (k, v) => Dict.set k v d
              | None => d
              end).

Lemma fold_assign_has (l : list A) : forall d k,
  Dict.has k (fold_left assign l d) = true <->
  Dict.has k d = true \/ exists x v, In x l /\ upd x = Some (k, v).
Proof.
  induction l as [|x l IH]; intros d k; simpl.
  - split; [now left|]. intros [Hh|(x & v & [] & _)]. exact Hh.
  - rewrite IH. split.
    + intros [Hh|(y & v & Hy & Hu)].
      * destruct (upd x) as [[k' v']|] eqn:Hx; [|now left].
        apply has_set in Hh. destruct Hh as [->|Hh]; [|now left].
        right. exists x, v'. split; [now left | exact Hx].
      * right. exists y, v. split; [now right | exact Hu].
    + intros [Hh|(y & v & [<-|Hy] & Hu)].
      * left. destruct (upd x) as [[k' v']|]; [|exact Hh].
        apply has_set. now right.
      * left. rewrite Hu. apply has_set. now left.
      * right. exists y, v. split; assumption.
Qed.

Lemma fold_assign_get (l : list A) : forall d k v,
  Dict.get k (fold_left assign l d) = Some v ->
  Dict.get k d = Some v \/ exists x, In x l /\ upd x = Some (k, v).
Proof.
  induction l as [|x l IH]; intros d k v; simpl; [now left|].
  intro Hg. apply IH in Hg. destruct Hg as [Hg|(y & Hy & Hu)].
  - destruct (upd x) as [[k' v']|] eqn:Hx; [|now left].
    destruct (keqb_dec k k') as [->|Hne].
    + rewrite get_set_eq in Hg. injection Hg as ->.
      right. exists x. split; [now left | exact Hx].
    + rewrite get_set_neq in Hg by assumption. now left.
  - right. exists y. split; [now right | exact Hu].
Qed.

End FoldSet.

Lemma in_set k k' v v' d :
  In (k, v) (Dict.set k' v' d) -> (k, v) = (k', v') \/ In (k, v) d.
Proof.
  induction d as [|[k0 v0] d IH]; simpl.
  - intros [E|[]]. now left.
  - destruct (keqb k' k0) eqn:E; simpl.
    + apply keqb_spec in E. subst k0.
      intros [E'|Hin]; [now left | right; now right].
    + intros [E'|Hin]; [right; now left|].
      destruct (IH Hin) as [E''|Hin']; [now left | right; now right].
Qed.

Lemma fold_assign_in {A : Type} (upd : A -> option (K * V)) (l : list A) :
  forall d k v,
    In (k, v) (fold_left (fun d x => match upd x with
                                     | Some (k, v) => Dict.set k v d
                                     | None => d
                                     end) l d) ->
    In (k, v) d \/ exists x, In x l /\ upd x = Some (k, v).
Proof.
  induction l as [|x l IH]; intros d k v; simpl; [now left|].
  intro Hin. apply IH in Hin. destruct Hin as [Hin|(y & Hy & Hu)].
  - destruct (upd x) as [[k' v']|] eqn:Hx; [|now left].
    apply in_set in Hin. destruct Hin as [E|Hin]; [|now left].
    right. exists x. split; [now left | congruence].
  - right. exists y. split; [now right | exact Hu].
Qed.

Lemma of_pairs_has (pairs : list (K * V)) k :
  Dict.has k (Dict.of_pairs pairs) = true <-> In k (List.map fst pairs).
Proof.
  unfold Dict.of_pairs.
  assert (G : forall d,
            Dict.has k (fold_left (fun d kv => Dict.set (fst kv) (snd kv) d)
                                  pairs d) = true
            <-> Dict.has k d = true \/ In k (List.map fst pairs)).
  { induction pairs as [|[k' v'] pairs IH]; intro d; simpl.
    - split; [now left | intros [Hh|[]]; exact Hh].
    - rewrite IH, has_set. split.
      + intros [[->|Hh]|Hin]; [right; now left | now left | right; now right].
      + intros [Hh|[<-|Hin]]; [left; now right | left; now left | now right]. }
  rewrite G. split; [intros [Hh|Hin]; [discriminate | exact Hin] | now right].
Qed.

Lemma of_pairs_nil_iff (pairs : list (K * V)) :
  Dict.of_pairs pairs = [] <-> pairs = [].
Proof.
  split; [|now intros ->].
  destruct pairs as [|[k v] pairs]; [reflexivity|]. intro E. exfalso.
  assert (Hh : Dict.has k (Dict.of_pairs ((k, v) :: pairs)) = true)
    by (apply of_pairs_has; now left).
  rewrite E in Hh. discriminate.
Qed.

Lemma fold_left_ext {A S : Type} (f g : S -> A -> S) (l : list A) :
  (forall s a, f s a = g s a) -> forall s, fold_left f l s = fold_left g l s.
Proof.
  intro Hfg. induction l as [|a l IH]; intro s; simpl; [reflexivity|].
  now rewrite Hfg, IH.
Qed.

End DictFacts.
(** ** Properties of the log parser *)

Section LogParser.

Lemma list_index_nat {A : Type} (l : list A) (i : nat) (a : A) :
  nth_error l i = Some a -> list_index l (Z.of_nat i) = Ok a.
Proof.
  intro Hn. unfold list_index.
  assert (Hlt : (i < length l)%nat) by (apply nth_error_Some; congruence).
  replace (Z.of_nat i <? 0) with false by (symmetry; apply Z.ltb_ge; lia).
  replace (0 <=? Z.of_nat i) with true by (symmetry; apply Z.leb_le; lia).
  replace (Z.of_nat i <? Z.of_nat (length l)) with true
    by (symmetry; apply Z.ltb_lt; lia).
  simpl. now rewrite Nat2Z.id, Hn.
Qed.

Lemma list_index_in_range {A : Type} (l : list A) (i : nat) :
  (i < length l)%nat -> exists a, nth_error l i = Some a /\ list_index l (Z.of_nat i) = Ok a.
Proof.
  intro Hlt. destruct (nth_error l i) as [a|] eqn:E.
  - exists a. split; [reflexivity | now apply list_index_nat].
  - apply nth_error_None in E. lia.
Qed.

Lemma list_index_middle {A : Type} (pre post : list A) (a : A) :
  list_index (pre ++ a :: post) (Z.of_nat (length pre)) = Ok a.
Proof.
  apply list_index_nat. rewrite nth_error_app2 by lia.
  now rewrite Nat.sub_diag.
Qed.

Lemma train_runtime_scan_none (rest : list record) (idx : Z) :
  Forall no_train_runtime rest ->
  train_runtime_scan rest idx = idx + Z.of_nat (length rest).
Proof.
  intro HF. revert idx. induction HF as [|r rest Hr _ IH]; intro idx; simpl.
  - lia.
  - rewrite Hr, IH. lia.
Qed.

Lemma train_runtime_scan_some (rest : list record) (idx : Z) :
  Exists (fun r => Dict.has "train_runtime" r = true) rest ->
  exists pre t post,
    rest = pre ++ t :: post /\ Dict.has "train_runtime" t = true /\
    train_runtime_scan rest idx = idx + Z.of_nat (length pre).
Proof.
  revert idx. induction rest as [|r rest IH]; intros idx HE.
  - inversion HE.
  - simpl. destruct (Dict.has "train_runtime" r) eqn:Hr.
    + exists [], r, rest. simpl. repeat split; [assumption | lia].
    + assert (HE' : Exists (fun r => Dict.has "train_runtime" r = true) rest).
      { inversion HE; subst; [congruence | assumption]. }
      destruct (IH (idx + 1) HE') as (pre & t & post & -> & Ht & Hs).
      exists (r :: pre), t, post. simpl. repeat split; [assumption|].
      rewrite Hs. lia.
Qed.

Lemma eval_loss_loop_none (log_history : list record) (n : nat) :
  Forall no_eval_loss log_history -> (n <= length log_history)%nat ->
  eval_loss_loop log_history n = Ok (-1).
Proof.
  intros HF. induction n as [|i IH]; intro Hle; simpl; [reflexivity|].
  destruct (list_index_in_range log_history i) as (r & Hn & ->); [lia|].
  simpl. rewrite Forall_forall in HF.
  rewrite (HF r) by (eapply nth_error_In; eassumption).
  apply IH. lia.
Qed.

Lemma eval_loss_loop_last (pre post : list record) (r : record) (k : nat) :
  Dict.has "eval_loss" r = true -> Forall no_eval_loss post ->
  (k <= length post)%nat ->
  eval_loss_loop (pre ++ r :: post) (length pre + 1 + k)
  = Ok (Z.of_nat (length pre)).
Proof.
  intros Hr HF. induction k as [|k IH]; intro Hle.
  - rewrite Nat.add_0_r, Nat.add_1_r. simpl.
    now rewrite list_index_middle; simpl; rewrite Hr.
  - replace (length pre + 1 + S k)%nat with (S (length pre + 1 + k)) by lia.
    simpl.
    destruct (nth_error post k) as [r'|] eqn:Hk;
      [|apply nth_error_None in Hk; lia].
    rewrite (list_index_nat _ _ r').
    + simpl. rewrite Forall_forall in HF.
      rewrite (HF r') by (eapply nth_error_In; eassumption).
      apply IH. lia.
    + rewrite nth_error_app2 by lia.
      replace (length pre + 1 + k - length pre)%nat with (S k) by lia.
      exact Hk.
Qed.


Lemma range_in_bounds (n : Z) : Forall (fun i => 0 <= i < n) (range n).
Proof.
  unfold range. apply Forall_forall. intros i Hi.
  apply in_map_iff in Hi. destruct Hi as (k & <- & Hk).
  apply in_seq in Hk. lia.
Qed.

Lemma list_index_in_bounds {A : Type} (l : list A) (i : Z) :
  0 <= i < Z.of_nat (length l) -> exists a, In a l /\ list_index l i = Ok a.
Proof.
  intro Hi.
  destruct (list_index_in_range l (Z.to_nat i)) as (a & Hn & Ha); [lia|].
  exists a. split; [eapply nth_error_In; eassumption|].
  now rewrite Z2Nat.id in Ha by lia.
Qed.

(** The loop that builds the table returns, and adds no row when no record
    holds an evaluation loss. *)
Lemma table_loop_ok (log_history : list record) (l : list Z) :
  Forall (fun i => 0 <= i < Z.of_nat (length log_history)) l ->
  forall st, exists training_loss lines,
    foldM (table_step log_history) l st = Ok (training_loss, lines) /\
    (Forall no_eval_loss log_history -> lines = snd st).
Proof.
  induction 1 as [|i l Hi _ IH]; intros [training_loss lines]; simpl.
  - exists training_loss, lines. split; reflexivity.
  - destruct (list_index_in_bounds log_history i Hi) as (r & Hin & ->). simpl.
    destruct (Dict.has "eval_loss" r) eqn:Hr; simpl.
    + match goal with |- context [foldM _ l ?st] =>
        destruct (IH st) as (tl' & lines' & -> & Hl) end.
      exists tl', lines'. split; [reflexivity|].
      intro HF. rewrite Forall_forall in HF.
      specialize (HF r Hin). unfold no_eval_loss in HF. congruence.
    + match goal with |- context [foldM _ l ?st] =>
        destruct (IH st) as (tl' & lines' & -> & Hl) end.
      exists tl', lines'. split; [reflexivity | exact Hl].
Qed.

(** What [parse_log_history] does after its first loop, by whether a
    record holds the training runtime. *)
Lemma parse_log_history_eval_only (log_history : list record) :
  Forall no_train_runtime log_history ->
  parse_log_history log_history =
    (idx <- eval_loss_loop log_history (length log_history) ;;
     if idx >? 0 then
       r <- list_index log_history idx ;; Ok (None, None, Some r)
     else Ok (None, None, None)).
Proof.
  intro HF. unfold parse_log_history.
  rewrite (train_runtime_scan_none _ _ HF). simpl (0 + _).
  rewrite Z.eqb_refl. unfold eval_loss_scan.
  replace (Z.to_nat (Z.of_nat (length log_history) - 1 + 1))
    with (length log_history) by lia.
  reflexivity.
Qed.

Lemma parse_log_history_trained (log_history : list record) :
  Exists (fun r => Dict.has "train_runtime" r = true) log_history ->
  exists train_log lines,
    (Forall no_eval_loss log_history -> lines = []) /\
    parse_log_history log_history =
      (idx <- eval_loss_loop log_history (length log_history) ;;
       if idx >? 0 then
         r <- list_index log_history idx ;;
         Ok (Some train_log, Some lines, Some (final_results r))
       else Ok (Some train_log, Some lines, None)).
Proof.
  intro HE. unfold parse_log_history.
  destruct (train_runtime_scan_some _ 0 HE) as (pre & t & post & E & Ht & ->).
  simpl (0 + _).
  assert (Hlen : Z.of_nat (length pre) < Z.of_nat (length log_history)).
  { subst log_history. rewrite length_app. simpl. lia. }
  replace (Z.of_nat (length pre) =? Z.of_nat (length log_history)) with false
    by (symmetry; apply Z.eqb_neq; lia).
  assert (Hidx : list_index log_history (Z.of_nat (length pre)) = Ok t).
  { subst log_history. apply list_index_middle. }
  rewrite Hidx. simpl.
  destruct (table_loop_ok log_history (range (Z.of_nat (length pre))))
    with (st := (VStr "No log", @nil row)) as (tl' & lines & -> & Hl).
  { eapply Forall_impl; [|apply range_in_bounds]. simpl. intros; lia. }
  simpl. exists t, lines. split; [exact Hl|].
  unfold eval_loss_scan.
  replace (Z.to_nat (Z.of_nat (length log_history) - 1 + 1))
    with (length log_history) by lia.
  reflexivity.
Qed.

Lemma eval_loss_loop_split (pre post : list record) (r : record) :
  Dict.has "eval_loss" r = true -> Forall no_eval_loss post ->
  eval_loss_loop (pre ++ r :: post) (length (pre ++ r :: post))
  = Ok (Z.of_nat (length pre)).
Proof.
  intros Hr HF.
  replace (length (pre ++ r :: post)) with (length pre + 1 + length post)%nat
    by (rewrite length_app; simpl; lia).
  now apply eval_loss_loop_last.
Qed.

Lemma no_train_runtime_dec (log_history : list record) :
  Forall no_train_runtime log_history \/
  Exists (fun r => Dict.has "train_runtime" r = true) log_history.
Proof.
  induction log_history as [|r l [IH|IH]].
  - left. constructor.
  - destruct (Dict.has "train_runtime" r) eqn:Hr.
    + right. now constructor.
    + left. now constructor.
  - right. now constructor 2.
Qed.

(** The keys of the final result are the humanized metric keys of the
    record it is built from. *)
Lemma final_results_keys (r : record) (name : string) :
  In name (Dict.keys (final_results r)) <->
  exists key, In key (Dict.keys r) /\ spec_humanized_key key = Some name.
Proof.
  rewrite <- has_in_keys. unfold final_results.
  rewrite (fold_left_ext _
             (fun d kv =>
                match (match spec_humanized_key (fst kv) with
                       | Some n => Some (n, snd kv)
                       | None => None
                       end) with
                | Some (k, v) => Dict.set k v d
                | None => d
                end)).
  - rewrite fold_assign_has. split.
    + intros [Hh|((key & v) & v' & Hin & Hu)]; [discriminate|].
      exists key. split; [apply in_map_iff; now exists (key, v)|].
      simpl in Hu. destruct (spec_humanized_key key); [|discriminate].
      now injection Hu as -> _.
    + intros (key & Hin & Hk). right.
      apply in_map_iff in Hin. destruct Hin as ((key' & v) & E & Hin).
      simpl in E. subst key'. exists (key, v), v. split; [exact Hin|].
      simpl. now rewrite Hk.
  - intros d [key v]. unfold spec_humanized_key. cbn [fst snd].
    match goal with |- context [Str.mem ?k non_metric_keys] =>
      destruct (Str.mem k non_metric_keys) end; reflexivity.
Qed.

End LogParser.

(** ** The claims on the log parser *)

(** C1 (amended).  The history [{"loss": 0.5}, {"eval_loss": 0.3, "epoch": 1,
    "step": 10}] holds no record with the training runtime, so
    [parse_log_history] returns no training log, no table, and the last
    record as it stands.  Followed by a record that holds the training
    runtime (and no evaluation loss), the same history gives exactly the one row
    {Training Loss: 0.5, Epoch: 1, Step: 10, Validation Loss: 0.3} and the
    final result {"Loss": 0.3}. *)
Theorem parse_log_history_example (train_log : record) :
  has_train_runtime train_log -> no_eval_loss train_log ->
  parse_log_history demo_history
  = Ok (None, None,
        Some [("eval_loss", VFloat 0.3); ("epoch", VInt 1); ("step", VInt 10)])
  /\ parse_log_history (demo_history ++ [train_log])
     = Ok (Some train_log, Some [demo_row], Some demo_final).
Proof.
  intros Ht He. split; [reflexivity|].
  unfold has_train_runtime in Ht. unfold no_eval_loss in He.
  unfold parse_log_history, demo_history. simpl train_runtime_scan.
  rewrite Ht. simpl. unfold eval_loss_scan. simpl eval_loss_loop.
  rewrite He. reflexivity.
Qed.

Lemma parse_log_history_example_witness :
  has_train_runtime demo_train_log /\ no_eval_loss demo_train_log
  /\ parse_log_history (demo_history ++ [demo_train_log])
     = Ok (Some demo_train_log, Some [demo_row], Some demo_final).
Proof.
  split; [reflexivity|]. split; [reflexivity|].
  exact (proj2 (parse_log_history_example demo_train_log eq_refl eq_refl)).
Defined.

(** C1, as stated, fails: on the two-record history the parser returns no
    table and a final result whose keys are those of the record. *)
Lemma parse_log_history_example_fallback :
  parse_log_history demo_history
  = Ok (None, None,
        Some [("eval_loss", VFloat 0.3); ("epoch", VInt 1); ("step", VInt 10)])
  /\ (forall train_log,
        parse_log_history demo_history
        <> Ok (train_log, Some [demo_row], Some demo_final)).
Proof.
  split; [reflexivity|]. intros train_log E. vm_compute in E. discriminate E.
Qed.

(** C2 (amended).  For every history whose last record with an evaluation
    loss is not the first record: when a record holds the training runtime,
    the final result is [final_results] of that last record (the keys
    runtime, samples_per_second, steps_per_second, epoch and step left out
    after the eval_ prefix is stripped, the others humanized); when no record
    holds the training runtime, the parser returns no training log, no table,
    and that last record as it stands, keys unchanged.  When no record holds
    an evaluation loss there is no final result, and without a training
    runtime nothing at all is returned.  The keys of [final_results] of a
    record are the humanized names of its metric keys. *)
Theorem parse_log_history_final_result (log_history : list record) :
  (Forall no_eval_loss log_history ->
   exists train_log lines,
     parse_log_history log_history = Ok (train_log, lines, None)
     /\ (Forall no_train_runtime log_history ->
         train_log = None /\ lines = None))
  /\ (forall pre r post,
        log_history = pre ++ r :: post -> pre <> [] ->
        Dict.has "eval_loss" r = true -> Forall no_eval_loss post ->
        (Exists has_train_runtime log_history ->
         exists train_log lines,
           parse_log_history log_history
           = Ok (Some train_log, Some lines, Some (final_results r)))
        /\ (Forall no_train_runtime log_history ->
            parse_log_history log_history = Ok (None, None, Some r)))
  /\ (forall r name,
        In name (Dict.keys (final_results r)) <->
        exists key, In key (Dict.keys r) /\ spec_humanized_key key = Some name).
Proof.
  split; [|split; [|exact final_results_keys]].
  - intro HF. destruct (no_train_runtime_dec log_history) as [HT|HT].
    + exists None, None. split; [|intros _; split; reflexivity].
      rewrite (parse_log_history_eval_only _ HT).
      now rewrite eval_loss_loop_none.
    + destruct (parse_log_history_trained _ HT) as (t & lines & _ & ->).
      exists (Some t), (Some lines). split.
      * now rewrite eval_loss_loop_none.
      * intro HN. exfalso. apply Exists_exists in HT.
        destruct HT as (x & Hx & Hx'). rewrite Forall_forall in HN.
        specialize (HN x Hx). unfold no_train_runtime in HN. congruence.
  - intros pre r post E Hpre Hr HF.
    assert (Hpos : (Z.of_nat (length pre) >? 0) = true).
    { destruct pre; [congruence|]. simpl length. apply Z.gtb_lt. lia. }
    split.
    + intro HT. destruct (parse_log_history_trained _ HT) as (t & lines & _ & ->).
      exists t, lines. subst log_history.
      rewrite (eval_loss_loop_split _ _ _ Hr HF). simpl.
      rewrite Hpos. now rewrite list_index_middle.
    + intro HT. rewrite (parse_log_history_eval_only _ HT). subst log_history.
      rewrite (eval_loss_loop_split _ _ _ Hr HF). simpl.
      rewrite Hpos. now rewrite list_index_middle.
Qed.

Lemma parse_log_history_final_result_witness :
  (exists train_log lines,
     parse_log_history (demo_history ++ [demo_train_log])
     = Ok (Some train_log, Some lines, Some demo_final))
  /\ parse_log_history eval_only_history
     = Ok (None, None, List.nth_error eval_only_history 1).
Proof.
  split.
  - destruct (parse_log_history_final_result
                (demo_history ++ [demo_train_log])) as (_ & H & _).
    apply (H [ [("loss", VFloat 0.5)] ]
             [("eval_loss", VFloat 0.3); ("epoch", VInt 1); ("step", VInt 10)]
             [demo_train_log]).
    + reflexivity.
    + discriminate.
    + reflexivity.
    + repeat constructor.
    + right. right. left. reflexivity.
  - destruct (parse_log_history_final_result eval_only_history) as (_ & H & _).
    apply (H [ [("loss", VFloat 1.25); ("step", VInt 5)] ] _ []).
    + reflexivity.
    + discriminate.
    + reflexivity.
    + constructor.
    + repeat constructor.
Defined.

(** C2, as stated, fails: an evaluation-only history gets the last record
    as it stands, with its keys neither filtered nor humanized, where the
    claim promises the humanized metrics. *)
Lemma parse_log_history_eval_only_unprocessed :
  Forall no_train_runtime eval_only_history
  /\ parse_log_history eval_only_history
     = Ok (None, None,
           Some [("eval_loss", VFloat 0.75); ("eval_accuracy", VFloat 0.5);
                 ("eval_runtime", VFloat 3.5); ("epoch", VInt 1);
                 ("step", VInt 5)])
  /\ spec_final_eval_results eval_only_history
     = Some [("Loss", VFloat 0.75); ("Accuracy", VFloat 0.5)].
Proof.
  split; [repeat constructor|]. split; reflexivity.
Qed.

(** The test [idx > 0] after the backward loop passes over a last evaluation
    record that is the first record of the history. *)
Example parse_log_history_first_record :
  parse_log_history [ [("eval_loss", VFloat 0.3)] ] = Ok (None, None, None)
  /\ parse_log_history [ [("eval_loss", VFloat 0.3)]; demo_train_log ]
     = Ok (Some demo_train_log,
           Some [ [("Training Loss", VStr "No log"); ("Epoch", VNone);
                   ("Step", VNone); ("Validation Loss", VFloat 0.3)] ],
           None).
Proof. split; reflexivity. Qed.

(** The two parsers on histories without records.  On the empty history,
    and on every history without a record that holds an evaluation loss,
    [parse_log_history] returns without raising, with no final result and a
    table that is absent or empty.  [parse_keras_history] raises IndexError
    on the empty list of logs and on a History object without epochs;
    whenever it returns, its table has a row and the final result is the
    last row. *)
Lemma log_parsers_without_records :
  (forall log_history,
     Forall no_eval_loss log_history ->
     exists train_log lines,
       parse_log_history log_history = Ok (train_log, lines, None)
       /\ (lines = None \/ lines = Some []))
  /\ parse_log_history [] = Ok (None, None, None)
  /\ parse_keras_history (LogList []) = Raise IndexError
  /\ (forall history, parse_keras_history (History history []) = Raise IndexError)
  /\ (forall logs out lines eval_results,
        parse_keras_history logs = Ok (out, lines, eval_results) ->
        lines <> [] /\ list_index lines (-1) = Ok eval_results).
Proof.
  split; [|split; [reflexivity|split; [reflexivity|split]]].
  - intros log_history HF.
    destruct (no_train_runtime_dec log_history) as [HT|HT].
    + exists None, None. split; [|now left].
      rewrite (parse_log_history_eval_only _ HT).
      now rewrite eval_loss_loop_none.
    + destruct (parse_log_history_trained _ HT) as (t & lines & Hl & ->).
      exists (Some t), (Some lines). split.
      * now rewrite eval_loss_loop_none.
      * right. now rewrite (Hl HF).
  - intro history. unfold parse_keras_history. simpl.
    unfold Dict.index. now rewrite get_set_eq.
  - intros logs out lines eval_results. unfold parse_keras_history.
    destruct (match logs with History _ _ => _ | LogList _ => _ end)
      as [columns|e]; simpl; [|discriminate].
    destruct (Dict.index columns "epoch") as [epochs|e]; simpl; [|discriminate].
    destruct (mapM _ (range _)) as [ls|e]; simpl; [|discriminate].
    destruct (list_index ls (-1)) as [res|e] eqn:E; simpl; [|discriminate].
    intro Hok. injection Hok as <- <- <-. split; [|exact E].
    intros ->. discriminate E.
Qed.

Lemma log_parsers_without_records_witness :
  (exists train_log lines,
     parse_log_history [ [("loss", VFloat 0.5)]; demo_train_log ]
     = Ok (train_log, lines, None)
     /\ (lines = None \/ lines = Some []))
  /\ list_index [ [("Train Loss", VInt 1); ("Epoch", VInt 0)] ] (-1)
     = Ok [("Train Loss", VInt 1); ("Epoch", VInt 0)].
Proof.
  split.
  - apply (proj1 log_parsers_without_records). repeat constructor.
  - refine (proj2 (proj2 (proj2 (proj2 (proj2 log_parsers_without_records)))
                     (LogList [ [("loss", VInt 1); ("epoch", VInt 0)] ])
                     _ _ _ eq_refl)).
Defined.

(** C3.  The code at the failing input.  [parse_keras_history] raises
    IndexError on the empty list of logs (at [logs[0]]) and on a History
    object without epochs (at [lines[-1]]), where the specification asks
    for an empty result and no exception.  Its sibling [parse_log_history]
    does return one: on the empty history it gives (None, None, None). *)
Theorem parse_keras_history_empty_raises :
  parse_keras_history (LogList []) = Raise IndexError
  /\ (forall history,
        parse_keras_history (History history []) = Raise IndexError)
  /\ parse_log_history [] = Ok (None, None, None).
Proof.
  split; [reflexivity|]. split; [|reflexivity].
  intro history. unfold parse_keras_history. simpl.
  unfold Dict.index. now rewrite get_set_eq.
Qed.

(** ** Metric tags and the model index *)

Section ModelIndex.

Lemma mem_in (x : string) (l : list string) : Str.mem x l = true <-> In x l.
Proof.
  unfold Str.mem. rewrite existsb_exists. split.
  - intros (y & Hy & E). apply String.eqb_eq in E. now subst.
  - intro Hin. exists x. split; [exact Hin | apply String.eqb_refl].
Qed.

(** How [infer_metric_tags_from_eval_results] treats one display name. *)
Lemma metric_tag_of_name (key tag name : string) :
  (if Str.mem (Str.replace_char " " "_" (Str.lower key)) METRIC_TAGS
   then Some (Str.replace_char " " "_" (Str.lower key), key)
   else if String.eqb (Str.lower key) "rouge1" then Some ("rouge", key)
   else None) = Some (tag, name)
  <-> name = key /\ spec_recognized_as key tag.
Proof.
  unfold spec_recognized_as.
  destruct (Str.mem (Str.replace_char " " "_" (Str.lower key)) METRIC_TAGS)
    eqn:Hm.
  - apply mem_in in Hm. split.
    + intro E. injection E as <- <-. split; [reflexivity|]. left. now split.
    + intros (-> & [(<- & _)|(Hl & ->)]); [reflexivity|].
      rewrite Hl in Hm. vm_compute in Hm. intuition discriminate.
  - destruct (String.eqb (Str.lower key) "rouge1") eqn:Hr.
    + apply String.eqb_eq in Hr. split.
      * intro E. injection E as <- <-. split; [reflexivity|]. now right.
      * intros (-> & [(<- & Hin)|(_ & ->)]); [|reflexivity].
        apply mem_in in Hin. congruence.
    + apply String.eqb_neq in Hr. split; [discriminate|].
      intros (_ & [(<- & Hin)|(Hl & _)]); [|contradiction].
      apply mem_in in Hin. congruence.
Qed.

Lemma infer_metric_tags_as_assignments
  (eval_results : option (Dict.t string value)) :
  infer_metric_tags_from_eval_results eval_results =
  fold_left
    (fun d key =>
       match (if Str.mem (Str.replace_char " " "_" (Str.lower key)) METRIC_TAGS
              then Some (Str.replace_char " " "_" (Str.lower key), key)
              else if String.eqb (Str.lower key) "rouge1"
              then Some ("rouge", key)
              else None) with
       | Some (k, v) => Dict.set k v d
       | None => d
       end)
    (metric_names eval_results) [].
Proof.
  destruct eval_results as [d|]; [|reflexivity].
  unfold infer_metric_tags_from_eval_results, metric_names.
  apply fold_left_ext. intros s key.
  destruct (Str.mem (Str.replace_char " " "_" (Str.lower key)) METRIC_TAGS);
    [reflexivity|].
  destruct (String.eqb (Str.lower key) "rouge1"); reflexivity.
Qed.

(** C7.  [infer_metric_tags_from_eval_results] returns only keys of
    [METRIC_TAGS]; a tag is a key of the result exactly when some display
    name of the evaluation results is recognized as that tag (its lower-cased
    form with underscores for spaces is the tag and a metric tag, or its
    lower-cased form is rouge1 and the tag is rouge); and the value under a
    tag is a display name of the evaluation results recognized as that tag,
    so names that are not recognized give no entry. *)
Theorem infer_metric_tags_recognized
  (eval_results : option (Dict.t string value)) :
  (forall tag,
     In tag (Dict.keys (infer_metric_tags_from_eval_results eval_results)) ->
     In tag METRIC_TAGS)
  /\ (forall tag,
        In tag (Dict.keys (infer_metric_tags_from_eval_results eval_results))
        <-> exists name,
              In name (metric_names eval_results)
              /\ spec_recognized_as name tag)
  /\ (forall tag name,
        Dict.get tag (infer_metric_tags_from_eval_results eval_results)
        = Some name ->
        In name (metric_names eval_results) /\ spec_recognized_as name tag).
Proof.
  assert (Hkeys : forall tag,
            In tag (Dict.keys (infer_metric_tags_from_eval_results eval_results))
            <-> exists name,
                  In name (metric_names eval_results)
                  /\ spec_recognized_as name tag).
  { intro tag. rewrite <- has_in_keys, infer_metric_tags_as_assignments.
    rewrite fold_assign_has. split.
    - intros [Hh|(key & name & Hin & Hu)]; [discriminate|].
      apply metric_tag_of_name in Hu. destruct Hu as (_ & Hu).
      now exists key.
    - intros (key & Hin & Hr). right. exists key, key. split; [exact Hin|].
      now apply metric_tag_of_name. }
  split; [|split; [exact Hkeys|]].
  - intros tag Hin. apply Hkeys in Hin. destruct Hin as (name & _ & Hr).
    destruct Hr as [(_ & Hin)|(_ & ->)]; [exact Hin|].
    apply mem_in. reflexivity.
  - intros tag name Hg. rewrite infer_metric_tags_as_assignments in Hg.
    apply fold_assign_get in Hg. destruct Hg as [Hg|(key & Hin & Hu)];
      [discriminate|].
    apply metric_tag_of_name in Hu. destruct Hu as (-> & Hu). now split.
Qed.

Lemma infer_metric_tags_recognized_witness :
  In "Rouge1" (metric_names (Some [("Loss", VInt 1); ("Rouge1", VInt 2)]))
  /\ spec_recognized_as "Rouge1" "rouge".
Proof.
  apply (proj2 (proj2 (infer_metric_tags_recognized
                         (Some [("Loss", VInt 1); ("Rouge1", VInt 2)])))).
  reflexivity.
Defined.

Lemma map_fst_combine {A B : Type} (l1 : list A) (l2 : list B) :
  (length l1 <= length l2)%nat -> List.map fst (List.combine l1 l2) = l1.
Proof.
  revert l2. induction l1 as [|a l1 IH]; intros [|b l2] Hle; simpl in *;
    try reflexivity; try lia.
  f_equal. apply IH. lia.
Qed.

Lemma pad_dataset_args_length (dataset_args dataset_tags : list (option string)) :
  (length dataset_tags <= length (pad_dataset_args dataset_args dataset_tags))%nat.
Proof.
  unfold pad_dataset_args.
  destruct (Z.of_nat (length dataset_args) <? Z.of_nat (length dataset_tags))
    eqn:E.
  - rewrite length_app, repeat_length. apply Z.ltb_lt in E. lia.
  - apply Z.ltb_ge in E. lia.
Qed.

Lemma dataset_arg_mapping_has (dataset_tags dataset_args : list (option string))
  (tag : option string) :
  In tag dataset_tags ->
  Dict.has tag (dataset_arg_mapping_of dataset_tags dataset_args) = true.
Proof.
  intro Hin. unfold dataset_arg_mapping_of. apply of_pairs_has.
  now rewrite map_fst_combine by apply pad_dataset_args_length.
Qed.

Lemma combine_app_same {A B : Type} (l1 l2 : list A) (m1 m2 : list B) :
  length l1 = length m1 ->
  List.combine (l1 ++ l2) (m1 ++ m2)
  = List.combine l1 m1 ++ List.combine l2 m2.
Proof.
  revert m1. induction l1 as [|a l1 IH]; intros [|b m1] Hlen;
    simpl in *; try discriminate; [reflexivity|].
  f_equal. apply IH. now injection Hlen.
Qed.

Lemma nth_repeat_none {A : Type} (n k : nat) :
  nth n (List.repeat (@None A) k) None = None.
Proof.
  revert n. induction k as [|k IH]; intros [|n]; simpl; try reflexivity.
  apply IH.
Qed.

(** Padding changes no argument: the argument at a position is the given
    one, or None past the end of the given arguments. *)
Lemma nth_pad_dataset_args (dataset_args dataset_tags : list (option string))
  (n : nat) :
  nth n (pad_dataset_args dataset_args dataset_tags) None
  = nth n dataset_args None.
Proof.
  unfold pad_dataset_args. destruct (_ <? _); [|reflexivity].
  destruct (Nat.lt_ge_cases n (length dataset_args)) as [Hlt|Hge].
  - now apply app_nth1.
  - rewrite app_nth2 by exact Hge. rewrite nth_repeat_none.
    symmetry. now apply nth_overflow.
Qed.

Lemma of_pairs_last {K V : Type} `{EqKeyOk K} (p1 p2 : list (K * V))
  (k : K) (v : V) :
  ~ In k (List.map fst p2) ->
  Dict.get k (Dict.of_pairs (p1 ++ (k, v) :: p2)) = Some v.
Proof.
  intro Hno. unfold Dict.of_pairs. rewrite fold_left_app. cbn [fold_left fst snd].
  assert (Hkeep : forall d : Dict.t K V,
             Dict.get k d = Some v ->
             Dict.get k (fold_left (fun d kv => Dict.set (fst kv) (snd kv) d) p2 d)
             = Some v).
  { induction p2 as [|[k' v'] p2 IH]; intros d Hd; [exact Hd|].
    cbn [fold_left fst snd]. apply IH.
    - intro Hin. apply Hno. now right.
    - rewrite get_set_neq; [exact Hd|].
      intros ->. apply Hno. now left. }
  apply Hkeep, get_set_eq.
Qed.

(** The argument a tag is paired with: the one at its position, None when
    the arguments end before it.  Of a tag that occurs several times, the
    last occurrence counts, as in every dict comprehension. *)
Lemma dataset_arg_mapping_position
  (before after dataset_args : list (option string)) (tag : option string) :
  ~ In tag after ->
  Dict.get tag (dataset_arg_mapping_of (before ++ tag :: after) dataset_args)
  = Some (nth (length before) dataset_args None).
Proof.
  intro Hlast. unfold dataset_arg_mapping_of.
  pose proof (pad_dataset_args_length dataset_args (before ++ tag :: after))
    as Hlen.
  rewrite <- (nth_pad_dataset_args dataset_args (before ++ tag :: after)).
  set (padded := pad_dataset_args dataset_args (before ++ tag :: after)) in *.
  clearbody padded. rewrite length_app in Hlen. cbn [length] in Hlen.
  destruct (nth_split padded None (n := length before)) as (a1 & a2 & E & Ha1);
    [lia|].
  rewrite E at 1. rewrite combine_app_same by (now rewrite Ha1).
  cbn [List.combine]. apply of_pairs_last.
  intro Hin. apply Hlast. apply in_map_iff in Hin.
  destruct Hin as ([t a] & <- & Hin). now apply in_combine_l in Hin.
Qed.

(** C8.  The listified [dataset_args] is extended with [None] entries to
    be at least as long as the listified [dataset_tags]: it is the given
    arguments followed by None entries, as long as the longer of the two
    lists.  Zipped with it, every tag keeps its position, every tag is a key
    of the mapping from tags to arguments that [create_model_index] reads,
    and the argument the mapping holds for a tag is the one at the tag's
    position: the given argument there, and None where the given arguments
    end before that position (for a tag that occurs several times, the
    position of its last occurrence). *)
Theorem dataset_args_padded (dataset_args dataset_tags : option str_or_list) :
  (length (_listify dataset_tags)
   <= length (pad_dataset_args (_listify dataset_args) (_listify dataset_tags)))%nat
  /\ (exists n,
        pad_dataset_args (_listify dataset_args) (_listify dataset_tags)
        = _listify dataset_args ++ List.repeat None n)
  /\ List.map fst
       (List.combine (_listify dataset_tags)
          (pad_dataset_args (_listify dataset_args) (_listify dataset_tags)))
     = _listify dataset_tags
  /\ (forall tag,
        In tag (_listify dataset_tags) ->
        Dict.has tag (dataset_arg_mapping_of (_listify dataset_tags)
                                             (_listify dataset_args)) = true)
  /\ length (pad_dataset_args (_listify dataset_args) (_listify dataset_tags))
     = Nat.max (length (_listify dataset_args)) (length (_listify dataset_tags))
  /\ (forall before tag after,
        _listify dataset_tags = before ++ tag :: after ->
        ~ In tag after ->
        Dict.get tag (dataset_arg_mapping_of (_listify dataset_tags)
                                             (_listify dataset_args))
        = Some (nth (length before) (_listify dataset_args) None))
  /\ (forall tag arg,
        Dict.get tag (dataset_arg_mapping_of (_listify dataset_tags)
                                             (_listify dataset_args))
        = Some arg ->
        exists position,
          nth_error (_listify dataset_tags) position = Some tag
          /\ arg = nth position (_listify dataset_args) None).
Proof.
  split; [apply pad_dataset_args_length|]. split; [|split; [|split; [|split]]].
  - unfold pad_dataset_args.
    destruct (_ <? _); [eexists; reflexivity|].
    exists O. simpl. now rewrite app_nil_r.
  - apply map_fst_combine, pad_dataset_args_length.
  - intros tag. apply dataset_arg_mapping_has.
  - unfold pad_dataset_args.
    destruct (_ <? _) eqn:E.
    + apply Z.ltb_lt in E. rewrite length_app, repeat_length. lia.
    + apply Z.ltb_ge in E. lia.
  - split.
    + intros before tag after -> Hlast.
      now apply dataset_arg_mapping_position.
    + intros tag arg Hget.
      assert (Hin : In tag (_listify dataset_tags)).
      { assert (Hh : Dict.has tag (dataset_arg_mapping_of
                                     (_listify dataset_tags)
                                     (_listify dataset_args)) = true)
          by (unfold Dict.has; now rewrite Hget).
        unfold dataset_arg_mapping_of in Hh. apply of_pairs_has in Hh.
        rewrite map_fst_combine in Hh by apply pad_dataset_args_length.
        exact Hh. }
      assert (Hsplit : exists before after,
                 _listify dataset_tags = before ++ tag :: after
                 /\ ~ In tag after).
      { clear Hget. induction (_listify dataset_tags) as [|t l IH];
          [destruct Hin|].
        destruct (in_dec (fun x y => keqb_dec x y) tag l) as [Hl|Hl].
        - destruct (IH Hl) as (before & after & -> & Hno).
          now exists (t :: before), after.
        - destruct Hin as [->|Hin]; [|contradiction].
          now exists [], l. }
      destruct Hsplit as (before & after & E & Hno).
      exists (length before). split.
      * rewrite E, nth_error_app2 by lia. now rewrite Nat.sub_diag.
      * rewrite E in Hget.
        rewrite (dataset_arg_mapping_position before after _ tag Hno) in Hget.
        now injection Hget.
Qed.

Lemma dataset_args_padded_witness :
  Dict.get (Some "wmt16")
    (dataset_arg_mapping_of (_listify (Some (Many [Some "wmt16"; Some "x"])))
                            (_listify (Some (Single "ro-en"))))
  = Some (Some "ro-en")
  /\ Dict.get (Some "x")
       (dataset_arg_mapping_of (_listify (Some (Many [Some "wmt16"; Some "x"])))
                               (_listify (Some (Single "ro-en"))))
     = Some None.
Proof.
  pose proof (proj1 (proj2 (proj2 (proj2 (proj2 (proj2
                (dataset_args_padded (Some (Single "ro-en"))
                   (Some (Many [Some "wmt16"; Some "x"]))))))))) as Hpair.
  split.
  - apply (Hpair [] (Some "wmt16") [Some "x"] eq_refl).
    intros [E|[]]. discriminate E.
  - apply (Hpair [Some "wmt16"] (Some "x") [] eq_refl).
    intros [].
Defined.

Lemma task_mapping_unrecognized (tasks : option str_or_list) :
  Forall (fun task =>
            match task with
            | Some tag => Dict.has tag TASK_TAG_TO_NAME_MAPPING = false
            | None => True
            end) (_listify tasks) ->
  task_mapping_of tasks = [].
Proof.
  intro HF. unfold task_mapping_of. apply of_pairs_nil_iff.
  induction HF as [|task l Ht _ IH]; [reflexivity|]. cbn [flat_map].
  rewrite IH, app_nil_r. destruct task as [tag|]; [|reflexivity].
  unfold Dict.has in Ht.
  destruct (Dict.get tag TASK_TAG_TO_NAME_MAPPING); [discriminate | reflexivity].
Qed.

(** C9.  When no task of the summary is a key of the task names and the
    summary has no dataset tag, [create_model_index] returns the list whose
    only element holds the model name and an empty list of results (and
    logs nothing). *)
Theorem create_model_index_no_task_no_dataset
  (self : TrainingSummary) (metric_mapping : Dict.t string string) :
  Forall (fun task =>
            match task with
            | Some tag => Dict.has tag TASK_TAG_TO_NAME_MAPPING = false
            | None => True
            end) (_listify self.(tasks)) ->
  _listify self.(dataset_tags) = [] ->
  create_model_index self metric_mapping
  = Ok {| returned := [ {| index_name := self.(model_name);
                           index_results := [] |} ];
          logged := [] |}.
Proof.
  intros HT HD. unfold create_model_index, dataset_mapping_of.
  rewrite (task_mapping_unrecognized _ HT), HD. reflexivity.
Qed.

Lemma create_model_index_no_task_no_dataset_witness :
  create_model_index
    {| model_name := "m"; language := None; license := None; tags := None;
       finetuned_from := None; tasks := Some (Single "pretraining");
       dataset := Some (Single "corpus"); dataset_tags := None;
       dataset_args := None; eval_results := None; eval_lines := None;
       hyperparameters := None; source := Some "trainer" |}
    [("accuracy", "Accuracy")]
  = Ok {| returned := [ {| index_name := "m"; index_results := [] |} ];
          logged := [] |}.
Proof.
  apply create_model_index_no_task_no_dataset.
  - repeat constructor.
  - reflexivity.
Defined.

Lemma mapM_length {A B : Type} (f : A -> result B) (l : list A) :
  forall l', mapM f l = Ok l' -> length l' = length l.
Proof.
  induction l as [|a l IH]; simpl; intros l' E.
  - now injection E as <-.
  - destruct (f a) as [b|e]; simpl in E; [|discriminate].
    destruct (mapM f l) as [bs|e]; simpl in E; [|discriminate].
    injection E as <-. simpl. now rewrite (IH bs).
Qed.

Lemma mapM_ok {A B : Type} (f : A -> result B) (l : list A) :
  (forall a, In a l -> exists b, f a = Ok b) -> exists l', mapM f l = Ok l'.
Proof.
  induction l as [|a l IH]; intro Hf; simpl; [now exists []|].
  destruct (Hf a) as (b & ->); [now left|].
  destruct IH as (bs & ->); [intros; apply Hf; now right|].
  simpl. now eexists.
Qed.

(** The loop over the possibilities splits the results it builds into the
    complete ones, which it keeps, and the others, which it logs. *)
Lemma keep_or_drop_loop
  (build : option string * option string -> result result_entry)
  (l : list (option string * option string)) :
  forall results dropped results' dropped',
    foldM (keep_or_drop build) l (results, dropped) = Ok (results', dropped') ->
    exists built,
      Forall2 (fun p r => build p = Ok r) l built
      /\ results' = results ++ filter is_complete built
      /\ dropped' = dropped ++ filter (fun r => negb (is_complete r)) built.
Proof.
  induction l as [|p l IH]; intros results dropped results' dropped'; simpl.
  - intro E. injection E as <- <-. exists []. rewrite !app_nil_r.
    repeat split. constructor.
  - destruct (build p) as [r|e] eqn:Hb; simpl; [|discriminate].
    destruct (is_complete r) eqn:Hc; intro E;
      apply IH in E; destruct E as (built & HF & -> & ->);
      exists (r :: built); simpl; rewrite Hc; simpl;
      rewrite <- ?app_assoc; repeat split; try reflexivity;
      now constructor.
Qed.

Lemma keep_or_drop_loop_ok
  (build : option string * option string -> result result_entry)
  (l : list (option string * option string)) :
  (forall p, In p l -> exists r, build p = Ok r) ->
  forall st, exists st', foldM (keep_or_drop build) l st = Ok st'.
Proof.
  induction l as [|p l IH]; intros Hb [results dropped]; simpl;
    [now eexists|].
  destruct (Hb p) as (r & ->); [now left|]. simpl.
  destruct (is_complete r); apply IH; intros; apply Hb; now right.
Qed.

(** A result that holds metrics holds at least one. *)
Lemma build_result_metrics (self : TrainingSummary)
  (metric_mapping : Dict.t string string)
  (tm dm dam : Dict.t (option string) (option string))
  (task_tag ds_tag : option string) (r : result_entry) :
  build_result self metric_mapping tm dm dam task_tag ds_tag = Ok r ->
  forall ms, r.(r_metrics) = Some ms -> ms <> [].
Proof.
  unfold build_result.
  destruct (match task_tag with Some _ => _ | None => _ end) as [t|e];
    simpl; [|discriminate].
  destruct (match ds_tag with Some _ => _ | None => _ end) as [d|e];
    simpl; [|discriminate].
  destruct (Z.of_nat (length metric_mapping) >? 0) eqn:Hlen.
  - destruct (mapM _ metric_mapping) as [l|e] eqn:Hl; simpl; [|discriminate].
    intro E. injection E as <-. simpl. intros ms Hms. injection Hms as <-.
    apply mapM_length in Hl. apply Z.gtb_lt in Hlen.
    intros ->. simpl in Hl. lia.
  - simpl. intro E. injection E as <-. simpl. discriminate.
Qed.

Lemma is_complete_fields (r : result_entry) :
  is_complete r = true <->
  exists t d ms,
    r.(r_task) = Some t /\ r.(r_dataset) = Some d /\ r.(r_metrics) = Some ms.
Proof.
  unfold is_complete.
  destruct (r_task r) as [t|], (r_dataset r) as [d|], (r_metrics r) as [ms|];
    split; try discriminate; try (intros (? & ? & ? & ? & ? & ?); discriminate).
  - intros _. now exists t, d, ms.
  - reflexivity.
Qed.

Lemma in_all_possibilities
  (tm dm : Dict.t (option string) (option string)) (p : option string * option string) :
  In p (all_possibilities tm dm) <->
  In (fst p) (Dict.keys tm) /\ In (snd p) (Dict.keys dm).
Proof.
  unfold all_possibilities. rewrite in_flat_map. split.
  - intros (t & Ht & Hp). apply in_map_iff in Hp.
    destruct Hp as (d & <- & Hd). now split.
  - intros (Ht & Hd). exists (fst p). split; [exact Ht|].
    apply in_map_iff. exists (snd p). split; [now destruct p | exact Hd].
Qed.

Lemma or_none_some_key (m : Dict.t (option string) (option string))
  (tag : string) :
  In (Some tag) (Dict.keys (or_none m)) -> In (Some tag) (Dict.keys m).
Proof.
  unfold or_none. destruct (Z.of_nat (length m) =? 0); [|trivial].
  simpl. intros [E|[]]. discriminate.
Qed.

Lemma index_present {K V : Type} `{EqKeyOk K} (d : Dict.t K V) (k : K) :
  In k (Dict.keys d) -> exists v, Dict.index d k = Ok v.
Proof.
  intro Hin. apply has_in_keys in Hin. unfold Dict.has in Hin.
  unfold Dict.index. destruct (Dict.get k d) as [v|]; [now exists v | discriminate].
Qed.

(** Every possibility gives a result when the metrics can be read. *)
Lemma possibility_result_ok (self : TrainingSummary)
  (metric_mapping : Dict.t string string)
  (p : option string * option string) :
  (forall tag name, In (tag, name) metric_mapping ->
                    exists v, eval_result_of self name = Ok v) ->
  In p (all_possibilities (or_none (task_mapping_of self.(tasks)))
                          (or_none (dataset_mapping_of self))) ->
  exists r, possibility_result self metric_mapping p = Ok r.
Proof.
  intros Hm Hp. apply in_all_possibilities in Hp. destruct Hp as (Ht & Hd).
  unfold possibility_result, build_result.
  destruct p as [task_tag ds_tag]. simpl in *.
  assert (Htask : exists t,
            match task_tag with
            | Some tag =>
                name <- Dict.index (or_none (task_mapping_of self.(tasks))) task_tag ;;
                Ok (Some {| task_name := name; task_type := tag |})
            | None => Ok None
            end = Ok t).
  { destruct task_tag as [tag|]; [|now eexists].
    destruct (index_present _ _ Ht) as (name & ->). simpl. now eexists. }
  destruct Htask as (t & ->). simpl.
  assert (Hds : exists d,
            match ds_tag with
            | Some tag =>
                name <- Dict.index (or_none (dataset_mapping_of self)) ds_tag ;;
                arg <- Dict.index
                         (dataset_arg_mapping_of (_listify self.(dataset_tags))
                                                 (_listify self.(dataset_args)))
                         ds_tag ;;
                Ok (Some {| ds_name := name; ds_type := tag; ds_args := arg |})
            | None => Ok None
            end = Ok d).
  { destruct ds_tag as [tag|]; [|now eexists].
    destruct (index_present _ _ Hd) as (name & ->). simpl.
    apply or_none_some_key in Hd. apply has_in_keys in Hd.
    unfold dataset_mapping_of in Hd. apply of_pairs_has in Hd.
    assert (Hin : In (Some tag) (_listify self.(dataset_tags))).
    { apply in_map_iff in Hd. destruct Hd as ((a & b) & E & Hin).
      simpl in E. subst a. now apply in_combine_l in Hin. }
    apply (dataset_arg_mapping_has _ (_listify self.(dataset_args))) in Hin.
    apply has_in_keys in Hin.
    destruct (index_present _ _ Hin) as (arg & ->). simpl. now eexists. }
  destruct Hds as (d & ->). simpl.
  destruct (Z.of_nat (length metric_mapping) >? 0); simpl; [|now eexists].
  destruct (mapM_ok
              (fun kv : string * string =>
                 let '(metric_tag, metric_name) := kv in
                 v <- eval_result_of self metric_name ;;
                 Ok {| metric_name := metric_name; metric_type := metric_tag;
                       metric_value := v |})
              metric_mapping) as (l & ->).
  { intros [tag name] Hin. destruct (Hm tag name Hin) as (v & ->).
    simpl. now eexists. }
  simpl. now eexists.
Qed.

(** The metrics inferred from the evaluation results can be read back. *)
Lemma inferred_metrics_readable (self : TrainingSummary) (tag name : string) :
  In (tag, name) (infer_metric_tags_from_eval_results self.(eval_results)) ->
  exists v, eval_result_of self name = Ok v.
Proof.
  rewrite infer_metric_tags_as_assignments. intro Hin.
  apply fold_assign_in in Hin. destruct Hin as [[]|(key & Hin & Hu)].
  apply metric_tag_of_name in Hu. destruct Hu as (-> & _).
  unfold eval_result_of, metric_names in *.
  destruct self.(eval_results) as [d|]; [|contradiction].
  now apply index_present.
Qed.

Lemma create_model_index_total (self : TrainingSummary)
  (metric_mapping : Dict.t string string) :
  (forall tag name, In (tag, name) metric_mapping ->
                    exists v, eval_result_of self name = Ok v) ->
  exists out, create_model_index self metric_mapping = Ok out.
Proof.
  intro Hm. unfold create_model_index.
  destruct (_ && _); [now eexists|].
  destruct (keep_or_drop_loop_ok
              (possibility_result self metric_mapping)
              (all_possibilities (or_none (task_mapping_of self.(tasks)))
                                 (or_none (dataset_mapping_of self))))
    with (st := (@nil result_entry, @nil result_entry))
    as ([results dropped] & ->).
  - intros p Hp. now apply possibility_result_ok.
  - simpl. now eexists.
Qed.

(** What [create_model_index] returns, in terms of the results it built. *)
Lemma create_model_index_built (self : TrainingSummary)
  (metric_mapping : Dict.t string string) (out : indexed) :
  create_model_index self metric_mapping = Ok out ->
  exists built,
    ((task_mapping_of self.(tasks) = [] /\ dataset_mapping_of self = []
      /\ built = [])
     \/ Forall2 (fun p r => possibility_result self metric_mapping p = Ok r)
          (all_possibilities (or_none (task_mapping_of self.(tasks)))
                             (or_none (dataset_mapping_of self)))
          built)
    /\ out.(returned)
       = [ {| index_name := self.(model_name);
              index_results := filter is_complete built |} ]
    /\ out.(logged) = filter (fun r => negb (is_complete r)) built.
Proof.
  unfold create_model_index.
  destruct (_ && _) eqn:Hboth.
  - intro E. injection E as <-. exists []. split; [|split; reflexivity].
    left. apply andb_prop in Hboth. destruct Hboth as (Ht & Hd).
    apply Z.eqb_eq in Ht, Hd.
    split; [apply length_zero_iff_nil; lia|].
    split; [apply length_zero_iff_nil; lia | reflexivity].
  - destruct (foldM _ _ _) as [[results dropped]|e] eqn:Hloop; simpl;
      [|discriminate].
    intro E. injection E as <-.
    apply keep_or_drop_loop in Hloop. destruct Hloop as (built & HF & -> & ->).
    exists built. split; [now right|]. split; reflexivity.
Qed.

(** C5.  Whenever [create_model_index] returns, it has built one result per
    enumerated (task tag, dataset tag) possibility; the results list of the
    model index holds exactly the built results that have a task, a dataset
    and metrics, in order, and each of them has a non-empty metrics list;
    every other built result is logged and dropped, so a result without a
    non-empty metrics list is never kept.  With the metric mapping inferred
    from the evaluation results, as [create_metadata] calls it, it returns
    and raises nothing. *)
Theorem create_model_index_filter (self : TrainingSummary)
  (metric_mapping : Dict.t string string) :
  (forall out,
     create_model_index self metric_mapping = Ok out ->
     exists results built,
       out.(returned)
       = [ {| index_name := self.(model_name); index_results := results |} ]
       /\ ((task_mapping_of self.(tasks) = [] /\ dataset_mapping_of self = []
            /\ built = [])
           \/ Forall2
                (fun p r => possibility_result self metric_mapping p = Ok r)
                (all_possibilities (or_none (task_mapping_of self.(tasks)))
                                   (or_none (dataset_mapping_of self)))
                built)
       /\ results = filter is_complete built
       /\ out.(logged) = filter (fun r => negb (is_complete r)) built
       /\ Forall (fun r =>
                    exists t d ms,
                      r.(r_task) = Some t /\ r.(r_dataset) = Some d
                      /\ r.(r_metrics) = Some ms /\ ms <> [])
                 results
       /\ (forall r, In r built ->
                     match r.(r_metrics) with
                     | Some (_ :: _) => False
                     | _ => True
                     end ->
                     ~ In r results /\ In r out.(logged)))
  /\ (exists out,
        create_model_index self
          (infer_metric_tags_from_eval_results self.(eval_results)) = Ok out).
Proof.
  split; [|apply create_model_index_total, inferred_metrics_readable].
  intros out Hout.
  destruct (create_model_index_built _ _ _ Hout) as (built & Hb & Hr & Hl).
  exists (filter is_complete built), built.
  split; [exact Hr|]. split; [exact Hb|]. split; [reflexivity|].
  split; [exact Hl|].
  assert (Hmetrics : forall r, In r built ->
                     forall ms, r.(r_metrics) = Some ms -> ms <> []).
  { intros r Hin. destruct Hb as [(_ & _ & ->)|HF]; [contradiction|].
    clear - HF Hin. induction HF as [|p r' ps rs Hp _ IH]; [contradiction|].
    destruct Hin as [->|Hin]; [|now apply IH].
    unfold possibility_result in Hp.
    exact (build_result_metrics _ _ _ _ _ _ _ _ Hp). }
  split.
  - apply Forall_forall. intros r Hin. apply filter_In in Hin.
    destruct Hin as (Hin & Hc). apply is_complete_fields in Hc.
    destruct Hc as (t & d & ms & Ht & Hd & Hms).
    exists t, d, ms. repeat split; try assumption.
    now apply (Hmetrics r Hin).
  - intros r Hin Hnone.
    assert (Hc : is_complete r = false).
    { destruct (is_complete r) eqn:Hc; [|reflexivity].
      apply is_complete_fields in Hc. destruct Hc as (t & d & ms & _ & _ & Hms).
      rewrite Hms in Hnone. destruct ms; [|contradiction].
      now destruct (Hmetrics r Hin [] Hms). }
    split.
    + intro Hk. apply filter_In in Hk. destruct Hk as (_ & Hk). congruence.
    + rewrite Hl. apply filter_In. split; [exact Hin | now rewrite Hc].
Qed.

Lemma create_model_index_filter_witness :
  exists results built,
    [ {| index_name := "m"; index_results := [] |} ]
    = [ {| index_name := translation_summary.(model_name);
           index_results := results |} ]
    /\ ((task_mapping_of translation_summary.(tasks) = []
         /\ dataset_mapping_of translation_summary = [] /\ built = [])
        \/ Forall2
             (fun p r => possibility_result translation_summary [] p = Ok r)
             (all_possibilities
                (or_none (task_mapping_of translation_summary.(tasks)))
                (or_none (dataset_mapping_of translation_summary)))
             built)
    /\ results = filter is_complete built
    /\ length (filter (fun r => negb (is_complete r)) built) = 2%nat.
Proof.
  destruct (proj1 (create_model_index_filter translation_summary [])
              _ eq_refl)
    as (results & built & Hr & Hb & Hres & Hl & _).
  exists results, built. repeat split; try assumption.
  simpl in Hl. now rewrite <- Hl.
Defined.

End ModelIndex.

(** ** The metadata and the model card *)

Section ModelCard.

Variable str_float : float -> string.
Variable format_float : Z -> float -> string.
Variable yaml_dump : metadata_map -> string.

Lemma append_assoc (a b c : string) : (a +++ b) +++ c = a +++ (b +++ c).
Proof. induction a as [|x a IH]; simpl; [reflexivity | now rewrite IH]. Qed.

Lemma starts_with_refl (p : string) : starts_with p p.
Proof.
  exists "". induction p as [|x p IH]; simpl; [reflexivity | now rewrite <- IH].
Qed.

Lemma starts_with_append (p s x : string) :
  starts_with p s -> starts_with p (s +++ x).
Proof.
  intros (rest & ->). exists (rest +++ x). apply append_assoc.
Qed.

Lemma Forall2_in_r {A B : Type} (P : A -> B -> Prop) (l : list A)
  (l' : list B) :
  Forall2 P l l' -> forall b, In b l' -> exists a, In a l /\ P a b.
Proof.
  induction 1 as [|a b l l' Hab _ IH]; intros b' Hin; [contradiction|].
  destruct Hin as [->|Hin].
  - exists a. split; [now left | exact Hab].
  - destruct (IH b' Hin) as (a' & Ha & HP). exists a'. split; [now right | exact HP].
Qed.

(** A result built for a possibility without a dataset tag has no dataset. *)
Lemma possibility_result_no_dataset (self : TrainingSummary)
  (metric_mapping : Dict.t string string) (task_tag : option string)
  (r : result_entry) :
  possibility_result self metric_mapping (task_tag, None) = Ok r ->
  is_complete r = false.
Proof.
  unfold possibility_result, build_result. simpl.
  destruct (match task_tag with Some _ => _ | None => _ end) as [t|e];
    simpl; [|discriminate].
  destruct (if _ >? 0 then _ else _) as [ms|e]; simpl; [|discriminate].
  intro E. injection E as <-. unfold is_complete. simpl. now destruct t.
Qed.

Lemma create_model_index_no_dataset_tags (self : TrainingSummary)
  (metric_mapping : Dict.t string string) (out : indexed) :
  _listify self.(dataset_tags) = [] ->
  create_model_index self metric_mapping = Ok out ->
  out.(returned)
  = [ {| index_name := self.(model_name); index_results := [] |} ].
Proof.
  intros Htags Hout.
  destruct (create_model_index_built _ _ _ Hout) as (built & Hb & -> & _).
  do 3 f_equal.
  destruct Hb as [(_ & _ & ->)|HF]; [reflexivity|].
  assert (Hd : dataset_mapping_of self = [])
    by (unfold dataset_mapping_of; now rewrite Htags).
  rewrite Hd in HF.
  assert (Hall : Forall (fun r => is_complete r = false) built).
  { apply Forall_forall. intros r Hin.
    destruct (Forall2_in_r _ _ _ HF r Hin) as ((task_tag & ds_tag) & Hp & Hr).
    apply in_all_possibilities in Hp. simpl in Hp.
    destruct Hp as (_ & [<-|[]]).
    now apply possibility_result_no_dataset in Hr. }
  clear - Hall. induction Hall as [|r l Hr _ IH]; simpl; [reflexivity|].
  now rewrite Hr.
Qed.

Lemma create_metadata_total (self : TrainingSummary) :
  exists out,
    create_model_index self
      (infer_metric_tags_from_eval_results self.(eval_results)) = Ok out
    /\ create_metadata self
       = Ok (Dict.set "model-index" (MetaModelIndex out.(returned))
               (_insert_values_as_list
                  (_insert_values_as_list
                     (_insert_values_as_list
                        (_insert_values_as_list [] "language" self.(language))
                        "tags" self.(tags))
                     "datasets" self.(dataset_tags))
                  "metrics"
                  (Some (Many (List.map Some
                     (Dict.keys (infer_metric_tags_from_eval_results
                                   self.(eval_results)))))))).
Proof.
  destruct (create_model_index_total self
              (infer_metric_tags_from_eval_results self.(eval_results))
              (inferred_metrics_readable self)) as (out & Hout).
  exists out. split; [exact Hout|].
  unfold create_metadata. now rewrite Hout.
Qed.

(** The card starts with the metadata block. *)
Lemma to_model_card_starts_with_block (libs : libraries)
  (self : TrainingSummary) (card : string) :
  to_model_card str_float format_float yaml_dump libs self = Ok card ->
  exists block,
    metadata_block yaml_dump self = Ok block /\ starts_with block card.
Proof.
  unfold to_model_card.
  destruct (metadata_block yaml_dump self) as [block|e]; [|discriminate].
  cbn [bind]. cbv zeta.
  destruct (dataset_sentence self) as [sentence|e]; [|discriminate].
  cbn [bind].
  destruct (match eval_lines self with Some _ => _ | None => _ end)
    as [body|e] eqn:Hbody; [|discriminate].
  cbn [bind]. intro E. injection E as <-.
  exists block. split; [reflexivity|].
  assert (Hb : starts_with block body).
  { destruct (eval_lines self).
    - destruct (make_markdown_table _ _ _) as [table|e]; [|discriminate].
      cbn [bind] in Hbody. injection Hbody as <-.
      repeat first
        [ apply starts_with_refl
        | apply starts_with_append
        | match goal with
          | |- starts_with _ (match ?x with _ => _ end) => destruct x
          end ].
    - injection Hbody as <-.
      repeat first
        [ apply starts_with_refl
        | apply starts_with_append
        | match goal with
          | |- starts_with _ (match ?x with _ => _ end) => destruct x
          end ]. }
  repeat first
    [ exact Hb
    | apply starts_with_append
    | match goal with
      | |- starts_with _ (match ?x with _ => _ end) => destruct x
      end ].
Qed.

(** C4 (amended).  The metadata of every summary holds the key model-index,
    so the mapping is never empty, and the model card starts with the
    metadata block, which is the serialized mapping between two "---" lines
    unless the serializer returns the empty text.  For a summary without
    language, tags and dataset tags whose evaluation results yield no metric
    tag, the mapping is exactly {model-index: [{name, results: []}]}. *)
Theorem metadata_block_of_summary (libs : libraries) (self : TrainingSummary) :
  (exists metadata,
     create_metadata self = Ok metadata
     /\ Dict.has "model-index" metadata = true
     /\ metadata_block yaml_dump self
        = Ok (if Str.len (yaml_dump metadata) >? 0
              then "---" +++ Str.nl +++ yaml_dump metadata +++ "---" +++ Str.nl
              else "")
     /\ (forall card,
           to_model_card str_float format_float yaml_dump libs self = Ok card ->
           exists block,
             metadata_block yaml_dump self = Ok block
             /\ starts_with block card))
  /\ (self.(language) = None -> self.(tags) = None ->
      self.(dataset_tags) = None ->
      infer_metric_tags_from_eval_results self.(eval_results) = [] ->
      create_metadata self
      = Ok [ ("model-index",
              MetaModelIndex [ {| index_name := self.(model_name);
                                  index_results := [] |} ]) ]).
Proof.
  destruct (create_metadata_total self) as (out & Hout & Hm).
  split.
  - eexists. split; [exact Hm|]. split; [apply has_set; now left|].
    split; [|apply to_model_card_starts_with_block].
    unfold metadata_block. rewrite Hm. cbn [bind].
    now destruct (Str.len _ >? 0).
  - intros Hl Ht Hd Hi. rewrite Hm, Hl, Ht, Hd, Hi.
    rewrite (create_model_index_no_dataset_tags self _ out
               ltac:(now rewrite Hd) Hout).
    reflexivity.
Qed.

End ModelCard.

(** The sentence on the data: no dataset, one dataset, several datasets;
    an empty list of datasets raises. *)
Lemma dataset_sentence_spec (self : TrainingSummary) :
  (self.(dataset) = None ->
   dataset_sentence self = Ok "an unknown dataset.")
  /\ (forall s, self.(dataset) = Some (Single s) ->
                dataset_sentence self = Ok ("the " +++ s +++ " dataset."))
  /\ (forall s, self.(dataset) = Some (Many [Some s]) ->
                dataset_sentence self = Ok ("the " +++ s +++ " dataset."))
  /\ (forall a b, self.(dataset) = Some (Many [Some a; Some b]) ->
                  dataset_sentence self
                  = Ok ("the " +++ a +++ " and the " +++ b +++ " datasets."))
  /\ (self.(dataset) = Some (Many []) ->
      dataset_sentence self = Raise IndexError).
Proof.
  unfold dataset_sentence.
  repeat split; intros; repeat match goal with H : _ = _ |- _ => rewrite H end;
    reflexivity.
Qed.

(** [_listify] and [_insert_values_as_list]: an absent value gives the empty
    list and leaves the metadata untouched, and so does a list of absent
    entries; a string counts as a list of one. *)
Lemma listify_and_insert (metadata : metadata_map) (name : string) :
  _listify None = []
  /\ (forall s, _listify (Some (Single s)) = [Some s])
  /\ (forall l, _listify (Some (Many l)) = l)
  /\ _insert_values_as_list metadata name None = metadata
  /\ (forall l, Forall (fun v => v = None) l ->
                _insert_values_as_list metadata name (Some (Many l)) = metadata)
  /\ (forall s, _insert_values_as_list metadata name (Some (Single s))
                = Dict.set name (MetaList [s]) metadata).
Proof.
  repeat split; try reflexivity.
  intros l HF. unfold _insert_values_as_list.
  replace (flat_map _ l) with (@nil string); [reflexivity|].
  induction HF as [|v l -> _ IH]; simpl; [reflexivity | exact IH].
Qed.

Lemma metadata_block_of_summary_witness :
  create_metadata (bare_summary "m")
  = Ok [ ("model-index",
          MetaModelIndex [ {| index_name := "m"; index_results := [] |} ]) ].
Proof.
  apply (proj2 (metadata_block_of_summary
                  demo_str_float demo_format_float PlainYaml.dump
                  {| torch_version := None; tensorflow_version := None;
                     datasets_version := None; tokenizers_version := None |}
                  (bare_summary "m")));
    reflexivity.
Defined.

(** C4, as stated, fails: a summary that only names its model has no
    language, tags, dataset tags or metric tags, and its metadata still holds
    the model index, so the card starts with a block between delimiters. *)
Lemma metadata_block_bare_summary :
  (bare_summary "m").(language) = None
  /\ (bare_summary "m").(tags) = None
  /\ (bare_summary "m").(dataset_tags) = None
  /\ infer_metric_tags_from_eval_results (bare_summary "m").(eval_results) = []
  /\ create_metadata (bare_summary "m")
     = Ok [ ("model-index",
             MetaModelIndex [ {| index_name := "m"; index_results := [] |} ]) ]
  /\ metadata_block PlainYaml.dump (bare_summary "m")
     = Ok ("---" +++ Str.nl +++ "model-index:" +++ Str.nl
           +++ "- name: m" +++ Str.nl +++ "  results: []" +++ Str.nl
           +++ "---" +++ Str.nl)
  /\ (forall yaml_dump : metadata_map -> string,
        metadata_block yaml_dump (bare_summary "m") = Ok "" ->
        yaml_dump [ ("model-index",
                     MetaModelIndex [ {| index_name := "m";
                                         index_results := [] |} ]) ] = "").
Proof.
  repeat (split; [reflexivity|]).
  intros yaml_dump. unfold metadata_block. cbn [bind create_metadata].
  change (create_metadata (bare_summary "m"))
    with (@Ok metadata_map
            [ ("model-index",
               MetaModelIndex [ {| index_name := "m"; index_results := [] |} ]) ]).
  cbn [bind].
  destruct (yaml_dump _) as [|c s]; [reflexivity|].
  unfold Str.len. simpl. discriminate.
Qed.

(** ** Hyperparameters *)

Section Hyperparameters.

Variable str_float : float -> string.

Lemma get_set_if_neq (c : bool) (k k' : string) (v : value)
  (d : Dict.t string value) :
  k <> k' -> Dict.get k (set_if c k' v d) = Dict.get k d.
Proof.
  intro Hne. unfold set_if. destruct c; [|reflexivity].
  now apply get_set_neq.
Qed.

Lemma get_set_if_eq (c : bool) (k : string) (v : value)
  (d : Dict.t string value) :
  Dict.get k (set_if c k v d) = if c then Some v else Dict.get k d.
Proof.
  unfold set_if. destruct c; [|reflexivity]. apply get_set_eq.
Qed.

(** Peels the assignments to other keys off a lookup. *)
Ltac peel :=
  repeat first
    [ rewrite get_set_if_neq by discriminate
    | rewrite get_set_neq by discriminate
    | match goal with
      | |- context [Dict.get _ (if ?c then _ else _)] => destruct c
      | |- context [Dict.get _ (match ?m with
                                | NOT_PARALLEL => _
                                | NOT_DISTRIBUTED => _
                                | DISTRIBUTED => _
                                | OTHER_MODE _ => _
                                end)] => destruct m
      end ].

Lemma total_train_batch_size_entry (trainer : Trainer) :
  Dict.get "total_train_batch_size"
    (extract_hyperparameters_from_trainer str_float trainer)
  = if trainer.(args).(train_batch_size) * trainer.(args).(world_size)
       * trainer.(args).(gradient_accumulation_steps)
       =? trainer.(args).(train_batch_size)
    then None
    else Some (VInt (trainer.(args).(train_batch_size)
                     * trainer.(args).(world_size)
                     * trainer.(args).(gradient_accumulation_steps))).
Proof.
  unfold extract_hyperparameters_from_trainer. cbv zeta.
  assert (Hd : forall hp n,
            Dict.get "train_batch_size" hp
            = Some (VInt trainer.(args).(train_batch_size)) ->
            Dict.get "total_train_batch_size" hp = None ->
            Dict.get "total_train_batch_size"
              (set_if (differs n hp "train_batch_size")
                 "total_train_batch_size" (VInt n) hp)
            = if n =? trainer.(args).(train_batch_size) then None
              else Some (VInt n)).
  { intros hp n H1 H2. rewrite get_set_if_eq. unfold differs. rewrite H1, H2.
    now destruct (n =? _). }
  peel; try (rewrite Hd; [reflexivity | peel; reflexivity | peel; reflexivity]).
Qed.

Lemma total_eval_batch_size_entry (trainer : Trainer) :
  Dict.get "total_eval_batch_size"
    (extract_hyperparameters_from_trainer str_float trainer)
  = if trainer.(args).(eval_batch_size) * trainer.(args).(world_size)
       =? trainer.(args).(eval_batch_size)
    then None
    else Some (VInt (trainer.(args).(eval_batch_size)
                     * trainer.(args).(world_size))).
Proof.
  unfold extract_hyperparameters_from_trainer. cbv zeta.
  assert (Hd : forall hp n,
            Dict.get "eval_batch_size" hp
            = Some (VInt trainer.(args).(eval_batch_size)) ->
            Dict.get "total_eval_batch_size" hp = None ->
            Dict.get "total_eval_batch_size"
              (set_if (differs n hp "eval_batch_size")
                 "total_eval_batch_size" (VInt n) hp)
            = if n =? trainer.(args).(eval_batch_size) then None
              else Some (VInt n)).
  { intros hp n H1 H2. rewrite get_set_if_eq. unfold differs. rewrite H1, H2.
    now destruct (n =? _). }
  peel; try (rewrite Hd; [reflexivity | peel; reflexivity | peel; reflexivity]).
Qed.

(** C6.  The key total_train_batch_size is in the hyperparameters only when
    [world_size * gradient_accumulation_steps] is not 1, and
    total_eval_batch_size only when [world_size] is not 1; when the product
    is 1 the total is the per-device value and the key is left out. *)
Theorem total_batch_size_keys (trainer : Trainer) :
  (Dict.has "total_train_batch_size"
     (extract_hyperparameters_from_trainer str_float trainer) = true ->
   trainer.(args).(world_size) * trainer.(args).(gradient_accumulation_steps)
   <> 1)
  /\ (Dict.has "total_eval_batch_size"
        (extract_hyperparameters_from_trainer str_float trainer) = true ->
      trainer.(args).(world_size) <> 1)
  /\ (trainer.(args).(world_size) * trainer.(args).(gradient_accumulation_steps)
      = 1 ->
      trainer.(args).(train_batch_size) * trainer.(args).(world_size)
      * trainer.(args).(gradient_accumulation_steps)
      = trainer.(args).(train_batch_size)
      /\ Dict.has "total_train_batch_size"
           (extract_hyperparameters_from_trainer str_float trainer) = false)
  /\ (trainer.(args).(world_size) = 1 ->
      trainer.(args).(eval_batch_size) * trainer.(args).(world_size)
      = trainer.(args).(eval_batch_size)
      /\ Dict.has "total_eval_batch_size"
           (extract_hyperparameters_from_trainer str_float trainer) = false).
Proof.
  unfold Dict.has.
  rewrite total_train_batch_size_entry, total_eval_batch_size_entry.
  split; [|split; [|split]].
  - destruct (_ =? _) eqn:E; [discriminate|]. apply Z.eqb_neq in E.
    intros _ Hone. apply E. rewrite <- Z.mul_assoc, Hone. lia.
  - destruct (_ =? _) eqn:E; [discriminate|]. apply Z.eqb_neq in E.
    intros _ Hone. apply E. rewrite Hone. lia.
  - intro Hone.
    assert (Htotal : trainer.(args).(train_batch_size)
                     * trainer.(args).(world_size)
                     * trainer.(args).(gradient_accumulation_steps)
                     = trainer.(args).(train_batch_size))
      by (rewrite <- Z.mul_assoc, Hone; lia).
    split; [exact Htotal|]. now rewrite Htotal, Z.eqb_refl.
  - intro Hone.
    assert (Htotal : trainer.(args).(eval_batch_size)
                     * trainer.(args).(world_size)
                     = trainer.(args).(eval_batch_size))
      by (rewrite Hone; lia).
    split; [exact Htotal|]. now rewrite Htotal, Z.eqb_refl.
Qed.

End Hyperparameters.

Lemma total_batch_size_keys_witness :
  Dict.has "total_train_batch_size"
    (extract_hyperparameters_from_trainer demo_str_float two_device_trainer)
  = true
  /\ two_device_trainer.(args).(world_size)
     * two_device_trainer.(args).(gradient_accumulation_steps) <> 1.
Proof.
  split; [reflexivity|].
  apply (proj1 (total_batch_size_keys demo_str_float two_device_trainer)).
  reflexivity.
Defined.

(** ** The markdown table *)

Section MarkdownTable.

Variable str_float : float -> string.
Variable format_float : Z -> float -> string.

Lemma set_pairs_nodup {V : Type} (pairs d : Dict.t string V) :
  NoDup (Dict.keys d ++ List.map fst pairs) ->
  fold_left (fun d kv => Dict.set (fst kv) (snd kv) d) pairs d = d ++ pairs.
Proof.
  revert d. induction pairs as [|[k v] pairs IH]; intros d Hnd; simpl.
  - now rewrite app_nil_r.
  - simpl in Hnd. rewrite set_absent.
    + rewrite IH.
      * now rewrite <- app_assoc.
      * unfold Dict.keys in *. rewrite map_app, <- app_assoc. exact Hnd.
    + destruct (Dict.has k d) eqn:Hh; [|reflexivity].
      apply has_in_keys in Hh. apply NoDup_remove_2 in Hnd.
      exfalso. apply Hnd. apply in_or_app. now left.
Qed.

Lemma of_pairs_nodup {V : Type} (pairs : Dict.t string V) :
  NoDup (List.map fst pairs) -> Dict.of_pairs pairs = pairs.
Proof. intro Hnd. unfold Dict.of_pairs. now rewrite set_pairs_nodup. Qed.

Lemma set_present_forall {V : Type} (P : string * V -> Prop)
  (k : string) (v : V) (d : Dict.t string V) :
  P (k, v) -> Forall P d -> Forall P (Dict.set k v d).
Proof.
  intros Hk HF. induction HF as [|[k' v'] d Hp HF IH]; simpl.
  - now constructor.
  - destruct (String.eqb k k') eqn:E.
    + apply String.eqb_eq in E. subst k'. now constructor.
    + now constructor.
Qed.

Lemma widen_line (first line : row) :
  incl (Dict.keys line) (Dict.keys first) ->
  forall col_widths,
    widths_for first col_widths ->
    exists col_widths',
      foldM (widen str_float format_float) line col_widths = Ok col_widths'
      /\ widths_for first col_widths'.
Proof.
  induction line as [|[key v] line IH]; intros Hincl col_widths Hw; simpl.
  - now exists col_widths.
  - assert (Hkey : In key (Dict.keys col_widths)).
    { destruct Hw as (-> & _). apply Hincl. now left. }
    destruct (index_present _ _ Hkey) as (w & Hidx). rewrite Hidx. simpl.
    assert (Hincl' : incl (Dict.keys line) (Dict.keys first)).
    { intros k Hk. apply Hincl. now right. }
    destruct (w <? Str.len (_maybe_round str_float format_float v)) eqn:Hlt;
      simpl; [|now apply IH].
    apply IH; [exact Hincl'|]. destruct Hw as (Hk & HF). split.
    + rewrite keys_set_present; [exact Hk | now apply has_in_keys].
    + apply set_present_forall; [|exact HF]. simpl.
      apply Z.ltb_lt in Hlt. unfold Dict.index in Hidx.
      destruct (Dict.get key col_widths) as [w'|] eqn:Hg; [|discriminate].
      injection Hidx as ->. apply get_in in Hg.
      rewrite Forall_forall in HF. specialize (HF _ Hg). simpl in HF. lia.
Qed.

Lemma widen_lines (first : row) (lines : list row) :
  Forall (fun line => incl (Dict.keys line) (Dict.keys first)) lines ->
  forall col_widths,
    widths_for first col_widths ->
    exists col_widths',
      foldM (fun col_widths line =>
               foldM (widen str_float format_float) line col_widths)
            lines col_widths = Ok col_widths'
      /\ widths_for first col_widths'.
Proof.
  induction 1 as [|line lines Hl _ IH]; intros col_widths Hw; simpl.
  - now exists col_widths.
  - destruct (widen_line first line Hl col_widths Hw) as (cw & -> & Hcw).
    simpl. now apply IH.
Qed.

Lemma append_empty_r (s : string) : s +++ "" = s.
Proof. induction s as [|c s IH]; simpl; [reflexivity | now rewrite IH]. Qed.

Lemma fold_left_append {A : Type} (f : A -> string) (l : list A) :
  forall table,
    fold_left (fun table x => table +++ f x) l table
    = table +++ String.concat "" (List.map f l).
Proof.
  induction l as [|x l IH]; intro table; simpl.
  - now rewrite append_empty_r.
  - rewrite IH, append_assoc. f_equal.
    destruct (List.map f l) eqn:E; simpl; [now rewrite append_empty_r|].
    reflexivity.
Qed.

Lemma pairs_forall2 {V : Type} (P : string -> V -> Prop) (d : Dict.t string V) :
  Forall (fun kv => P (fst kv) (snd kv)) d ->
  Forall2 P (Dict.keys d) (Dict.values d).
Proof. induction 1; simpl; now constructor. Qed.

Lemma initial_widths (first : row) :
  Dict.wf first ->
  widths_for first
    (Dict.of_pairs (List.map (fun key => (key, Str.len key)) (Dict.keys first))).
Proof.
  intro Hwf.
  assert (Hk : List.map fst (List.map (fun key => (key, Str.len key))
                                      (Dict.keys first)) = Dict.keys first).
  { rewrite map_map. simpl. apply map_id. }
  rewrite of_pairs_nodup by (rewrite Hk; exact Hwf).
  split; [exact Hk|].
  apply Forall_forall. intros kw Hin. apply in_map_iff in Hin.
  destruct Hin as (key & <- & _). simpl. lia.
Qed.

End MarkdownTable.


(** * Further properties *)

(** ** Dictionaries, continued *)

Section DictMore.
Context {K : Type} `{EqKeyOk K} {V : Type}.
Implicit Types (d : Dict.t K V) (k : K) (v : V).

Lemma keys_set k v d :
  Dict.keys (Dict.set k v d)
  = Dict.keys d ++ (if Dict.has k d then [] else [k]).
Proof.
  destruct (Dict.has k d) eqn:Hh.
  - rewrite keys_set_present by assumption. now rewrite app_nil_r.
  - rewrite set_absent by assumption. unfold Dict.keys. now rewrite map_app.
Qed.

Lemma wf_set k v d : Dict.wf d -> Dict.wf (Dict.set k v d).
Proof.
  unfold Dict.wf. intro Hwf. rewrite keys_set.
  destruct (Dict.has k d) eqn:Hh; [now rewrite app_nil_r|].
  apply NoDup_app; [exact Hwf | repeat constructor; intros [] |].
  intros x Hx [<-|[]]. apply has_in_keys in Hx. congruence.
Qed.

Lemma get_remove_neq k k' d :
  k <> k' -> Dict.get k (Dict.remove k' d) = Dict.get k d.
Proof.
  intro Hne. induction d as [|[k0 v0] d IH]; simpl; [reflexivity|].
  destruct (keqb k' k0) eqn:E.
  - apply keqb_spec in E. subst k0. now rewrite keqb_neq.
  - simpl. now rewrite IH.
Qed.

Lemma get_remove_eq k d : Dict.wf d -> Dict.get k (Dict.remove k d) = None.
Proof.
  unfold Dict.wf. induction d as [|[k0 v0] d IH]; simpl; intro Hwf;
    [reflexivity|].
  inversion Hwf as [|? ? Hnin Hwf']; subst.
  destruct (keqb k k0) eqn:E.
  - apply keqb_spec in E. subst k0.
    destruct (Dict.get k d) eqn:Hg; [|reflexivity].
    exfalso. apply Hnin. apply has_in_keys. unfold Dict.has. now rewrite Hg.
  - simpl. rewrite E. now apply IH.
Qed.

Lemma keys_remove_subset k d x :
  In x (Dict.keys (Dict.remove k d)) -> In x (Dict.keys d).
Proof.
  induction d as [|[k0 v0] d IH]; simpl; [trivial|].
  destruct (keqb k k0); simpl; [now right|].
  intros [E|Hin]; [now left | right; now apply IH].
Qed.

Lemma wf_remove k d : Dict.wf d -> Dict.wf (Dict.remove k d).
Proof.
  unfold Dict.wf. induction d as [|[k0 v0] d IH]; simpl; intro Hwf;
    [constructor|].
  inversion Hwf as [|? ? Hnin Hwf']; subst.
  destruct (keqb k k0); [exact Hwf'|]. simpl. constructor; [|now apply IH].
  intro Hin. apply Hnin. eapply keys_remove_subset. exact Hin.
Qed.

Lemma in_get k v d : Dict.wf d -> In (k, v) d -> Dict.get k d = Some v.
Proof.
  unfold Dict.wf. induction d as [|[k0 v0] d IH]; simpl; intros Hwf Hin;
    [contradiction|].
  inversion Hwf as [|? ? Hnin Hwf']; subst.
  destruct Hin as [E|Hin].
  - injection E as -> ->. now rewrite keqb_refl.
  - destruct (keqb k k0) eqn:E; [|now apply IH].
    apply keqb_spec in E. subst k0. exfalso. apply Hnin.
    apply in_map_iff. now exists (k, v).
Qed.

(** Loops that assign to some keys: the keys present at the start keep
    their places; a key the loop never assigns keeps its value; and the last
    assignment to a key decides its value. *)
Section Assignments.
Context {A : Type} (upd : A -> option (K * V)).

Local Abbreviation assign :=
  (fun d x => match upd x with
              | Some (k, v) => Dict.set k v d
              | None => d
              end).

Lemma fold_assign_keys_prefix (l : list A) : forall d,
  exists added, Dict.keys (fold_left assign l d) = Dict.keys d ++ added.
Proof.
  induction l as [|x l IH]; intro d; simpl.
  - exists []. now rewrite app_nil_r.
  - destruct (IH (assign d x)) as (added & ->).
    destruct (upd x) as [[k v]|]; [|now exists added].
    rewrite keys_set, <- app_assoc. now eexists.
Qed.

Lemma fold_assign_untouched (l : list A) k : forall d,
  (forall x v, In x l -> upd x <> Some (k, v)) ->
  Dict.get k (fold_left assign l d) = Dict.get k d.
Proof.
  induction l as [|x l IH]; intros d Hno; simpl; [reflexivity|].
  rewrite IH by (intros y v Hy; apply Hno; now right).
  destruct (upd x) as [[k' v']|] eqn:Hx; [|reflexivity].
  apply get_set_neq. intros ->. now apply (Hno x v'); [left|].
Qed.

Lemma fold_assign_last (l1 l2 : list A) (x : A) k v d :
  upd x = Some (k, v) ->
  (forall y w, In y l2 -> upd y <> Some (k, w)) ->
  Dict.get k (fold_left assign (l1 ++ x :: l2) d) = Some v.
Proof.
  intros Hx Hno. rewrite fold_left_app. simpl.
  rewrite fold_assign_untouched by exact Hno.
  rewrite Hx. apply get_set_eq.
Qed.

Lemma fold_assign_wf (l : list A) : forall d,
  Dict.wf d -> Dict.wf (fold_left assign l d).
Proof.
  induction l as [|x l IH]; intros d Hwf; simpl; [exact Hwf|].
  apply IH. destruct (upd x) as [[k v]|]; [now apply wf_set | exact Hwf].
Qed.

End Assignments.

End DictMore.



(** ** The log parser: totality and the table *)

Section LogTable.

Lemma eval_loss_loop_found (log_history : list record) (n : nat) :
  (n <= length log_history)%nat ->
  exists idx,
    eval_loss_loop log_history n = Ok idx
    /\ -1 <= idx < Z.of_nat n
    /\ (0 <= idx ->
        exists r, list_index log_history idx = Ok r
                  /\ Dict.has "eval_loss" r = true).
Proof.
  induction n as [|i IH]; intro Hle; simpl.
  - exists (-1). split; [reflexivity|]. split; lia.
  - destruct (list_index_in_range log_history i) as (r & Hn & Hr); [lia|].
    rewrite Hr. simpl. destruct (Dict.has "eval_loss" r) eqn:He.
    + exists (Z.of_nat i). split; [reflexivity|]. split; [lia|].
      intros _. now exists r.
    + destruct IH as (idx & -> & Hb & Hf); [lia|].
      exists idx. split; [reflexivity|]. split; [lia | exact Hf].
Qed.

(** X3.  [parse_log_history] raises nothing, whatever the history: every
    index it reads is in range.  It returns a training log and a table
    together, and does so exactly when some record holds the training
    runtime. *)
Theorem parse_log_history_total (log_history : list record) :
  exists train_log lines final,
    parse_log_history log_history = Ok (train_log, lines, final)
    /\ (train_log = None <-> lines = None)
    /\ (lines <> None <-> Exists has_train_runtime log_history).
Proof.
  destruct (eval_loss_loop_found log_history (length log_history) (le_n _))
    as (idx & Hloop & Hb & Hf).
  destruct (no_train_runtime_dec log_history) as [HT|HT].
  - rewrite (parse_log_history_eval_only _ HT), Hloop. simpl.
    assert (Hno : ~ Exists has_train_runtime log_history).
    { intro HE. apply Exists_exists in HE. destruct HE as (x & Hx & Hx').
      rewrite Forall_forall in HT. specialize (HT x Hx).
      unfold no_train_runtime, has_train_runtime in *. congruence. }
    destruct (idx >? 0) eqn:Hpos.
    + destruct Hf as (r & -> & _); [apply Z.gtb_lt in Hpos; lia|]. simpl.
      exists None, None, (Some r). split; [reflexivity|].
      split; [tauto|]. split; [congruence | contradiction].
    + exists None, None, None. split; [reflexivity|].
      split; [tauto|]. split; [congruence | contradiction].
  - destruct (parse_log_history_trained _ HT) as (t & lines & _ & ->).
    rewrite Hloop. simpl.
    destruct (idx >? 0) eqn:Hpos.
    + destruct Hf as (r & -> & _); [apply Z.gtb_lt in Hpos; lia|]. simpl.
      exists (Some t), (Some lines), (Some (final_results r)).
      split; [reflexivity|]. split; [split; discriminate|].
      split; [intros _; exact HT | discriminate].
    + exists (Some t), (Some lines), None.
      split; [reflexivity|]. split; [split; discriminate|].
      split; [intros _; exact HT | discriminate].
Qed.

(** The loop over [range(idx)] builds the rows of the records it passes. *)
Lemma table_loop_rows (tail : list record) :
  forall rest done training_loss lines,
    exists training_loss',
      foldM (table_step (done ++ rest ++ tail))
            (List.map Z.of_nat (List.seq (length done) (length rest)))
            (training_loss, lines)
      = Ok (training_loss', lines ++ rows_of rest training_loss).
Proof.
  induction rest as [|r rest IH]; intros done training_loss lines; simpl.
  - exists training_loss. now rewrite app_nil_r.
  - rewrite list_index_middle. simpl.
    specialize (IH (done ++ [r])).
    rewrite length_app, Nat.add_1_r in IH. rewrite <- app_assoc in IH.
    simpl in IH.
    destruct (Dict.has "eval_loss" r); cbn [bind].
    + match goal with |- context [foldM _ _ (?tl, ?ls)] =>
        destruct (IH tl ls) as (tl' & ->) end.
      exists tl'. now rewrite <- app_assoc.
    + match goal with |- context [foldM _ _ (?tl, ?ls)] =>
        destruct (IH tl ls) as (tl' & ->) end.
      now exists tl'.
Qed.

Lemma rows_of_length (rest : list record) : forall training_loss,
  length (rows_of rest training_loss)
  = length (filter (Dict.has "eval_loss") rest).
Proof.
  induction rest as [|r rest IH]; intro training_loss; simpl; [reflexivity|].
  destruct (Dict.has "eval_loss" r); simpl; now rewrite IH.
Qed.

Lemma train_runtime_scan_first
  (before after : list record) (train_log : record) :
  Forall no_train_runtime before -> has_train_runtime train_log ->
  forall idx,
    train_runtime_scan (before ++ train_log :: after) idx
    = idx + Z.of_nat (length before).
Proof.
  intros Hb Ht. induction Hb as [|r l Hr _ IH]; intro idx.
  - simpl. unfold has_train_runtime in Ht. rewrite Ht. lia.
  - cbn [app train_runtime_scan]. unfold no_train_runtime in Hr.
    rewrite Hr, IH. cbn [length]. lia.
Qed.

(** X4.  When the first record that holds the training runtime is
    [train_log], after the records [before], [parse_log_history] returns
    [train_log] and a table made of the records before it only: one row for
    each of them that holds an evaluation loss, in their order, each with
    the last training loss logged up to and including that record (or
    "No log").  Records after [train_log] add no row. *)
Theorem parse_log_history_table
  (before after : list record) (train_log : record) :
  Forall no_train_runtime before ->
  has_train_runtime train_log ->
  exists final,
    parse_log_history (before ++ train_log :: after)
    = Ok (Some train_log, Some (rows_of before (VStr "No log")), final)
    /\ length (rows_of before (VStr "No log"))
       = length (filter (Dict.has "eval_loss") before).
Proof.
  intros Hb Ht.
  assert (Hrows : exists training_loss,
            foldM (table_step (before ++ train_log :: after))
                  (range (Z.of_nat (length before))) (VStr "No log", [])
            = Ok (training_loss, rows_of before (VStr "No log"))).
  { unfold range. rewrite Nat2Z.id.
    exact (table_loop_rows (train_log :: after) before [] (VStr "No log") []). }
  destruct Hrows as (tl' & Hrows).
  destruct (eval_loss_loop_found (before ++ train_log :: after)
              (length (before ++ train_log :: after)) (le_n _))
    as (idx & Hloop & Hbounds & Hfound).
  assert (Hparse : parse_log_history (before ++ train_log :: after)
                   = (if idx >? 0 then
                        r <- list_index (before ++ train_log :: after) idx ;;
                        Ok (Some train_log,
                            Some (rows_of before (VStr "No log")),
                            Some (final_results r))
                      else Ok (Some train_log,
                               Some (rows_of before (VStr "No log")), None))).
  { unfold parse_log_history.
    rewrite (train_runtime_scan_first _ _ _ Hb Ht). simpl (0 + _).
    replace (Z.of_nat (length before)
             =? Z.of_nat (length (before ++ train_log :: after))) with false
      by (symmetry; apply Z.eqb_neq; rewrite length_app; simpl; lia).
    rewrite list_index_middle. cbn [bind]. rewrite Hrows. cbn [bind].
    unfold eval_loss_scan.
    replace (Z.to_nat (Z.of_nat (length (before ++ train_log :: after)) - 1 + 1))
      with (length (before ++ train_log :: after)) by lia.
    rewrite Hloop. reflexivity. }
  rewrite Hparse. destruct (idx >? 0) eqn:Hpos.
  - destruct Hfound as (r & -> & _); [apply Z.gtb_lt in Hpos; lia|].
    eexists. split; [reflexivity | apply rows_of_length].
  - eexists. split; [reflexivity | apply rows_of_length].
Qed.

Lemma parse_log_history_table_witness :
  exists final,
    parse_log_history (demo_history ++ demo_train_log :: [])
    = Ok (Some demo_train_log, Some (rows_of demo_history (VStr "No log")),
          final)
    /\ length (rows_of demo_history (VStr "No log"))
       = length (filter (Dict.has "eval_loss") demo_history).
Proof.
  apply parse_log_history_table.
  - repeat constructor.
  - reflexivity.
Defined.

Lemma get_remove_all (ks : list string) : forall (d : record) (x : string),
  Dict.wf d ->
  Dict.get x (fold_left (fun d k => Dict.remove k d) ks d)
  = if Str.mem x ks then None else Dict.get x d.
Proof.
  induction ks as [|k ks IH]; intros d x Hwf; simpl; [reflexivity|].
  rewrite IH by now apply wf_remove.
  destruct (String.eqb x k) eqn:E; simpl.
  - apply String.eqb_eq in E. subst k. rewrite get_remove_eq by assumption.
    now destruct (Str.mem x ks).
  - apply String.eqb_neq in E. now rewrite get_remove_neq.
Qed.

Lemma wf_remove_all (ks : list string) : forall (d : record),
  Dict.wf d -> Dict.wf (fold_left (fun d k => Dict.remove k d) ks d).
Proof.
  induction ks as [|k ks IH]; intros d Hwf; simpl; [exact Hwf|].
  apply IH. now apply wf_remove.
Qed.

(** [table_line] as a loop of assignments over the metrics that are left. *)
Lemma table_line_as_assignments (training_loss : value) (r : record) :
  table_line training_loss r
  = fold_left
      (fun d kv => Dict.set (column_name (fst kv)) (snd kv) d)
      (fold_left (fun d k => Dict.remove k d) bookkeeping_keys r)
      [ ("Training Loss", training_loss);
        ("Epoch", match Dict.get "epoch" (Dict.remove "total_flos" r) with
                  | Some v => v
                  | None => VNone
                  end);
        ("Step", match Dict.get "step"
                         (Dict.remove "epoch" (Dict.remove "total_flos" r)) with
                 | Some v => v
                 | None => VNone
                 end) ].
Proof.
  unfold table_line, pop. cbv beta iota zeta. cbn [fold_left bookkeeping_keys].
  apply fold_left_ext. intros d [k v]. unfold column_name. cbn [fst snd].
  now destruct (String.eqb k "eval_loss").
Qed.

Lemma metrics_left (r : record) (key : string) (v : value) :
  Dict.wf r ->
  (In (key, v) (fold_left (fun d k => Dict.remove k d) bookkeeping_keys r)
   <-> In (key, v) r /\ ~ In key bookkeeping_keys).
Proof.
  intro Hwf. pose proof (wf_remove_all bookkeeping_keys r Hwf) as Hwf'.
  pose proof (get_remove_all bookkeeping_keys r key Hwf) as Hg.
  split.
  - intro Hin. apply in_get in Hin; [|exact Hwf']. rewrite Hin in Hg.
    destruct (Str.mem key bookkeeping_keys) eqn:Hm; [discriminate|].
    split; [apply get_in; now symmetry|].
    intro Hb. apply mem_in in Hb. congruence.
  - intros (Hin & Hb). apply get_in. rewrite Hg.
    destruct (Str.mem key bookkeeping_keys) eqn:Hm.
    + apply mem_in in Hm. contradiction.
    + now apply in_get.
Qed.

(** X5.  The row [table_line] builds for an evaluation record (with
    distinct keys) starts with the columns Training Loss, Epoch and Step, in
    this order; its other columns are the names of the keys of the record
    that are no bookkeeping keys.  When no metric key is named like one of
    the four standard columns, Training Loss holds the training loss passed
    in, Epoch and Step the record's epoch and step (None where the record
    has none), and Validation Loss the record's evaluation loss. *)
Theorem table_line_columns (training_loss : value) (r : record) :
  Dict.wf r ->
  firstn 3 (Dict.keys (table_line training_loss r))
  = ["Training Loss"; "Epoch"; "Step"]
  /\ (forall name,
        In name (Dict.keys (table_line training_loss r)) <->
        In name ["Training Loss"; "Epoch"; "Step"]
        \/ exists key, In key (Dict.keys r) /\ ~ In key bookkeeping_keys
                       /\ column_name key = name)
  /\ (plain_columns r ->
      Dict.get "Training Loss" (table_line training_loss r)
      = Some training_loss
      /\ Dict.get "Epoch" (table_line training_loss r)
         = Some (match Dict.get "epoch" r with Some v => v | None => VNone end)
      /\ Dict.get "Step" (table_line training_loss r)
         = Some (match Dict.get "step" r with Some v => v | None => VNone end)
      /\ Dict.get "Validation Loss" (table_line training_loss r)
         = Dict.get "eval_loss" r).
Proof.
  intro Hwf. rewrite table_line_as_assignments.
  rewrite !get_remove_neq by discriminate.
  set (m := fold_left (fun d k => Dict.remove k d) bookkeeping_keys r).
  match goal with |- context [fold_left _ m ?d] => set (init := d) end.
  pose proof (fold_assign_keys_prefix
                (fun kv : string * value =>
                   Some (column_name (fst kv), snd kv)) m init) as Hprefix.
  pose proof (fun name =>
                fold_assign_has
                  (fun kv : string * value =>
                     Some (column_name (fst kv), snd kv)) m init name) as Hhas.
  pose proof (fun k =>
                fold_assign_untouched
                  (fun kv : string * value =>
                     Some (column_name (fst kv), snd kv)) m k init) as Hkeep.
  pose proof (fun l1 l2 x k v =>
                fold_assign_last
                  (fun kv : string * value =>
                     Some (column_name (fst kv), snd kv)) l1 l2 x k v init)
    as Hlast.
  cbv beta iota in Hprefix, Hhas, Hkeep, Hlast.
  split; [|split].
  - destruct Hprefix as (added & ->). reflexivity.
  - intro name. rewrite <- has_in_keys, Hhas. split.
    + intros [Hh|((key & v) & v' & Hin & Hu)].
      * left. apply has_in_keys in Hh. exact Hh.
      * right. apply metrics_left in Hin; [|exact Hwf].
        destruct Hin as (Hin & Hb). injection Hu as <- _.
        exists key. split; [|now split].
        apply in_map_iff. now exists (key, v).
    + intros [Hin|(key & Hin & Hb & <-)].
      * left. now apply has_in_keys.
      * right. apply in_map_iff in Hin. destruct Hin as ((key' & v) & E & Hin).
        simpl in E. subst key'. exists (key, v), v. split; [|reflexivity].
        apply metrics_left; [exact Hwf | now split].
  - intro Hplain.
    assert (Hother : forall x v name,
              In x m -> fst x <> "eval_loss" ->
              In name ["Training Loss"; "Epoch"; "Step"; "Validation Loss"] ->
              Some (column_name (fst x), snd x) <> Some (name, v)).
    { intros [key v0] v name Hin Hne Hname E. injection E as E _.
      apply metrics_left in Hin; [|exact Hwf]. destruct Hin as (Hin & Hb).
      unfold plain_columns in Hplain. rewrite Forall_forall in Hplain.
      destruct (Hplain key) as [Hk|[Hk|Hk]].
      - apply in_map_iff. now exists (key, v0).
      - contradiction.
      - contradiction.
      - apply Hk. simpl in E. now rewrite E. }
    assert (Hfixed : forall x v name,
              In x m -> In name ["Training Loss"; "Epoch"; "Step"] ->
              Some (column_name (fst x), snd x) <> Some (name, v)).
    { intros [key v0] v name Hin Hname.
      destruct (String.eqb key "eval_loss") eqn:Hk.
      - apply String.eqb_eq in Hk. subst key. intro E. injection E as E _.
        unfold column_name in E. simpl in E. subst name.
        simpl in Hname. intuition discriminate.
      - apply String.eqb_neq in Hk. apply Hother; [exact Hin | exact Hk|].
        simpl in *. intuition. }
    split; [|split; [|split]].
    + rewrite Hkeep; [reflexivity|].
      intros x v Hin. apply Hfixed; [exact Hin | now left].
    + rewrite Hkeep; [reflexivity|].
      intros x v Hin. apply Hfixed; [exact Hin | right; now left].
    + rewrite Hkeep; [reflexivity|].
      intros x v Hin. apply Hfixed; [exact Hin | right; right; now left].
    + destruct (Dict.get "eval_loss" r) as [v|] eqn:Hg.
      * assert (Hin : In ("eval_loss", v) m).
        { apply metrics_left; [exact Hwf|]. split; [now apply get_in|].
          simpl. intuition discriminate. }
        destruct (in_split _ _ Hin) as (l1 & l2 & Hsplit).
        rewrite Hsplit. apply Hlast; [reflexivity|].
        intros y w Hy. apply Hother.
        -- rewrite Hsplit. apply in_or_app. right. now right.
        -- intro Hk. pose proof (wf_remove_all bookkeeping_keys r Hwf) as Hwf'.
           fold m in Hwf'. rewrite Hsplit in Hwf'. unfold Dict.wf, Dict.keys in Hwf'.
           rewrite map_app in Hwf'. simpl in Hwf'.
           apply NoDup_remove_2 in Hwf'. apply Hwf'. apply in_or_app. right.
           rewrite <- Hk. apply in_map_iff. now exists y.
        -- do 3 right. now left.
      * rewrite Hkeep; [reflexivity|].
        intros [key v0] v Hin.
        destruct (String.eqb key "eval_loss") eqn:Hk.
        -- apply String.eqb_eq in Hk. subst key.
           apply metrics_left in Hin; [|exact Hwf]. destruct Hin as (Hin & _).
           apply in_get in Hin; [|exact Hwf]. congruence.
        -- apply String.eqb_neq in Hk. apply Hother; [exact Hin | exact Hk|].
           do 3 right. now left.
Qed.

Lemma table_line_columns_witness :
  Dict.get "Validation Loss"
    (table_line (VFloat 0.5)
       [("eval_loss", VFloat 0.3); ("eval_accuracy", VFloat 0.5);
        ("eval_runtime", VFloat 12.5); ("epoch", VInt 1); ("step", VInt 10)])
  = Some (VFloat 0.3).
Proof.
  refine (proj2 (proj2 (proj2 (proj2 (proj2
            (table_line_columns (VFloat 0.5)
               [("eval_loss", VFloat 0.3); ("eval_accuracy", VFloat 0.5);
                ("eval_runtime", VFloat 12.5); ("epoch", VInt 1);
                ("step", VInt 10)] _)) _)))).
  - unfold Dict.wf. simpl.
    repeat (constructor; [simpl; intuition discriminate|]). constructor.
  - unfold plain_columns. simpl.
    repeat (constructor;
            [first [ left; simpl; now intuition
                   | right; left; reflexivity
                   | right; right; vm_compute; intuition discriminate ]|]).
    constructor.
Defined.

Lemma final_results_as_assignments (r : record) :
  final_results r
  = fold_left
      (fun d kv =>
         match (match spec_humanized_key (fst kv) with
                | Some n => Some (n, snd kv)
                | None => None
                end) with
         | Some (k, v) => Dict.set k v d
         | None => d
         end) r [].
Proof.
  unfold final_results. apply fold_left_ext.
  intros d [key v]. unfold spec_humanized_key. cbn [fst snd].
  match goal with |- context [Str.mem ?k non_metric_keys] =>
    destruct (Str.mem k non_metric_keys) end; reflexivity.
Qed.

(** X6.  The final result has no name twice.  A value under a name is the
    value the record holds under a metric key with that humanized name; and
    when several keys of the record have the same humanized name, the last
    of them gives the value. *)
Theorem final_results_values (r : record) :
  Dict.wf (final_results r)
  /\ (forall name v,
        Dict.get name (final_results r) = Some v ->
        exists key, In (key, v) r /\ spec_humanized_key key = Some name)
  /\ (forall r1 r2 key v name,
        r = r1 ++ (key, v) :: r2 ->
        spec_humanized_key key = Some name ->
        Forall (fun kv => spec_humanized_key (fst kv) <> Some name) r2 ->
        Dict.get name (final_results r) = Some v).
Proof.
  rewrite final_results_as_assignments. split; [|split].
  - apply fold_assign_wf. constructor.
  - intros name v Hg. apply fold_assign_get in Hg.
    destruct Hg as [Hg|((key & v') & Hin & Hu)]; [discriminate|].
    simpl in Hu. destruct (spec_humanized_key key) as [n|] eqn:Hk;
      [|discriminate].
    injection Hu as -> ->. now exists key.
  - intros r1 r2 key v name -> Hk Hno. apply fold_assign_last.
    + simpl. now rewrite Hk.
    + intros [key' v'] w Hin. simpl.
      rewrite Forall_forall in Hno. specialize (Hno _ Hin). simpl in Hno.
      destruct (spec_humanized_key key') as [n|]; [|discriminate].
      intro E. injection E as -> _. now apply Hno.
Qed.

Lemma final_results_values_witness :
  Dict.get "Loss"
    (final_results ([("loss", VFloat 0.5)] ++ ("eval_loss", VFloat 0.3)
                    :: [("epoch", VInt 1)]))
  = Some (VFloat 0.3).
Proof.
  apply (proj2 (proj2 (final_results_values _))
           [("loss", VFloat 0.5)] [("epoch", VInt 1)] "eval_loss").
  - reflexivity.
  - reflexivity.
  - repeat constructor. discriminate.
Defined.

End LogTable.

(** ** The Keras parser *)

Section KerasParser.

Lemma mapM_map_ok {A B : Type} (f : A -> result B) (g : A -> B) (l : list A) :
  (forall a, In a l -> f a = Ok (g a)) -> mapM f l = Ok (List.map g l).
Proof.
  induction l as [|a l IH]; intro Hf; simpl; [reflexivity|].
  rewrite (Hf a) by now left. simpl.
  rewrite IH by (intros; apply Hf; now right). reflexivity.
Qed.

Lemma mapM_ok_inv {A B : Type} (f : A -> result B) (l : list A) :
  forall l', mapM f l = Ok l' -> forall a, In a l -> exists b, f a = Ok b.
Proof.
  induction l as [|x l IH]; simpl; intros l' E a Hin; [contradiction|].
  destruct (f x) as [b|e] eqn:Hx; simpl in E; [|discriminate].
  destruct (mapM f l) as [bs|e]; simpl in E; [|discriminate].
  destruct Hin as [<-|Hin]; [now exists b | now apply (IH bs)].
Qed.

(** A comprehension whose body raises nothing but [e] raises nothing but
    [e]. *)
Lemma mapM_raises_only {A B : Type} (f : A -> result B) (e : exn) (l : list A) :
  (forall a e', In a l -> f a = Raise e' -> e' = e) ->
  forall e', mapM f l = Raise e' -> e' = e.
Proof.
  induction l as [|x l IH]; simpl; intros Hf e' E; [discriminate|].
  destruct (f x) as [b|e0] eqn:Hx; simpl in E.
  - destruct (mapM f l) as [bs|e1] eqn:Hl; simpl in E; [discriminate|].
    injection E as <-. apply IH; [|reflexivity].
    intros a e'' Hin. apply Hf. now right.
  - injection E as <-. apply (Hf x); [now left | exact Hx].
Qed.

Lemma nth_error_last {A : Type} (l : list A) (a d : A) :
  nth_error (a :: l) (length l) = Some (List.last (a :: l) d).
Proof.
  revert a. induction l as [|b l IH]; intro a; [reflexivity|].
  cbn [length nth_error]. rewrite IH. reflexivity.
Qed.

Lemma list_index_last {A : Type} (l : list A) (d : A) :
  l <> [] -> list_index l (-1) = Ok (List.last l d).
Proof.
  destruct l as [|a l]; [congruence|]. intros _.
  unfold list_index. cbn [length].
  replace (-1 <? 0) with true by reflexivity.
  replace (-1 + Z.of_nat (S (length l))) with (Z.of_nat (length l)) by lia.
  replace (0 <=? Z.of_nat (length l)) with true
    by (symmetry; apply Z.leb_le; lia).
  replace (Z.of_nat (length l) <? Z.of_nat (S (length l))) with true
    by (symmetry; apply Z.ltb_lt; lia).
  cbn [andb]. rewrite Nat2Z.id, (nth_error_last l a d). reflexivity.
Qed.

Lemma list_index_raises {A : Type} (l : list A) (i : Z) (e : exn) :
  list_index l i = Raise e -> e = IndexError.
Proof.
  unfold list_index. destruct (_ && _); [|now intros [= <-]].
  destruct (nth_error l _); [discriminate | now intros [= <-]].
Qed.

Lemma list_index_ok_bound {A : Type} (l : list A) (j : nat) (a : A) :
  list_index l (Z.of_nat j) = Ok a -> (j < length l)%nat.
Proof.
  unfold list_index.
  replace (Z.of_nat j <? 0) with false by (symmetry; apply Z.ltb_ge; lia).
  destruct (_ && _) eqn:Hb; [|discriminate]. intros _.
  apply andb_prop in Hb. destruct Hb as (_ & Hb). apply Z.ltb_lt in Hb. lia.
Qed.

(** The rows built from columns that are long enough. *)
Lemma keras_rows (logs : Dict.t string (list value)) (n : nat) :
  Forall (fun kl => (n <= length (snd kl))%nat) logs ->
  mapM (fun i =>
          epoch_dict <-
            mapM (fun kl =>
                    let '(log_key, log_value_list) := kl in
                    v <- list_index log_value_list i ;;
                    Ok (log_key, v))
                 logs ;;
          Ok (keras_line (Dict.of_pairs epoch_dict)))
       (range (Z.of_nat n))
  = Ok (List.map (fun j => keras_line (Dict.of_pairs (column_values logs j)))
                 (List.seq 0 n)).
Proof.
  intro Hlen. unfold range. rewrite Nat2Z.id.
  rewrite (mapM_map_ok _
             (fun i => keras_line
                         (Dict.of_pairs (column_values logs (Z.to_nat i))))).
  - now rewrite map_map; f_equal; apply map_ext; intro j; rewrite Nat2Z.id.
  - intros i Hi. apply in_map_iff in Hi. destruct Hi as (j & <- & Hj).
    apply in_seq in Hj. rewrite Nat2Z.id.
    rewrite (mapM_map_ok _ (fun kl => (fst kl, nth j (snd kl) VNone))).
    + reflexivity.
    + intros [k col] Hin. rewrite Forall_forall in Hlen.
      specialize (Hlen _ Hin). simpl in Hlen.
      rewrite (list_index_nat col j (nth j col VNone)); [reflexivity|].
      apply nth_error_nth'. lia.
Qed.

Lemma get_map_pairs {V : Type} (g : string -> V) (ks : list string) (k : string) :
  In k ks -> Dict.get k (List.map (fun k => (k, g k)) ks) = Some (g k).
Proof.
  induction ks as [|k0 ks IH]; simpl; [contradiction|].
  destruct (String.eqb k k0) eqn:E.
  - apply String.eqb_eq in E. now subst.
  - intros [->|Hin]; [now rewrite String.eqb_refl in E | now apply IH].
Qed.

Lemma map_nth_seq {A B : Type} (f : A -> B) (l : list A) (d : A) :
  List.map (fun j => f (nth j l d)) (List.seq 0 (length l)) = List.map f l.
Proof.
  induction l as [|a l IH]; [reflexivity|].
  cbn [length]. rewrite <- cons_seq, <- seq_shift. cbn [List.map nth].
  now rewrite map_map, IH.
Qed.

Lemma index_raises {V : Type} (d : Dict.t string V) (k : string) (e : exn) :
  Dict.index d k = Raise e -> e = KeyError.
Proof. unfold Dict.index. destruct (Dict.get k d); [discriminate | now intros [= <-]]. Qed.

Lemma restrict_present (ks : list string) (d : record) :
  incl ks (Dict.keys d) ->
  restrict ks d
  = List.map (fun k => (k, match Dict.get k d with
                           | Some v => v
                           | None => VNone
                           end)) ks.
Proof.
  intro Hincl. unfold restrict.
  induction ks as [|k ks IH]; [reflexivity|]. cbn [flat_map List.map].
  rewrite IH by (intros x Hx; apply Hincl; now right).
  assert (Hh : Dict.has k d = true) by (apply has_in_keys, Hincl; now left).
  unfold Dict.has in Hh. now destruct (Dict.get k d).
Qed.

(** X8.  Given a list of per-epoch mappings whose first mapping has
    distinct keys, among them epoch, and whose other mappings hold every key
    of the first, [parse_keras_history] returns one row per mapping, in
    order: the row of a mapping is built from its values at the keys of the
    first mapping, in the order of the first mapping, so keys that only
    later mappings hold are ignored; the final result is the last row.  It
    raises KeyError when a mapping lacks a key of the first mapping, or when
    the first mapping has no epoch. *)
Theorem parse_keras_history_of_list (first : record) (rest : list record) :
  (Dict.wf first -> In "epoch" (Dict.keys first) ->
   Forall (fun d => incl (Dict.keys first) (Dict.keys d)) rest ->
   exists out lines,
     parse_keras_history (LogList (first :: rest))
     = Ok (out, lines, List.last lines [])
     /\ Dict.keys out = Dict.keys first
     /\ lines = List.map (fun d => keras_line (restrict (Dict.keys first) d))
                         (first :: rest))
  /\ ((exists d k, In d (first :: rest) /\ In k (Dict.keys first)
                   /\ Dict.has k d = false)
      \/ Dict.has "epoch" first = false ->
      parse_keras_history (LogList (first :: rest)) = Raise KeyError).
Proof.
  set (logs := first :: rest).
  set (getv := fun (k : string) (d : record) =>
                 match Dict.get k d with Some v => v | None => VNone end).
  split.
  - intros Hwf Hepoch Hrest.
    assert (Hall : Forall (fun d => incl (Dict.keys first) (Dict.keys d)) logs)
      by (constructor; [apply incl_refl | exact Hrest]).
    set (columns := List.map (fun k => (k, List.map (getv k) logs))
                             (Dict.keys first)).
    assert (Hkeys : List.map fst columns = Dict.keys first).
    { unfold columns. rewrite map_map. apply map_id. }
    assert (Hcols : mapM (fun log_key =>
                            column <- mapM (fun single_dict =>
                                              Dict.index single_dict log_key)
                                           logs ;;
                            Ok (log_key, column))
                         (Dict.keys first) = Ok columns).
    { apply mapM_map_ok. intros k Hk.
      rewrite (mapM_map_ok _ (getv k)); [reflexivity|].
      intros d Hd. rewrite Forall_forall in Hall.
      assert (Hh : Dict.has k d = true) by (apply has_in_keys, (Hall d Hd), Hk).
      unfold Dict.index, getv. unfold Dict.has in Hh.
      now destruct (Dict.get k d). }
    exists columns.
    exists (List.map (fun d => keras_line (restrict (Dict.keys first) d)) logs).
    split; [|split; [exact Hkeys | reflexivity]].
    unfold parse_keras_history. fold logs.
    change (list_index logs 0) with (@Ok record first). cbn [bind].
    rewrite Hcols. cbn [bind].
    rewrite of_pairs_nodup by (rewrite Hkeys; exact Hwf).
    unfold Dict.index at 1. unfold columns at 1.
    rewrite get_map_pairs by exact Hepoch. cbn [bind].
    rewrite length_map.
    rewrite keras_rows
      by (apply Forall_forall; intros [k col] Hin; unfold columns in Hin;
          apply in_map_iff in Hin; destruct Hin as (k' & E & _);
          injection E as _ <-; simpl; now rewrite length_map).
    cbn [bind].
    assert (Hlines : List.map
                       (fun j => keras_line
                                   (Dict.of_pairs (column_values columns j)))
                       (List.seq 0 (length logs))
                     = List.map (fun d => keras_line
                                            (restrict (Dict.keys first) d))
                                logs).
    { rewrite <- (map_nth_seq _ logs []). apply map_ext_in. intros j Hj.
      apply in_seq in Hj. f_equal.
      assert (Hcv : column_values columns j
                    = List.map (fun k => (k, getv k (nth j logs [])))
                               (Dict.keys first)).
      { unfold column_values, columns. rewrite map_map. apply map_ext.
        intro k. cbn [fst snd]. f_equal.
        change VNone with (getv k []). apply map_nth. }
      rewrite Hcv, of_pairs_nodup
        by (rewrite map_map; simpl; rewrite map_id; exact Hwf).
      symmetry. apply restrict_present.
      rewrite Forall_forall in Hall. apply Hall. apply nth_In. lia. }
    rewrite Hlines.
    rewrite (@list_index_last (Dict.t string value) _ [])
      by (unfold logs; discriminate).
    reflexivity.
  - intro Hbad. unfold parse_keras_history. fold logs.
    change (list_index logs 0) with (@Ok record first). cbn [bind].
    destruct (mapM _ (Dict.keys first)) as [columns|e] eqn:Hcols; cbn [bind].
    + assert (Hpresent : forall d k, In d logs -> In k (Dict.keys first) ->
                                     Dict.has k d = true).
      { intros d k Hd Hk.
        destruct (mapM_ok_inv _ _ _ Hcols k Hk) as (b & Hb).
        destruct (mapM (fun single_dict : Dict.t string value =>
                          Dict.index single_dict k)
                       logs) as [col|e] eqn:Hcol; [|discriminate Hb].
        destruct (mapM_ok_inv _ _ _ Hcol d Hd) as (v & Hv).
        unfold Dict.index in Hv. unfold Dict.has.
        now destruct (Dict.get k d). }
      destruct Hbad as [(d & k & Hd & Hk & Hh)|Hh].
      * rewrite (Hpresent d k Hd Hk) in Hh. discriminate.
      * assert (Hkeys : List.map fst columns = Dict.keys first).
        { clear - Hcols. revert columns Hcols.
          induction (Dict.keys first) as [|k ks IH]; intros columns Hcols;
            cbn [mapM] in Hcols.
          - now injection Hcols as <-.
          - destruct (mapM (fun single_dict : Dict.t string value =>
                              Dict.index single_dict k) logs) as [col|e];
              [|discriminate Hcols].
            cbn [bind] in Hcols.
            match type of Hcols with
            | context [mapM ?f ks] =>
                destruct (mapM f ks) as [cols|e]; [|discriminate Hcols]
            end.
            cbn [bind] in Hcols. injection Hcols as <-. simpl. f_equal.
            now apply IH. }
        assert (Hno : Dict.has "epoch" (Dict.of_pairs columns) = false).
        { destruct (Dict.has "epoch" (Dict.of_pairs columns)) eqn:Hc;
            [|reflexivity].
          apply of_pairs_has in Hc. rewrite Hkeys in Hc.
          apply has_in_keys in Hc. congruence. }
        unfold Dict.index. unfold Dict.has in Hno.
        now destruct (Dict.get "epoch" (Dict.of_pairs columns)).
    + f_equal. apply (mapM_raises_only _ KeyError _) in Hcols; [exact Hcols|].
      intros k e' _ Hk.
      destruct (mapM (fun single_dict : Dict.t string value =>
                        Dict.index single_dict k)
                     logs) as [col|e0] eqn:Hcol; [discriminate Hk|].
      injection Hk as <-.
      apply (mapM_raises_only _ KeyError _) in Hcol; [exact Hcol|].
      intros d e'' _. apply index_raises.
Qed.

Lemma parse_keras_history_of_list_witness :
  exists out lines,
    parse_keras_history
      (LogList [ [("loss", VInt 2); ("epoch", VInt 0)];
                 [("epoch", VInt 1); ("lr", VInt 5); ("loss", VInt 1)] ])
    = Ok (out, lines, List.last lines [])
    /\ Dict.keys out = ["loss"; "epoch"]
    /\ lines = [ [("Train Loss", VInt 2); ("Epoch", VInt 0)];
                 [("Train Loss", VInt 1); ("Epoch", VInt 1)] ].
Proof.
  apply (proj1 (parse_keras_history_of_list
                  [("loss", VInt 2); ("epoch", VInt 0)]
                  [ [("epoch", VInt 1); ("lr", VInt 5); ("loss", VInt 1)] ])).
  - unfold Dict.wf. simpl.
    repeat (constructor; [simpl; intuition discriminate|]). constructor.
  - simpl. tauto.
  - constructor; [|constructor]. intros k Hk. simpl in *. tauto.
Defined.

(** X9.  Given a History object with at least one epoch whose columns,
    with the epoch list put under the key epoch, are all at least as long as
    the epoch list, [parse_keras_history] returns the columns, one row per
    epoch built from the values of the columns at that position, and the
    last row as final result.  When a column is shorter than the epoch list
    it raises IndexError. *)
Theorem parse_keras_history_of_object
  (history : Dict.t string (list value)) (epoch : list value) :
  (epoch <> [] ->
   Forall (fun kl => (length epoch <= length (snd kl))%nat)
          (Dict.set "epoch" epoch history) ->
   exists lines,
     parse_keras_history (History history epoch)
     = Ok (Dict.set "epoch" epoch history, lines, List.last lines [])
     /\ length lines = length epoch
     /\ lines
        = List.map (fun j =>
                      keras_line
                        (Dict.of_pairs
                           (column_values (Dict.set "epoch" epoch history) j)))
                   (List.seq 0 (length epoch)))
  /\ (Exists (fun kl => (length (snd kl) < length epoch)%nat)
             (Dict.set "epoch" epoch history) ->
      parse_keras_history (History history epoch) = Raise IndexError).
Proof.
  split.
  - intros Hne Hlen. eexists. split; [|split; [|reflexivity]].
    + unfold parse_keras_history. cbn [bind].
      unfold Dict.index. rewrite get_set_eq. cbn [bind].
      rewrite keras_rows by exact Hlen. cbn [bind].
      rewrite (@list_index_last (Dict.t string value) _ []).
      * reflexivity.
      * destruct epoch; [congruence | discriminate].
    + now rewrite length_map, length_seq.
  - intro Hshort. unfold parse_keras_history. cbn [bind].
    unfold Dict.index. rewrite get_set_eq. cbn [bind].
    match goal with |- context [mapM ?f (range ?n)] =>
      destruct (mapM f (range n)) as [lines|e] eqn:Hrows end; cbn [bind].
    + exfalso. apply Exists_exists in Hshort.
      destruct Hshort as ([k col] & Hin & Hlt). simpl in Hlt.
      assert (Hi : In (Z.of_nat (length col)) (range (Z.of_nat (length epoch)))).
      { unfold range. apply in_map. apply in_seq. lia. }
      destruct (mapM_ok_inv _ _ _ Hrows _ Hi) as (line & Hline).
      match type of Hline with
      | context [mapM ?f ?l] =>
          destruct (mapM f l) as [epoch_dict|e] eqn:Hd;
            [|discriminate Hline]
      end.
      destruct (mapM_ok_inv _ _ _ Hd _ Hin) as (kv & Hkv). simpl in Hkv.
      destruct (list_index col (Z.of_nat (length col))) as [v|e] eqn:Hv;
        [|discriminate Hkv].
      apply list_index_ok_bound in Hv. lia.
    + f_equal. apply (mapM_raises_only _ IndexError _) in Hrows; [exact Hrows|].
      intros i e' _ Hi.
      match type of Hi with
      | context [mapM ?f ?l] =>
          destruct (mapM f l) as [epoch_dict|e0] eqn:Hd;
            [discriminate Hi|]
      end.
      injection Hi as <-.
      apply (mapM_raises_only _ IndexError _) in Hd; [exact Hd|].
      intros [k col] e'' _ Hkv.
      destruct (list_index col i) as [v|e1] eqn:Hv; [discriminate Hkv|].
      injection Hkv as <-. now apply list_index_raises in Hv.
Qed.

Lemma parse_keras_history_of_object_witness :
  exists lines,
    parse_keras_history
      (History [("loss", [VInt 3; VInt 2]); ("val_loss", [VInt 5; VInt 4])]
               [VInt 0; VInt 1])
    = Ok (Dict.set "epoch" [VInt 0; VInt 1]
            [("loss", [VInt 3; VInt 2]); ("val_loss", [VInt 5; VInt 4])],
          lines, List.last lines [])
    /\ length lines = 2%nat
    /\ lines = [ [("Train Loss", VInt 3); ("Validation Loss", VInt 5);
                  ("Epoch", VInt 0)];
                 [("Train Loss", VInt 2); ("Validation Loss", VInt 4);
                  ("Epoch", VInt 1)] ].
Proof.
  apply (proj1 (parse_keras_history_of_object
                  [("loss", [VInt 3; VInt 2]); ("val_loss", [VInt 5; VInt 4])]
                  [VInt 0; VInt 1])).
  - discriminate.
  - repeat constructor.
Defined.

Lemma keras_line_as_assignments (epoch_dict : Dict.t string value) :
  keras_line epoch_dict
  = fold_left (fun d kv => Dict.set (keras_name (fst kv)) (snd kv) d)
              epoch_dict [].
Proof.
  unfold keras_line. apply fold_left_ext. intros d [k v]. reflexivity.
Qed.

(** X10.  A row of the Keras parser names its columns after the keys of the
    epoch: a key val_x gives Validation X, the key epoch gives Epoch, any
    other key x gives Train X.  The row holds no name twice, its names are
    the names of the keys, and the last key with a name gives the value
    under it. *)
Theorem keras_line_names (epoch_dict : Dict.t string value) :
  Dict.wf (keras_line epoch_dict)
  /\ (forall name,
        In name (Dict.keys (keras_line epoch_dict)) <->
        exists key, In key (Dict.keys epoch_dict) /\ keras_name key = name)
  /\ (forall d1 d2 key v,
        epoch_dict = d1 ++ (key, v) :: d2 ->
        Forall (fun kv => keras_name (fst kv) <> keras_name key) d2 ->
        Dict.get (keras_name key) (keras_line epoch_dict) = Some v)
  /\ keras_name "epoch" = "Epoch"
  /\ keras_name "val_loss" = "Validation Loss"
  /\ keras_name "loss" = "Train Loss".
Proof.
  rewrite keras_line_as_assignments.
  pose proof (fold_assign_wf
                (fun kv : string * value => Some (keras_name (fst kv), snd kv))
                epoch_dict []) as Hwf.
  pose proof (fun name =>
                fold_assign_has
                  (fun kv : string * value =>
                     Some (keras_name (fst kv), snd kv)) epoch_dict [] name)
    as Hhas.
  pose proof (fun l1 l2 x k v =>
                fold_assign_last
                  (fun kv : string * value =>
                     Some (keras_name (fst kv), snd kv)) l1 l2 x k v [])
    as Hlast.
  cbv beta iota in Hwf, Hhas, Hlast.
  split; [apply Hwf; constructor|]. split; [|split].
  - intro name. rewrite <- has_in_keys, Hhas. split.
    + intros [Hh|((key & v) & v' & Hin & Hu)]; [discriminate|].
      injection Hu as <- _. exists key. split; [|reflexivity].
      apply in_map_iff. now exists (key, v).
    + intros (key & Hin & <-). right.
      apply in_map_iff in Hin. destruct Hin as ((key' & v) & E & Hin).
      simpl in E. subst key'. now exists (key, v), v.
  - intros d1 d2 key v -> Hno. apply Hlast; [reflexivity|].
    intros [key' v'] w Hin E. injection E as E _.
    rewrite Forall_forall in Hno. now apply (Hno _ Hin).
  - repeat split; reflexivity.
Qed.

End KerasParser.

(** ** Metric tags, the model index and the metadata *)

Section IndexMore.

Lemma inferred_tag_is_metric_tag
  (eval_results : option (Dict.t string value)) (tag : string) :
  In tag (Dict.keys (infer_metric_tags_from_eval_results eval_results)) ->
  In tag METRIC_TAGS.
Proof.
  rewrite <- has_in_keys, infer_metric_tags_as_assignments, fold_assign_has.
  intros [Hh|(key & name & _ & Hu)]; [discriminate|].
  apply metric_tag_of_name in Hu.
  destruct Hu as (_ & [(_ & Hin)|(_ & ->)]); [exact Hin|].
  apply mem_in. reflexivity.
Qed.

(** X7.  The inferred metric tags hold no tag twice, so at most the ten
    metric tags; and when several display names are recognized as the same
    tag, the last of them is the name kept under the tag. *)
Theorem infer_metric_tags_last_name
  (eval_results : option (Dict.t string value)) :
  Dict.wf (infer_metric_tags_from_eval_results eval_results)
  /\ (length (infer_metric_tags_from_eval_results eval_results) <= 10)%nat
  /\ (forall names1 names2 name tag,
        metric_names eval_results = names1 ++ name :: names2 ->
        spec_recognized_as name tag ->
        Forall (fun n => ~ spec_recognized_as n tag) names2 ->
        Dict.get tag (infer_metric_tags_from_eval_results eval_results)
        = Some name).
Proof.
  assert (Hwf : Dict.wf (infer_metric_tags_from_eval_results eval_results)).
  { rewrite infer_metric_tags_as_assignments. apply fold_assign_wf.
    constructor. }
  split; [exact Hwf|]. split.
  - change 10%nat with (length METRIC_TAGS).
    replace (length (infer_metric_tags_from_eval_results eval_results))
      with (length (Dict.keys
                      (infer_metric_tags_from_eval_results eval_results)))
      by apply length_map.
    apply NoDup_incl_length; [exact Hwf|].
    intros tag. apply inferred_tag_is_metric_tag.
  - intros names1 names2 name tag Hsplit Hr Hno.
    rewrite infer_metric_tags_as_assignments, Hsplit.
    apply fold_assign_last.
    + now apply metric_tag_of_name.
    + intros n w Hin Hu. apply metric_tag_of_name in Hu.
      destruct Hu as (_ & Hu). rewrite Forall_forall in Hno.
      now apply (Hno n Hin).
Qed.

Lemma infer_metric_tags_last_name_witness :
  Dict.get "accuracy"
    (infer_metric_tags_from_eval_results
       (Some [("Accuracy", VInt 1); ("accuracy", VInt 2); ("Loss", VInt 3)]))
  = Some "accuracy".
Proof.
  apply (proj2 (proj2 (infer_metric_tags_last_name _)) ["Accuracy"] ["Loss"]).
  - reflexivity.
  - left. split; [reflexivity|]. simpl. tauto.
  - repeat constructor. intros [(E & _)|(E & _)]; discriminate.
Defined.

Lemma insert_values_as_list_spec (metadata : metadata_map) (name : string)
  (values : option str_or_list) :
  _insert_values_as_list metadata name values
  = if has_values values
    then Dict.set name (MetaList (present_values values)) metadata
    else metadata.
Proof.
  unfold _insert_values_as_list, has_values, present_values.
  destruct values as [[s|l]|]; [reflexivity| |reflexivity].
  cbn [_listify].
  destruct (flat_map _ l) as [|x xs]; reflexivity.
Qed.

(** X2.  The keys of the metadata are, in this order, language, tags,
    datasets and metrics, each only when its field holds an entry that is
    not None, and then model-index, always; no list written to the metadata
    is empty or holds None. *)
Theorem create_metadata_keys (self : TrainingSummary) :
  exists metadata,
    create_metadata self = Ok metadata
    /\ Dict.keys metadata
       = (if has_values self.(language) then ["language"] else [])
         ++ (if has_values self.(tags) then ["tags"] else [])
         ++ (if has_values self.(dataset_tags) then ["datasets"] else [])
         ++ (match infer_metric_tags_from_eval_results self.(eval_results) with
             | [] => []
             | _ :: _ => ["metrics"]
             end)
         ++ ["model-index"]
    /\ (has_values self.(language) = true ->
        Dict.get "language" metadata
        = Some (MetaList (present_values self.(language))))
    /\ (forall name l, Dict.get name metadata = Some (MetaList l) -> l <> []).
Proof.
  destruct (create_metadata_total self) as (out & _ & Hm).
  eexists. split; [exact Hm|].
  rewrite !insert_values_as_list_spec.
  set (metrics := Some (Many (List.map Some
         (Dict.keys (infer_metric_tags_from_eval_results
                       self.(eval_results)))))).
  assert (Hmetrics : has_values metrics
                     = match infer_metric_tags_from_eval_results
                               self.(eval_results) with
                       | [] => false
                       | _ :: _ => true
                       end).
  { unfold metrics. now destruct (infer_metric_tags_from_eval_results _). }
  assert (Hne : forall v, has_values v = true -> present_values v <> []).
  { intros v Hv E. unfold has_values in Hv. now rewrite E in Hv. }
  rewrite Hmetrics.
  destruct (has_values self.(language)) eqn:Hl;
    destruct (has_values self.(tags)) eqn:Ht;
    destruct (has_values self.(dataset_tags)) eqn:Hd;
    destruct (infer_metric_tags_from_eval_results self.(eval_results))
      as [|m ms] eqn:Hi;
    (split; [reflexivity|]); (split; [try discriminate; intros _; reflexivity|]);
    intros name l Hg; cbn in Hg;
    repeat match type of Hg with
      | (if ?c then _ else _) = _ => destruct c
      end;
    try discriminate; injection Hg as <-;
    try (now apply Hne); unfold metrics, present_values; simpl; discriminate.
Qed.

End IndexMore.

(** ** The markdown table: widths, alignment, foreign keys *)

Section TableMore.

Variable str_float : float -> string.
Variable format_float : Z -> float -> string.

Local Abbreviation cell := (_maybe_round str_float format_float).
Local Abbreviation widen' := (widen str_float format_float).

Lemma foldM_app {A S : Type} (f : S -> A -> result S) (l1 l2 : list A) (s : S) :
  foldM f (l1 ++ l2) s = (s' <- foldM f l1 s ;; foldM f l2 s').
Proof.
  revert s. induction l1 as [|a l1 IH]; intro s; simpl; [reflexivity|].
  destruct (f s a) as [s'|e]; simpl; [apply IH | reflexivity].
Qed.

Lemma foldM_concat {A S : Type} (f : S -> A -> result S) (ls : list (list A)) :
  forall s,
    foldM (fun s l => foldM f l s) ls s = foldM f (List.concat ls) s.
Proof.
  induction ls as [|l ls IH]; intro s; simpl; [reflexivity|].
  rewrite foldM_app. destruct (foldM f l s); simpl; [apply IH | reflexivity].
Qed.

Lemma map_absent_key {V : Type} (k : string) (v : V) (d : Dict.t string V) :
  ~ In k (Dict.keys d) ->
  List.map (fun kw => if String.eqb (fst kw) k then (fst kw, v) else kw) d = d.
Proof.
  induction d as [|[k' v'] d IH]; simpl; intro Hnin; [reflexivity|].
  destruct (String.eqb k' k) eqn:E.
  - apply String.eqb_eq in E. subst. exfalso. apply Hnin. now left.
  - rewrite IH; [reflexivity|]. intro Hin. apply Hnin. now right.
Qed.

Lemma set_as_map {V : Type} (k : string) (v : V) (d : Dict.t string V) :
  Dict.wf d -> Dict.has k d = true ->
  Dict.set k v d
  = List.map (fun kw => if String.eqb (fst kw) k then (fst kw, v) else kw) d.
Proof.
  unfold Dict.wf, Dict.has. induction d as [|[k' v'] d IH]; simpl;
    intros Hwf Hh; [discriminate|].
  inversion Hwf as [|? ? Hnin Hwf']; subst.
  rewrite (String.eqb_sym k' k).
  destruct (String.eqb k k') eqn:E.
  - apply String.eqb_eq in E. subst k'. now rewrite map_absent_key.
  - now rewrite IH.
Qed.

(** One step of the loop over the cells, on widths with distinct keys. *)
Lemma widen_step (col_widths : Dict.t string Z) (key : string) (v : value) :
  Dict.wf col_widths -> Dict.has key col_widths = true ->
  widen' col_widths (key, v)
  = Ok (List.map
          (fun kw => (fst kw,
                      if String.eqb (fst kw) key
                      then Z.max (snd kw) (Str.len (cell v))
                      else snd kw))
          col_widths).
Proof.
  intros Hwf Hh. unfold widen, Dict.index.
  destruct (Dict.get key col_widths) as [w|] eqn:Hg;
    [|unfold Dict.has in Hh; now rewrite Hg in Hh].
  cbn [bind].
  assert (Hw : forall kw, In kw col_widths -> fst kw = key -> snd kw = w).
  { intros [k w'] Hin Hk. simpl in *. subst k.
    apply in_get in Hin; [|exact Hwf]. congruence. }
  destruct (w <? Str.len (cell v)) eqn:Hlt; f_equal.
  - rewrite set_as_map by assumption. apply map_ext_in.
    intros [k w'] Hin. cbn [fst snd].
    destruct (String.eqb k key) eqn:E; [|reflexivity].
    apply String.eqb_eq in E. pose proof (Hw _ Hin E) as Hs.
    simpl in Hs. subst w'. f_equal. apply Z.ltb_lt in Hlt. lia.
  - rewrite <- (map_id col_widths) at 1. apply map_ext_in.
    intros [k w'] Hin. cbn [fst snd].
    destruct (String.eqb k key) eqn:E; [|reflexivity].
    apply String.eqb_eq in E. pose proof (Hw _ Hin E) as Hs.
    simpl in Hs. subst w'. f_equal. apply Z.ltb_ge in Hlt. lia.
Qed.

(** The loop over the cells, in closed form. *)
Lemma widen_cells (cells : list (string * value)) :
  forall col_widths,
    Dict.wf col_widths ->
    Forall (fun kv => In (fst kv) (Dict.keys col_widths)) cells ->
    foldM widen' cells col_widths
    = Ok (List.map
            (fun kw => (fst kw,
                        grow str_float format_float (fst kw) cells (snd kw)))
            col_widths).
Proof.
  induction cells as [|[key v] cells IH]; intros col_widths Hwf Hin.
  - simpl. f_equal. rewrite <- (map_id col_widths) at 1.
    apply map_ext. now intros [k w].
  - inversion Hin as [|? ? Hk Hin']; subst. cbn [foldM].
    rewrite widen_step by (try assumption; now apply has_in_keys).
    cbn [bind]. rewrite IH.
    + f_equal. rewrite map_map. apply map_ext. intros [k w].
      cbn [fst snd]. unfold grow. cbn [fold_left fst snd].
      now rewrite (String.eqb_sym key k).
    + unfold Dict.wf, Dict.keys in *. now rewrite map_map.
    + unfold Dict.keys in *. now rewrite map_map.
Qed.

Lemma grow_ge (key : string) (cells : list (string * value)) : forall w,
  w <= grow str_float format_float key cells w.
Proof.
  induction cells as [|[k v] cells IH]; intro w; simpl; [lia|].
  destruct (String.eqb k key); [|apply IH].
  etransitivity; [|apply IH]. lia.
Qed.

Lemma grow_ge_cell (key : string) (v : value) (cells : list (string * value)) :
  In (key, v) cells ->
  forall w, Str.len (cell v) <= grow str_float format_float key cells w.
Proof.
  induction cells as [|[k v'] cells IH]; intros Hin w; [contradiction|].
  cbn [grow fold_left fst snd]. destruct Hin as [E|Hin].
  - injection E as -> ->. rewrite String.eqb_refl.
    etransitivity; [|apply grow_ge]. lia.
  - now apply IH.
Qed.

Lemma grow_attained (key : string) (cells : list (string * value)) : forall w,
  grow str_float format_float key cells w = w
  \/ exists v, In (key, v) cells
               /\ grow str_float format_float key cells w = Str.len (cell v).
Proof.
  induction cells as [|[k v] cells IH]; intro w; [now left|].
  cbn [grow fold_left fst snd].
  destruct (String.eqb k key) eqn:E.
  - apply String.eqb_eq in E. subst k.
    destruct (IH (Z.max w (Str.len (cell v)))) as [Hg|(v' & Hin & Hg)].
    + unfold grow in Hg. rewrite Hg.
      destruct (Z.max_spec w (Str.len (cell v))) as [(_ & ->)|(_ & ->)].
      * right. exists v. split; [now left | reflexivity].
      * now left.
    + right. exists v'. split; [now right | exact Hg].
  - destruct (IH w) as [Hg|(v' & Hin & Hg)]; [now left|].
    right. exists v'. split; [now right | exact Hg].
Qed.

Lemma initial_widths_wf (first : row) :
  Dict.wf first ->
  Dict.of_pairs (List.map (fun key => (key, Str.len key)) (Dict.keys first))
  = List.map (fun key => (key, Str.len key)) (Dict.keys first).
Proof.
  intro Hwf. apply of_pairs_nodup. rewrite map_map. simpl.
  rewrite map_id. exact Hwf.
Qed.

(** The table of rows whose keys are keys of the first row. *)
Lemma markdown_table_layout (first : row) (rest : list row) :
  Dict.wf first ->
  Forall (fun line => incl (Dict.keys line) (Dict.keys first)) rest ->
  make_markdown_table str_float format_float (Some (first :: rest))
  = Ok (_regular_table_line (Dict.keys first)
          (List.map (fun key =>
                       column_width str_float format_float key (first :: rest))
                    (Dict.keys first))
        +++ _second_table_line
              (List.map (fun key =>
                           column_width str_float format_float key
                             (first :: rest))
                        (Dict.keys first))
        +++ String.concat ""
              (List.map
                 (row_line str_float format_float
                    (List.map (fun key =>
                                 column_width str_float format_float key
                                   (first :: rest))
                              (Dict.keys first)))
                 (first :: rest))).
Proof.
  intros Hwf Hrest. unfold make_markdown_table.
  rewrite foldM_concat, initial_widths_wf by exact Hwf.
  rewrite widen_cells.
  - cbn [bind]. rewrite fold_left_append, append_assoc.
    unfold Dict.values. rewrite !map_map. cbn [fst snd].
    reflexivity.
  - unfold Dict.wf, Dict.keys. rewrite map_map. simpl. rewrite map_id.
    exact Hwf.
  - apply Forall_forall. intros [key v] Hin. apply in_concat in Hin.
    destruct Hin as (line & Hline & Hin).
    unfold Dict.keys at 1. rewrite map_map. simpl. rewrite map_id.
    assert (Hincl : incl (Dict.keys line) (Dict.keys first)).
    { destruct Hline as [<-|Hline]; [apply incl_refl|].
      rewrite Forall_forall in Hrest. now apply Hrest. }
    apply Hincl. apply in_map_iff. now exists (key, v).
Qed.

(** X11.  For a first row with distinct keys and rows whose keys are keys
    of the first row, [make_markdown_table] returns the header line, the
    separator line and one line per row, all laid out with one width per key
    of the first row; the width of a column is the greatest of the length of
    its key and the lengths of the cells under that key, after rounding. *)
Theorem make_markdown_table_widths (first : row) (rest : list row) :
  Dict.wf first ->
  Forall (fun line => incl (Dict.keys line) (Dict.keys first)) rest ->
  make_markdown_table str_float format_float (Some (first :: rest))
  = Ok (_regular_table_line (Dict.keys first)
          (List.map (fun key =>
                       column_width str_float format_float key (first :: rest))
                    (Dict.keys first))
        +++ _second_table_line
              (List.map (fun key =>
                           column_width str_float format_float key
                             (first :: rest))
                        (Dict.keys first))
        +++ String.concat ""
              (List.map
                 (row_line str_float format_float
                    (List.map (fun key =>
                                 column_width str_float format_float key
                                   (first :: rest))
                              (Dict.keys first)))
                 (first :: rest)))
  /\ (forall key,
        Str.len key <= column_width str_float format_float key (first :: rest)
        /\ (forall line v,
              In line (first :: rest) -> In (key, v) line ->
              Str.len (cell v)
              <= column_width str_float format_float key (first :: rest))
        /\ (column_width str_float format_float key (first :: rest)
            = Str.len key
            \/ exists line v,
                 In line (first :: rest) /\ In (key, v) line
                 /\ column_width str_float format_float key (first :: rest)
                    = Str.len (cell v))).
Proof.
  intros Hwf Hrest. split; [now apply markdown_table_layout|].
  intro key. unfold column_width. split; [apply grow_ge|]. split.
  - intros line v Hline Hin. apply grow_ge_cell.
    apply in_concat. now exists line.
  - destruct (grow_attained key (List.concat (first :: rest)) (Str.len key))
      as [Hg|(v & Hin & Hg)]; [now left|].
    right. apply in_concat in Hin. destruct Hin as (line & Hline & Hin).
    now exists line, v.
Qed.

Lemma length_append (a b : string) :
  String.length (a +++ b) = (String.length a + String.length b)%nat.
Proof. induction a as [|c a IH]; simpl; [reflexivity | now rewrite IH]. Qed.

Lemma length_concat_empty (l : list string) :
  String.length (String.concat "" l) = list_sum (List.map String.length l).
Proof.
  induction l as [|a l IH]; [reflexivity|].
  destruct l as [|b l]; [simpl; lia|].
  change (String.concat "" (a :: b :: l))
    with (a +++ String.concat "" (b :: l)).
  rewrite length_append, IH. reflexivity.
Qed.

Lemma length_repeat_char (c : ascii) (n : Z) :
  String.length (Str.repeat (String c EmptyString) n) = Z.to_nat n.
Proof.
  unfold Str.repeat. rewrite length_concat_empty.
  induction (Z.to_nat n) as [|m IH]; [reflexivity|].
  simpl. f_equal. exact IH.
Qed.

(** The length of a line whose cells fit their columns. *)
Lemma regular_table_line_length (values : list string) (col_widths : list Z) :
  Forall2 (fun v w => Str.len v <= w) values col_widths ->
  String.length (_regular_table_line values col_widths)
  = (list_sum (List.map (fun w => Z.to_nat (w + 3)) col_widths) + 2)%nat.
Proof.
  intro HF. unfold _regular_table_line, Str.join.
  rewrite length_append, length_concat_empty. f_equal.
  induction HF as [|v w values col_widths Hvw _ IH]; [reflexivity|].
  cbn [List.combine List.map].
  match goal with |- list_sum (?a :: ?l) = list_sum (?b :: ?m) =>
    change (a + list_sum l = b + list_sum m)%nat end.
  rewrite IH. f_equal.
  rewrite !length_append, length_repeat_char. unfold Str.len in *.
  cbn [String.length]. lia.
Qed.

Lemma second_table_line_length (col_widths : list Z) :
  Forall (fun w => 0 <= w) col_widths ->
  String.length (_second_table_line col_widths)
  = (list_sum (List.map (fun w => Z.to_nat (w + 3)) col_widths) + 2)%nat.
Proof.
  intro HF. unfold _second_table_line, Str.join.
  rewrite length_append, length_concat_empty. f_equal.
  induction HF as [|w col_widths Hw _ IH]; [reflexivity|].
  cbn [List.map].
  match goal with |- list_sum (?a :: ?l) = list_sum (?b :: ?m) =>
    change (a + list_sum l = b + list_sum m)%nat end.
  rewrite IH. f_equal.
  rewrite !length_append, length_repeat_char. cbn [String.length]. lia.
Qed.

(** X12.  In the table of rows that all have the keys of the first row, in
    its order, every line has the same length: the header line, the
    separator line and the line of every row are as long as the widths of
    the columns plus three characters per column and the two characters
    that end a line. *)
Theorem make_markdown_table_aligned (first : row) (rest : list row) :
  Forall (fun line => Dict.keys line = Dict.keys first) rest ->
  String.length
    (_regular_table_line (Dict.keys first)
       (List.map (fun key =>
                    column_width str_float format_float key (first :: rest))
                 (Dict.keys first)))
  = (list_sum
       (List.map (fun key =>
                    Z.to_nat (column_width str_float format_float key
                                (first :: rest) + 3))
                 (Dict.keys first)) + 2)%nat
  /\ String.length
       (_second_table_line
          (List.map (fun key =>
                       column_width str_float format_float key (first :: rest))
                    (Dict.keys first)))
     = (list_sum
          (List.map (fun key =>
                       Z.to_nat (column_width str_float format_float key
                                   (first :: rest) + 3))
                    (Dict.keys first)) + 2)%nat
  /\ Forall
       (fun line =>
          String.length
            (row_line str_float format_float
               (List.map (fun key =>
                            column_width str_float format_float key
                              (first :: rest))
                         (Dict.keys first))
               line)
          = (list_sum
               (List.map (fun key =>
                            Z.to_nat (column_width str_float format_float key
                                        (first :: rest) + 3))
                         (Dict.keys first)) + 2)%nat)
       (first :: rest).
Proof.
  intro Hrest.
  assert (Hsum : list_sum
                   (List.map (fun key =>
                                Z.to_nat (column_width str_float format_float
                                            key (first :: rest) + 3))
                             (Dict.keys first))
                 = list_sum
                     (List.map (fun w => Z.to_nat (w + 3))
                        (List.map (fun key =>
                                     column_width str_float format_float key
                                       (first :: rest))
                                  (Dict.keys first))))
    by now rewrite map_map.
  rewrite Hsum. split; [|split].
  - apply regular_table_line_length.
    assert (Hks : forall ks,
              Forall2 (fun v w => Str.len v <= w) ks
                (List.map (fun key =>
                             column_width str_float format_float key
                               (first :: rest)) ks)).
    { induction ks as [|k ks IH]; [constructor|].
      constructor; [apply grow_ge | exact IH]. }
    apply Hks.
  - apply second_table_line_length. apply Forall_forall. intros w Hw.
    apply in_map_iff in Hw. destruct Hw as (k & <- & _).
    etransitivity; [|apply grow_ge]. unfold Str.len. lia.
  - assert (Hall : Forall (fun line => Dict.keys line = Dict.keys first)
                          (first :: rest)) by now constructor.
    apply Forall_forall. intros line Hline.
    rewrite Forall_forall in Hall. specialize (Hall line Hline).
    unfold row_line. apply regular_table_line_length. rewrite <- Hall.
    assert (Hcells : forall kv, In kv line ->
                       Str.len (cell (snd kv))
                       <= column_width str_float format_float (fst kv)
                            (first :: rest)).
    { intros [k v] Hin. apply grow_ge_cell. apply in_concat. now exists line. }
    clear Hall Hline. induction line as [|[k v] line IH]; [constructor|].
    cbn [Dict.keys Dict.values List.map fst snd]. constructor.
    + apply (Hcells (k, v)). now left.
    + apply IH. intros kv Hin. apply Hcells. now right.
Qed.

Lemma widen_raises (col_widths : Dict.t string Z) (kv : string * value)
  (e : exn) :
  widen' col_widths kv = Raise e -> e = KeyError.
Proof.
  destruct kv as [key v]. unfold widen, Dict.index.
  destruct (Dict.get key col_widths) as [w|]; cbn [bind].
  - destruct (_ <? _); discriminate.
  - now intros [= <-].
Qed.

Lemma widen_ok (col_widths col_widths' : Dict.t string Z) (key : string)
  (v : value) :
  widen' col_widths (key, v) = Ok col_widths' ->
  Dict.has key col_widths = true
  /\ (forall k, Dict.has k col_widths' = true <-> Dict.has k col_widths = true).
Proof.
  unfold widen, Dict.index, Dict.has.
  destruct (Dict.get key col_widths) as [w|] eqn:Hg; cbn [bind];
    [|discriminate].
  destruct (_ <? _); intros [= <-]; (split; [reflexivity|]); [|tauto].
  intro k. fold (Dict.has k (Dict.set key (Str.len (cell v)) col_widths)).
  rewrite has_set. unfold Dict.has. split; [|now right].
  intros [->|Hk]; [now rewrite Hg | exact Hk].
Qed.

Lemma widen_cells_result (cells : list (string * value)) :
  forall col_widths,
    (exists col_widths',
       foldM widen' cells col_widths = Ok col_widths'
       /\ Forall (fun kv => Dict.has (fst kv) col_widths = true) cells)
    \/ foldM widen' cells col_widths = Raise KeyError.
Proof.
  induction cells as [|[key v] cells IH]; intro col_widths; cbn [foldM].
  - left. now eexists.
  - destruct (widen' col_widths (key, v)) as [cw|e] eqn:Hw; cbn [bind].
    + apply widen_ok in Hw. destruct Hw as (Hkey & Hsame).
      destruct (IH cw) as [(cw' & -> & HF) | -> ]; [left | now right].
      exists cw'. split; [reflexivity|]. constructor; [exact Hkey|].
      eapply Forall_impl; [|exact HF]. intros kv. apply Hsame.
    + right. apply widen_raises in Hw. now subst.
Qed.

(** X13.  When a row holds a key that the first row does not hold,
    [make_markdown_table] raises KeyError. *)
Theorem make_markdown_table_foreign_key (first : row) (rest : list row)
  (line : row) (key : string) :
  In line rest -> In key (Dict.keys line) -> ~ In key (Dict.keys first) ->
  make_markdown_table str_float format_float (Some (first :: rest))
  = Raise KeyError.
Proof.
  intros Hline Hkey Hforeign. unfold make_markdown_table.
  rewrite foldM_concat.
  match goal with |- context [foldM _ ?cells ?cw] =>
    destruct (widen_cells_result cells cw) as [(cw' & _ & HF) | -> ] end;
    [|reflexivity].
  exfalso. apply Hforeign.
  apply in_map_iff in Hkey. destruct Hkey as ((k & v) & E & Hin).
  simpl in E. subst k.
  rewrite Forall_forall in HF.
  assert (Hc : In (key, v) (List.concat (first :: rest)))
    by (apply in_concat; exists line; split; [now right | exact Hin]).
  specialize (HF _ Hc). simpl in HF. apply of_pairs_has in HF.
  rewrite map_map in HF. simpl in HF. now rewrite map_id in HF.
Qed.

End TableMore.

Lemma make_markdown_table_widths_witness :
  exists col_widths,
    col_widths = [13; 5; 4; 15]
    /\ make_markdown_table demo_str_float demo_format_float (Some [demo_row])
       = Ok (_regular_table_line (Dict.keys demo_row) col_widths
             +++ _second_table_line col_widths
             +++ String.concat ""
                   (List.map
                      (row_line demo_str_float demo_format_float col_widths)
                      [demo_row])).
Proof.
  exists (List.map (fun key =>
                      column_width demo_str_float demo_format_float key
                        [demo_row])
                   (Dict.keys demo_row)).
  split; [reflexivity|].
  apply (make_markdown_table_widths demo_str_float demo_format_float
           demo_row []).
  - unfold Dict.wf. simpl.
    repeat (constructor; [simpl; intuition discriminate|]). constructor.
  - constructor.
Defined.

Lemma make_markdown_table_foreign_key_witness :
  make_markdown_table demo_str_float demo_format_float
    (Some [ demo_row; [("Epoch", VInt 2); ("Accuracy", VFloat 0.5)] ])
  = Raise KeyError.
Proof.
  apply (make_markdown_table_foreign_key demo_str_float demo_format_float
           demo_row _ [("Epoch", VInt 2); ("Accuracy", VFloat 0.5)] "Accuracy").
  - now left.
  - right. now left.
  - simpl. intuition discriminate.
Defined.

Lemma make_markdown_table_aligned_witness :
  String.length
    (row_line demo_str_float demo_format_float
       (List.map (fun key =>
                    column_width demo_str_float demo_format_float key
                      [demo_row])
                 (Dict.keys demo_row))
       demo_row)
  = 51%nat.
Proof.
  pose proof (proj2 (proj2 (make_markdown_table_aligned
                              demo_str_float demo_format_float demo_row []
                              (Forall_nil _)))) as Hall.
  rewrite Forall_forall in Hall. rewrite (Hall demo_row (or_introl eq_refl)).
  reflexivity.
Defined.

(** ** The header of the markdown table *)

Lemma combine_map_self {A B : Type} (f : A -> B) (l : list A) :
  List.combine l (List.map f l) = List.map (fun x => (x, f x)) l.
Proof.
  induction l as [|x l IH]; simpl; [reflexivity | now rewrite IH].
Qed.

(** A line of cells laid out with a width per cell: each cell after "| ",
    followed by spaces up to its width and one more. *)
Lemma regular_table_line_cells (values : list string) (width : string -> Z) :
  _regular_table_line values (List.map width values)
  = String.concat ""
      (List.map (fun v => "| " +++ v +++ Str.repeat " " (width v - Str.len v + 1))
                values)
    +++ "|" +++ Str.nl.
Proof.
  unfold _regular_table_line, Str.join. cbv zeta.
  rewrite combine_map_self, map_map. reflexivity.
Qed.

Section TableHeader.

Variable str_float : float -> string.
Variable format_float : Z -> float -> string.

(** C10.  [make_markdown_table] returns the empty string, and raises
    nothing, for [None] and for the empty list of rows.  For a first row
    (with distinct keys, as every dict has) followed by rows with the same
    keys it returns a table whose first line is the header: the keys of the
    first row, in order, each written after "| " and padded with spaces to
    the width of its column and one more, and the line closed by "|" and a
    newline.  The width of a column is the greatest of the length of its key
    and the lengths of its cells, so no key is cut.  The separator line and
    one line per row follow. *)
Theorem make_markdown_table_header :
  make_markdown_table str_float format_float None = Ok ""
  /\ make_markdown_table str_float format_float (Some []) = Ok ""
  /\ (forall (first : row) (rest : list row),
        Dict.wf first ->
        Forall (fun line => Dict.keys line = Dict.keys first) rest ->
        let width :=
          fun key => column_width str_float format_float key (first :: rest) in
        let col_widths := List.map width (Dict.keys first) in
        make_markdown_table str_float format_float (Some (first :: rest))
        = Ok ((String.concat ""
                 (List.map
                    (fun key =>
                       "| " +++ key
                       +++ Str.repeat " " (width key - Str.len key + 1))
                    (Dict.keys first))
               +++ "|" +++ Str.nl)
              +++ _second_table_line col_widths
              +++ String.concat ""
                    (List.map
                       (fun line =>
                          _regular_table_line
                            (List.map (_maybe_round str_float format_float)
                                      (Dict.values line))
                            col_widths)
                       (first :: rest)))
        /\ Forall (fun key => Str.len key <= width key) (Dict.keys first)
        /\ length col_widths = length (Dict.keys first)).
Proof.
  split; [reflexivity|]. split; [reflexivity|].
  intros first rest Hwf Hkeys width col_widths. subst col_widths width.
  split; [|split].
  - rewrite (markdown_table_layout str_float format_float first rest Hwf).
    + rewrite (regular_table_line_cells (Dict.keys first)
                 (fun key =>
                    column_width str_float format_float key (first :: rest))).
      reflexivity.
    + eapply Forall_impl; [|exact Hkeys]. cbv beta. intros line ->.
      apply incl_refl.
  - apply Forall_forall. intros key _. apply grow_ge.
  - apply length_map.
Qed.

End TableHeader.

Lemma make_markdown_table_header_witness :
  exists body,
    make_markdown_table demo_str_float demo_format_float (Some [demo_row])
    = Ok (("| Training Loss | Epoch | Step | Validation Loss |" +++ Str.nl)
          +++ body).
Proof.
  assert (Hwf : Dict.wf demo_row).
  { unfold Dict.wf. simpl.
    repeat (constructor; [simpl; intuition discriminate|]). constructor. }
  destruct (proj2 (proj2 (make_markdown_table_header
                            demo_str_float demo_format_float))
              demo_row [] Hwf (Forall_nil _)) as [E _].
  rewrite E. eexists. f_equal.
Defined.

(** ** The model card and the hyperparameters *)

Section CardMore.

Variable str_float : float -> string.
Variable format_float : Z -> float -> string.
Variable yaml_dump : metadata_map -> string.

Lemma metadata_block_total (self : TrainingSummary) :
  exists block, metadata_block yaml_dump self = Ok block.
Proof.
  destruct (create_metadata_total self) as (out & _ & Hm).
  unfold metadata_block. rewrite Hm. cbn [bind].
  destruct (_ >? 0); now eexists.
Qed.

Lemma dataset_sentence_total (self : TrainingSummary) :
  self.(dataset) <> Some (Many []) ->
  exists sentence, dataset_sentence self = Ok sentence.
Proof.
  intro Hne. unfold dataset_sentence.
  destruct self.(dataset) as [[s|[|a [|b l]]]|].
  - now eexists.
  - congruence.
  - now eexists.
  - rewrite (list_index_last (a :: b :: l) None) by discriminate.
    cbn [bind]. now eexists.
  - now eexists.
Qed.

(** X14.  [to_model_card] raises IndexError when the datasets of the
    summary are an empty list.  Otherwise it returns a card whenever the
    table of evaluation lines can be laid out: when there are no evaluation
    lines, or when the first line has distinct keys and the other lines hold
    only keys of the first. *)
Theorem to_model_card_returns (libs : libraries) (self : TrainingSummary) :
  (self.(dataset) = Some (Many []) ->
   to_model_card str_float format_float yaml_dump libs self
   = Raise IndexError)
  /\ (self.(dataset) <> Some (Many []) ->
      match self.(eval_lines) with
      | Some (first :: rest) =>
          Dict.wf first
          /\ Forall (fun line => incl (Dict.keys line) (Dict.keys first)) rest
      | _ => True
      end ->
      exists card,
        to_model_card str_float format_float yaml_dump libs self = Ok card).
Proof.
  destruct (metadata_block_total self) as (block & Hblock).
  unfold to_model_card. rewrite Hblock. cbn [bind]. cbv zeta. split.
  - intro Hd. unfold dataset_sentence. rewrite Hd. reflexivity.
  - intros Hd Hlines.
    destruct (dataset_sentence_total self Hd) as (sentence & ->).
    cbn [bind].
    destruct self.(eval_lines) as [[|first rest]|]; cbn [bind].
    + change (make_markdown_table str_float format_float (Some []))
        with (@Ok string ""). cbn [bind]. now eexists.
    + destruct Hlines as (Hwf & Hrest).
      rewrite (markdown_table_layout str_float format_float first rest Hwf Hrest).
      cbn [bind]. now eexists.
    + now eexists.
Qed.

End CardMore.

Lemma to_model_card_returns_witness :
  exists card,
    to_model_card demo_str_float demo_format_float PlainYaml.dump
      {| torch_version := Some "1.10"; tensorflow_version := None;
         datasets_version := None; tokenizers_version := None |}
      translation_summary = Ok card.
Proof.
  apply (to_model_card_returns demo_str_float demo_format_float PlainYaml.dump).
  - discriminate.
  - exact I.
Defined.

Lemma join_with_comma (f : option string -> string)
  (front : list (option string)) (a : option string) :
  Str.join ", " (List.map f (front ++ [a]))
  = String.concat "" (List.map (fun ds => f ds +++ ", ") front) +++ f a.
Proof.
  unfold Str.join. induction front as [|x front IH].
  - reflexivity.
  - cbn [app List.map]. change (String.concat "" (?s :: ?l))
      with (String.concat "" (s :: l)).
    destruct (List.map f (front ++ [a])) as [|y l] eqn:E.
    + destruct front; discriminate E.
    + change (String.concat ", " (f x :: y :: l))
        with (f x +++ ", " +++ String.concat ", " (y :: l)).
      rewrite IH.
      destruct (List.map (fun ds => f ds +++ ", ") front) as [|z m] eqn:E'.
      * cbn [String.concat]. now rewrite append_assoc.
      * change (String.concat "" ((f x +++ ", ") :: z :: m))
          with ((f x +++ ", ") +++ "" +++ String.concat "" (z :: m)).
        cbn [String.append]. now rewrite !append_assoc.
Qed.

Lemma dataset_sentence_many (front : list (option string))
  (a b : option string) :
  (last <- list_index (front ++ [a; b]) (-1) ;;
   Ok (Str.join ", " (List.map (fun ds => "the " +++ str_opt ds)
                               (List.removelast (front ++ [a; b])))
       +++ " and the " +++ str_opt last +++ " datasets."))
  = Ok (String.concat ""
          (List.map (fun ds => "the " +++ str_opt ds +++ ", ") front)
        +++ "the " +++ str_opt a +++ " and the " +++ str_opt b
        +++ " datasets.").
Proof.
  rewrite (list_index_last (front ++ [a; b]) None)
    by (destruct front; discriminate).
  cbn [bind].
  change [a; b] with ([a] ++ [b]). rewrite app_assoc.
  rewrite last_last, removelast_last.
  rewrite (join_with_comma (fun ds => "the " +++ str_opt ds)).
  rewrite append_assoc. reflexivity.
Qed.

(** X1.  The sentence on the data in the model card, for every value of
    the datasets of the summary: "an unknown dataset." for None, "the X
    dataset." for a string or a one-element list, and for a longer list
    every entry as "the X", the entries separated by ", " but the last two by
    " and ", then " datasets."; an entry None is printed as None.  The
    empty list raises IndexError. *)
Theorem dataset_sentence_lists (self : TrainingSummary) :
  (self.(dataset) = None ->
   dataset_sentence self = Ok "an unknown dataset.")
  /\ (forall s, self.(dataset) = Some (Single s) ->
                dataset_sentence self = Ok ("the " +++ s +++ " dataset."))
  /\ (forall ds, self.(dataset) = Some (Many [ds]) ->
                 dataset_sentence self
                 = Ok ("the " +++ str_opt ds +++ " dataset."))
  /\ (forall front a b,
        self.(dataset) = Some (Many (front ++ [a; b])) ->
        dataset_sentence self
        = Ok (String.concat ""
                (List.map (fun ds => "the " +++ str_opt ds +++ ", ") front)
              +++ "the " +++ str_opt a +++ " and the " +++ str_opt b
              +++ " datasets."))
  /\ (self.(dataset) = Some (Many []) ->
      dataset_sentence self = Raise IndexError).
Proof.
  unfold dataset_sentence.
  split; [now intros ->|]. split; [now intros s ->|].
  split; [now intros ds ->|]. split; [|now intros ->].
  intros front a b ->.
  destruct front as [|x [|y front]].
  - exact (dataset_sentence_many [] a b).
  - exact (dataset_sentence_many [x] a b).
  - exact (dataset_sentence_many (x :: y :: front) a b).
Qed.

Section HyperparametersMore.

Variable str_float : float -> string.

(** Follows a lookup through the assignments of
    [extract_hyperparameters_from_trainer]. *)
Ltac follow_assignments :=
  repeat first
    [ rewrite get_set_if_neq by discriminate
    | rewrite get_set_neq by discriminate
    | rewrite get_set_if_eq
    | rewrite get_set_eq
    | match goal with
      | |- context [Dict.get _ (if ?c then _ else _)] => destruct c
      | |- context [Dict.get _ (match ?m with
                                | NOT_PARALLEL => _
                                | NOT_DISTRIBUTED => _
                                | DISTRIBUTED => _
                                | OTHER_MODE _ => _
                                end)] => destruct m
      end ].

Ltac follow :=
  unfold extract_hyperparameters_from_trainer; cbv zeta;
  follow_assignments; try reflexivity.

(** X15.  The hyperparameters of a Trainer always hold the learning rate,
    the two batch sizes and the seed of its arguments, the name of the
    learning-rate scheduler, and the optimizer: "Adafactor", or the Adam
    description with the betas and the epsilon. *)
Theorem hyperparameters_always_present (trainer : Trainer) :
  Dict.get "learning_rate" (extract_hyperparameters_from_trainer str_float trainer)
  = Some (VFloat trainer.(args).(learning_rate))
  /\ Dict.get "train_batch_size"
       (extract_hyperparameters_from_trainer str_float trainer)
     = Some (VInt trainer.(args).(train_batch_size))
  /\ Dict.get "eval_batch_size"
       (extract_hyperparameters_from_trainer str_float trainer)
     = Some (VInt trainer.(args).(eval_batch_size))
  /\ Dict.get "seed" (extract_hyperparameters_from_trainer str_float trainer)
     = Some (VInt trainer.(args).(seed))
  /\ Dict.get "lr_scheduler_type"
       (extract_hyperparameters_from_trainer str_float trainer)
     = Some (VStr trainer.(args).(lr_scheduler_type))
  /\ Dict.get "optimizer"
       (extract_hyperparameters_from_trainer str_float trainer)
     = Some (VStr (if trainer.(args).(adafactor) then "Adafactor"
                   else "Adam with betas=("
                        +++ str_float trainer.(args).(adam_beta1) +++ ","
                        +++ str_float trainer.(args).(adam_beta2)
                        +++ ") and epsilon="
                        +++ str_float trainer.(args).(adam_epsilon))).
Proof.
  repeat split; follow.
Qed.

(** X16.  The other hyperparameters are written under these conditions and
    no assignment overwrites another: the number of devices and the
    gradient accumulation steps only when greater than 1; the distributed
    type only in a parallel mode other than NOT_PARALLEL and NOT_DISTRIBUTED,
    "multi-GPU" for DISTRIBUTED and the mode's value otherwise; the total
    train batch size only when it differs from the batch size, and then it is
    [train_batch_size * world_size * gradient_accumulation_steps]; the
    training steps when [max_steps] is not -1 and the number of epochs
    otherwise, never both; the warmup steps only when not 0; and the mixed
    precision label only with fp16, "Native AMP" with amp, the Apex level
    with apex and no amp. *)
Theorem hyperparameters_conditional (trainer : Trainer) :
  Dict.get "num_devices" (extract_hyperparameters_from_trainer str_float trainer)
  = (if trainer.(args).(world_size) >? 1
     then Some (VInt trainer.(args).(world_size)) else None)
  /\ Dict.get "gradient_accumulation_steps"
       (extract_hyperparameters_from_trainer str_float trainer)
     = (if trainer.(args).(gradient_accumulation_steps) >? 1
        then Some (VInt trainer.(args).(gradient_accumulation_steps))
        else None)
  /\ Dict.get "distributed_type"
       (extract_hyperparameters_from_trainer str_float trainer)
     = match trainer.(args).(parallel_mode) with
       | NOT_PARALLEL | NOT_DISTRIBUTED => None
       | DISTRIBUTED => Some (VStr "multi-GPU")
       | OTHER_MODE v => Some (VStr v)
       end
  /\ Dict.get "total_train_batch_size"
       (extract_hyperparameters_from_trainer str_float trainer)
     = (if trainer.(args).(train_batch_size) * trainer.(args).(world_size)
           * trainer.(args).(gradient_accumulation_steps)
           =? trainer.(args).(train_batch_size)
        then None
        else Some (VInt (trainer.(args).(train_batch_size)
                         * trainer.(args).(world_size)
                         * trainer.(args).(gradient_accumulation_steps))))
  /\ Dict.get "training_steps"
       (extract_hyperparameters_from_trainer str_float trainer)
     = (if trainer.(args).(max_steps) =? -1 then None
        else Some (VInt trainer.(args).(max_steps)))
  /\ Dict.get "num_epochs"
       (extract_hyperparameters_from_trainer str_float trainer)
     = (if trainer.(args).(max_steps) =? -1
        then Some (VFloat trainer.(args).(num_train_epochs)) else None)
  /\ Dict.get "lr_scheduler_warmup_steps"
       (extract_hyperparameters_from_trainer str_float trainer)
     = (if trainer.(args).(warmup_steps) =? 0 then None
        else Some (VInt trainer.(args).(warmup_steps)))
  /\ Dict.get "mixed_precision_training"
       (extract_hyperparameters_from_trainer str_float trainer)
     = (if trainer.(args).(fp16) then
          if trainer.(use_amp) then Some (VStr "Native AMP")
          else if trainer.(use_apex)
               then Some (VStr ("Apex, opt level "
                                +++ trainer.(args).(fp16_opt_level)))
               else None
        else None).
Proof.
  split; [|split; [|split; [|split; [apply total_train_batch_size_entry|]]]].
  - follow.
  - follow.
  - follow.
  - split; [|split; [|split]].
    + unfold extract_hyperparameters_from_trainer; cbv zeta.
      destruct (trainer.(args).(max_steps) =? -1); cbn [negb];
        follow_assignments; reflexivity.
    + unfold extract_hyperparameters_from_trainer; cbv zeta.
      destruct (trainer.(args).(max_steps) =? -1); cbn [negb];
        follow_assignments; reflexivity.
    + unfold extract_hyperparameters_from_trainer; cbv zeta.
      destruct (trainer.(args).(warmup_steps) =? 0); cbn [negb];
        follow_assignments; reflexivity.
    + follow.
Qed.

End HyperparametersMore.

(** ** The summary of a Trainer *)

Lemma opt_mem_in (x : option string) (l : list (option string)) :
  opt_mem x l = true <-> In x l.
Proof.
  unfold opt_mem. rewrite existsb_exists. split.
  - intros (y & Hy & E). apply keqb_spec in E. now subst.
  - intro Hin. exists x. split; [exact Hin | now apply keqb_spec].
Qed.

Lemma parse_log_history_returns (log_history : list record) :
  exists out, parse_log_history log_history = Ok out.
Proof.
  destruct (eval_loss_loop_found log_history (length log_history) (le_n _))
    as (idx & Hloop & Hb & Hf).
  assert (Hidx : (idx >? 0) = true ->
                 exists r, list_index log_history idx = Ok r).
  { intro Hpos. apply Z.gtb_lt in Hpos.
    destruct Hf as (r & Hr & _); [lia|]. now exists r. }
  destruct (no_train_runtime_dec log_history) as [HT|HT].
  - rewrite (parse_log_history_eval_only _ HT), Hloop. cbn [bind].
    destruct (idx >? 0); [|now eexists].
    destruct Hidx as (r & ->); [reflexivity|]. cbn [bind]. now eexists.
  - destruct (parse_log_history_trained _ HT) as (t & lines & _ & ->).
    rewrite Hloop. cbn [bind].
    destruct (idx >? 0); [|now eexists].
    destruct Hidx as (r & ->); [reflexivity|]. cbn [bind]. now eexists.
Qed.

Lemma trainer_tags_built (tags : option str_or_list) :
  exists t,
    trainer_tags tags = Built (Some t)
    /\ (t = Single "generated_from_trainer"
        \/ exists l, t = Many l /\ In (Some "generated_from_trainer") l)
    /\ (forall l, tags = Some (Many l) -> exists added, t = Many (l ++ added))
    /\ (forall s, tags = Some (Single s) -> s <> "generated_from_trainer" ->
                  t = Many [Some s; Some "generated_from_trainer"]).
Proof.
  destruct tags as [[s|l]|]; unfold trainer_tags.
  - destruct (String.eqb s "generated_from_trainer") eqn:E; cbn [negb].
    + apply String.eqb_eq in E. subst s. eexists. split; [reflexivity|].
      split; [now left|]. split; [discriminate|].
      intros s [= <-] Hne. congruence.
    + eexists. split; [reflexivity|]. split.
      * right. eexists. split; [reflexivity|]. right. now left.
      * split; [discriminate|]. now intros s' [= <-] _.
  - destruct (opt_mem (Some "generated_from_trainer") l) eqn:E; cbn [negb].
    + apply opt_mem_in in E. eexists. split; [reflexivity|]. split.
      * right. now exists l.
      * split; [|discriminate]. intros l' [= <-]. exists [].
        now rewrite app_nil_r.
    + eexists. split; [reflexivity|]. split.
      * right. eexists. split; [reflexivity|]. apply in_or_app. right. now left.
      * split; [|discriminate]. intros l' [= <-]. now eexists.
  - eexists. split; [reflexivity|]. split.
    + right. eexists. split; [reflexivity|]. now left.
    + split; discriminate.
Qed.

Lemma get_mapping_values_fold (vs : list mapping_value) (acc : list string)
  (x : string) :
  In x (fold_left
          (fun result v =>
             match v with
             | ClassNames l => result ++ l
             | ClassName s => result ++ [s]
             end) vs acc)
  <-> In x acc
      \/ exists v, In v vs
                   /\ (v = ClassName x \/ exists l, v = ClassNames l /\ In x l).
Proof.
  revert acc. induction vs as [|v vs IH]; intro acc; cbn [fold_left].
  - split; [now left|]. intros [H|(v & [] & _)]. exact H.
  - rewrite IH. split.
    + intros [H|(w & Hw & Hx)].
      * destruct v as [s|l]; apply in_app_or in H; destruct H as [H|H].
        -- now left.
        -- destruct H as [<-|[]]. right. exists (ClassName s).
           split; [now left|now left].
        -- now left.
        -- right. exists (ClassNames l). split; [now left|].
           right. now exists l.
      * right. exists w. split; [now right|exact Hx].
    + intros [H|(w & [<-|Hw] & Hx)].
      * left. destruct v; apply in_or_app; now left.
      * left. destruct Hx as [->|(l & -> & Hl)]; apply in_or_app; right;
          [now left|exact Hl].
      * right. now exists w.
Qed.

(** The loop that keeps the last task whose mapping lists the class name. *)
Lemma last_task_loop (cls : string)
  (mappings : list (string * Dict.t string mapping_value))
  (init : option str_or_list) :
  let found :=
    fold_left
      (fun tasks (tm : string * Dict.t string mapping_value) =>
         let '(task, mapping) := tm in
         if Str.mem cls (_get_mapping_values mapping)
         then Some (Single task) else tasks)
      mappings init in
  (found = init
   /\ forall task mapping, In (task, mapping) mappings ->
                           ~ In cls (_get_mapping_values mapping))
  \/ (exists before task mapping after,
        mappings = before ++ (task, mapping) :: after
        /\ In cls (_get_mapping_values mapping)
        /\ (forall t m, In (t, m) after -> ~ In cls (_get_mapping_values m))
        /\ found = Some (Single task)).
Proof.
  cbv zeta. induction mappings as [|[task mapping] l IH] using rev_ind.
  - left. split; [reflexivity|]. intros ? ? [].
  - rewrite fold_left_app. cbn [fold_left].
    destruct (Str.mem cls (_get_mapping_values mapping)) eqn:E.
    + right. exists l, task, mapping, []. apply mem_in in E.
      repeat split; [exact E|]. intros ? ? [].
    + assert (Hno : ~ In cls (_get_mapping_values mapping)).
      { intro H. apply mem_in in H. congruence. }
      destruct IH as [[Hf Hn]|(before & t & m & after & -> & Hin & Hafter & Hf)].
      * left. split; [exact Hf|]. intros t m Hm. apply in_app_or in Hm.
        destruct Hm as [Hm|[[= <- <-]|[]]]; [now apply (Hn t m)|exact Hno].
      * right. exists before, t, m, (after ++ [(task, mapping)]).
        split; [now rewrite <- app_assoc|].
        split; [exact Hin|]. split; [|exact Hf].
        intros t' m' Hm. apply in_app_or in Hm.
        destruct Hm as [Hm|[[= <- <-]|[]]]; [now apply (Hafter t' m')|exact Hno].
Qed.

Section FromTrainerFacts.

Variable str_float : float -> string.
Variable datasets_available : bool.
Variable isdir : string -> bool.
Variable path_name : string -> string.
Variables m1 m2 m3 m4 m5 m6 m7 m8 m9 m10 m11 : Dict.t string mapping_value.

Local Abbreviation from_trainer' :=
  (from_trainer str_float datasets_available isdir path_name
     m1 m2 m3 m4 m5 m6 m7 m8 m9 m10 m11).
Local Abbreviation default_task' :=
  (default_task m1 m2 m3 m4 m5 m6 m7 m8 m9 m10 m11).
Local Abbreviation TASK_MAPPING' :=
  (TASK_MAPPING m1 m2 m3 m4 m5 m6 m7 m8 m9 m10 m11).

(** X17.  [from_trainer] raises nothing, whatever the Trainer and the
    arguments.  The tags of the summary it returns name
    generated_from_trainer: they are that string, or a list that holds it; a
    list of tags passed in is kept as the start of the list, and a single
    other tag is followed by generated_from_trainer.  The summary has the
    source "trainer", the hyperparameters of the Trainer's arguments, and
    the table and final result of [parse_log_history]. *)
Theorem from_trainer_tags (trainer : TrainerObject)
  (language0 : option str_or_list) (license0 : option string)
  (tags0 : option str_or_list) (model_name0 finetuned_from0 : option string)
  (tasks0 dataset_tags0 dataset0 dataset_args0 : option str_or_list) :
  exists summary t,
    from_trainer' trainer language0 license0 tags0 model_name0 finetuned_from0
      tasks0 dataset_tags0 dataset0 dataset_args0 = Built summary
    /\ summary.(tags) = Some t
    /\ (t = Single "generated_from_trainer"
        \/ exists l, t = Many l /\ In (Some "generated_from_trainer") l)
    /\ (forall l, tags0 = Some (Many l) -> exists added, t = Many (l ++ added))
    /\ (forall s, tags0 = Some (Single s) -> s <> "generated_from_trainer" ->
                  t = Many [Some s; Some "generated_from_trainer"])
    /\ summary.(source) = Some "trainer"
    /\ summary.(hyperparameters)
       = Some (extract_hyperparameters_from_trainer str_float
                 trainer.(trainer_core))
    /\ (exists train_log,
          parse_log_history trainer.(log_history)
          = Ok (train_log, summary.(eval_lines), summary.(eval_results))).
Proof.
  destruct (trainer_tags_built tags0) as (t & Ht & Hin & Hl & Hs).
  destruct (parse_log_history_returns trainer.(log_history))
    as ([[train_log lines] final] & Hp).
  unfold from_trainer.
  destruct (default_dataset_tags _ _ _ _) as [dtags dargs].
  rewrite Ht, Hp. eexists. exists t.
  split; [reflexivity|].
  cbn [tags source hyperparameters eval_lines eval_results].
  repeat split; try assumption. now exists train_log.
Qed.


(** X18.  The defaults of [from_trainer] never replace an argument that was
    given: the language and the license are passed on, and a model name, a
    base model, tasks, dataset tags, datasets and dataset arguments that are
    not None are those of the summary.  A model name left out is the name
    of the output directory; a base model left out is the [_name_or_path]
    of the configuration unless that is a directory. *)
Theorem from_trainer_keeps_arguments (trainer : TrainerObject)
  (language0 : option str_or_list) (license0 : option string)
  (tags0 : option str_or_list) (model_name0 finetuned_from0 : option string)
  (tasks0 dataset_tags0 dataset0 dataset_args0 : option str_or_list) :
  exists summary,
    from_trainer' trainer language0 license0 tags0 model_name0 finetuned_from0
      tasks0 dataset_tags0 dataset0 dataset_args0 = Built summary
    /\ summary.(language) = language0
    /\ summary.(license) = license0
    /\ (forall name, model_name0 = Some name -> summary.(model_name) = name)
    /\ (model_name0 = None ->
        summary.(model_name) = path_name trainer.(output_dir))
    /\ (forall base, finetuned_from0 = Some base ->
                     summary.(finetuned_from) = Some base)
    /\ (finetuned_from0 = None ->
        summary.(finetuned_from)
        = match trainer.(model_name_or_path) with
          | Some path => if isdir path then None else Some path
          | None => None
          end)
    /\ (forall t, tasks0 = Some t -> summary.(tasks) = Some t)
    /\ (forall t, dataset_tags0 = Some t -> summary.(dataset_tags) = Some t)
    /\ (forall d, dataset0 = Some d -> summary.(dataset) = Some d)
    /\ (forall a, dataset_args0 = Some a -> summary.(dataset_args) = Some a).
Proof.
  destruct (trainer_tags_built tags0) as (t & Ht & _).
  destruct (parse_log_history_returns trainer.(log_history))
    as ([[train_log lines] final] & Hp).
  unfold from_trainer.
  destruct (default_dataset_tags _ _ _ _) as [dtags dargs] eqn:Hd.
  rewrite Ht, Hp. eexists. split; [reflexivity|].
  cbn [language license model_name finetuned_from tasks dataset_tags dataset
       dataset_args].
  assert (Htags : forall t', dataset_tags0 = Some t' -> dtags = Some t').
  { intros t' ->. unfold default_dataset_tags in Hd.
    repeat match type of Hd with
           | context [match ?x with _ => _ end] => destruct x
           end; now inversion Hd. }
  assert (Hargs : forall a, dataset_args0 = Some a -> dargs = Some a).
  { intros a ->. unfold default_dataset_tags in Hd.
    repeat match type of Hd with
           | context [match ?x with _ => _ end] => destruct x
           end; now inversion Hd. }
  repeat split.
  - now intros name ->.
  - now intros ->.
  - now intros base ->.
  - intros ->. destruct (model_name_or_path trainer) as [path|]; [|reflexivity].
    now destruct (isdir path).
  - now intros t' ->.
  - exact Htags.
  - now intros d ->.
  - exact Hargs.
Qed.

(** X19.  The dataset defaults of [from_trainer].  The dataset read is the
    training dataset, or the evaluation dataset when there is none.  When
    the datasets library is there and that dataset is a [datasets.Dataset]
    whose builder is none of csv, json, pandas, parquet and text, dataset
    tags left out are the one-element list of the builder name and dataset
    arguments left out the one-element list of the configuration name; in
    every other case the dataset tags and arguments are those passed in.
    Datasets left out are the dataset tags of the summary. *)
Theorem from_trainer_dataset_defaults (trainer : TrainerObject)
  (language0 : option str_or_list) (license0 : option string)
  (tags0 : option str_or_list) (model_name0 finetuned_from0 : option string)
  (tasks0 dataset_tags0 dataset0 dataset_args0 : option str_or_list) :
  let one_dataset :=
    match trainer.(train_dataset) with
    | Some d => Some d
    | None => trainer.(eval_dataset)
    end in
  exists summary,
    from_trainer' trainer language0 license0 tags0 model_name0 finetuned_from0
      tasks0 dataset_tags0 dataset0 dataset_args0 = Built summary
    /\ (forall builder config,
          datasets_available = true ->
          one_dataset = Some (HFDataset builder config) ->
          ~ In builder local_builders ->
          (dataset_tags0 = None ->
           summary.(dataset_tags) = Some (Many [Some builder]))
          /\ (dataset_args0 = None ->
              summary.(dataset_args) = Some (Many [config])))
    /\ (datasets_available = false
        \/ one_dataset = None
        \/ one_dataset = Some OtherDataset
        \/ (exists builder config,
              one_dataset = Some (HFDataset builder config)
              /\ In builder local_builders) ->
        summary.(dataset_tags) = dataset_tags0
        /\ summary.(dataset_args) = dataset_args0)
    /\ (dataset0 = None -> summary.(dataset) = summary.(dataset_tags)).
Proof.
  cbv zeta.
  destruct (trainer_tags_built tags0) as (t & Ht & _).
  destruct (parse_log_history_returns trainer.(log_history))
    as ([[train_log lines] final] & Hp).
  unfold from_trainer.
  destruct (default_dataset_tags _ _ _ _) as [dtags dargs] eqn:Hd.
  rewrite Ht, Hp. eexists. split; [reflexivity|].
  cbn [dataset_tags dataset dataset_args].
  set (one := match train_dataset trainer with
              | Some d => Some d
              | None => eval_dataset trainer
              end) in *.
  clearbody one. unfold default_dataset_tags, is_hf_dataset in Hd.
  repeat split.
  - intros ->. rewrite H0 in Hd. rewrite H in Hd. cbn [negb] in Hd.
    assert (E : Str.mem builder local_builders = false).
    { destruct (Str.mem builder local_builders) eqn:E; [|reflexivity].
      apply mem_in in E. contradiction. }
    rewrite E in Hd. cbn [negb andb orb] in Hd.
    destruct dataset_args0; cbn [andb orb] in Hd; now inversion Hd.
  - intros ->. rewrite H0 in Hd. rewrite H in Hd. cbn [negb] in Hd.
    assert (E : Str.mem builder local_builders = false).
    { destruct (Str.mem builder local_builders) eqn:E; [|reflexivity].
      apply mem_in in E. contradiction. }
    rewrite E in Hd.
    destruct dataset_tags0; cbn [negb andb orb] in Hd; now inversion Hd.
  - destruct H as [H|[H|[H|(builder & config & H & Hin)]]].
    + rewrite H in Hd. cbn [negb] in Hd.
      destruct one as [[]|]; cbn [andb] in Hd; now inversion Hd.
    + rewrite H in Hd. now inversion Hd.
    + rewrite H in Hd. now inversion Hd.
    + rewrite H in Hd. apply mem_in in Hin. rewrite Hin in Hd.
      cbn [negb] in Hd.
      repeat match type of Hd with
             | context [if ?x then _ else _] => destruct x
             end; now inversion Hd.
  - destruct H as [H|[H|[H|(builder & config & H & Hin)]]].
    + rewrite H in Hd. cbn [negb] in Hd.
      destruct one as [[]|]; cbn [andb] in Hd; now inversion Hd.
    + rewrite H in Hd. now inversion Hd.
    + rewrite H in Hd. now inversion Hd.
    + rewrite H in Hd. apply mem_in in Hin. rewrite Hin in Hd.
      cbn [negb] in Hd.
      repeat match type of Hd with
             | context [if ?x then _ else _] => destruct x
             end; now inversion Hd.
  - intros ->. now destruct dtags.
Qed.

(** X20.  The default task.  Tasks that are given are kept.  Tasks left
    out become the name of the last entry of [TASK_MAPPING] whose mapping
    lists the class name of the model among its values, since the loop has no
    break; they stay None exactly when no mapping lists it. *)
Theorem default_task_last_match (model_class : string) :
  (forall t, default_task' model_class (Some t) = Some t)
  /\ (forall task,
        default_task' model_class None = Some (Single task)
        <-> exists before mapping after,
              TASK_MAPPING' = before ++ (task, mapping) :: after
              /\ In model_class (_get_mapping_values mapping)
              /\ forall t m, In (t, m) after ->
                             ~ In model_class (_get_mapping_values m))
  /\ (default_task' model_class None = None
      <-> forall task mapping,
            In (task, mapping) TASK_MAPPING' ->
            ~ In model_class (_get_mapping_values mapping))
  /\ (forall l, default_task' model_class None <> Some (Many l)).
Proof.
  split; [reflexivity|].
  pose proof (last_task_loop model_class TASK_MAPPING' None) as H.
  cbv zeta in H. unfold default_task.
  set (found := fold_left _ _ None) in *. clearbody found.
  destruct H as [[-> Hno]|(before & task & mapping & after & E & Hin & Hafter
                           & ->)].
  - split; [|split; [|discriminate]].
    + intro task. split; [discriminate|].
      intros (before & mapping & after & E & Hin & _). exfalso.
      apply (Hno task mapping); [|exact Hin].
      rewrite E. apply in_or_app. right. now left.
    + split; [intros _; exact Hno|reflexivity].
  - split; [|split; [|discriminate]].
    + intro task'. split.
      * intros [= <-]. now exists before, mapping, after.
      * intros (before' & mapping' & after' & E' & Hin' & Hafter').
        f_equal. f_equal.
        assert (Hlast : forall (b b' : list (string * Dict.t string mapping_value))
                               x x' a a',
                   b ++ x :: a = b' ++ x' :: a' ->
                   In model_class (_get_mapping_values (snd x)) ->
                   In model_class (_get_mapping_values (snd x')) ->
                   (forall y, In y a ->
                              ~ In model_class (_get_mapping_values (snd y))) ->
                   (forall y, In y a' ->
                              ~ In model_class (_get_mapping_values (snd y))) ->
                   x = x').
        { clear. intros b b' x x' a. revert b b' x x'.
          induction a as [|y a IH] using rev_ind; intros b b' x x' a' E Hx Hx' Ha Ha'.
          - destruct a' as [|z a'] using rev_ind.
            + apply app_inj_tail in E. tauto.
            + rewrite app_comm_cons, app_assoc in E.
              apply app_inj_tail in E. destruct E as [_ ->].
              exfalso. apply (Ha' z); [|exact Hx].
              apply in_or_app. right. now left.
          - destruct a' as [|z a' _] using rev_ind.
            + rewrite app_comm_cons, app_assoc in E.
              apply app_inj_tail in E. destruct E as [_ ->].
              exfalso. apply (Ha x'); [|exact Hx'].
              apply in_or_app. right. now left.
            + rewrite (app_comm_cons a), (app_comm_cons a'), !app_assoc in E.
              apply app_inj_tail in E. destruct E as [E _].
              apply (IH b b' x x' a' E Hx Hx').
              * intros w Hw. apply Ha. apply in_or_app. now left.
              * intros w Hw. apply Ha'. apply in_or_app. now left. }
        rewrite E in E'.
        pose proof (Hlast before before' (task, mapping) (task', mapping')
                      after after' E' Hin Hin') as Hx.
        cbn [snd] in Hx.
        assert (Hx' : (task, mapping) = (task', mapping')).
        { apply Hx; intros [t m] Hy; cbn [snd]; eauto. }
        now inversion Hx'.
    + split; [discriminate|].
      intro Hno. exfalso. apply (Hno task mapping); [|exact Hin].
      rewrite E. apply in_or_app. right. now left.
Qed.

(** X21.  A task that [from_trainer] infers and the model index.  Every
    task name of [TASK_MAPPING] but audio-classification has a display name
    in [TASK_TAG_TO_NAME_MAPPING], so the task mapping that
    [create_model_index] builds from an inferred task has one entry, the
    task with its display name; for an inferred audio-classification it is
    empty, and the task is left out of the model index. *)
Theorem inferred_task_in_model_index (model_class task : string)
  (Hdefault : default_task' model_class None = Some (Single task)) :
  (task = "audio-classification"
   /\ task_mapping_of (default_task' model_class None) = [])
  \/ (task <> "audio-classification"
      /\ exists name,
           Dict.get task TASK_TAG_TO_NAME_MAPPING = Some name
           /\ task_mapping_of (default_task' model_class None)
              = [(Some task, Some name)]).
Proof.
  rewrite Hdefault.
  assert (Hin : In task (Dict.keys TASK_MAPPING')).
  { pose proof (last_task_loop model_class TASK_MAPPING' None) as H.
    cbv zeta in H. unfold default_task in Hdefault.
    destruct H as [[Hf _]|(before & t & m & after & E & _ & _ & Hf)].
    - rewrite Hf in Hdefault. discriminate.
    - rewrite Hf in Hdefault. injection Hdefault as <-.
      unfold Dict.keys. rewrite E, map_app. apply in_or_app. right. now left. }
  unfold TASK_MAPPING, Dict.keys in Hin. cbn [map fst] in Hin.
  repeat (destruct Hin as [<-|Hin];
          [first [ left; split; reflexivity
                 | right; split; [discriminate|];
                   eexists; split; vm_compute; reflexivity ] | ]).
  destruct Hin.
Qed.

End FromTrainerFacts.

(** X22.  [_get_mapping_values] flattens the values of a mapping: a name is
    in its result exactly when it is a value of the mapping or an element of
    a tuple or list that is a value. *)
Theorem get_mapping_values_spec (mapping : Dict.t string mapping_value)
  (x : string) :
  In x (_get_mapping_values mapping)
  <-> exists key v,
        In (key, v) mapping
        /\ (v = ClassName x \/ exists l, v = ClassNames l /\ In x l).
Proof.
  unfold _get_mapping_values. rewrite get_mapping_values_fold.
  unfold Dict.values. split.
  - intros [[]|(v & Hv & Hx)]. apply in_map_iff in Hv.
    destruct Hv as ([key v'] & <- & Hin). now exists key, v'.
  - intros (key & v & Hin & Hx). right. exists v. split; [|exact Hx].
    apply in_map_iff. now exists (key, v).
Qed.

(** X23.  The tags of [from_keras].  Its last test reads
    generated_from_trainer, not generated_from_keras_callback.  So the single
    string generated_from_keras_callback raises the AttributeError of
    [append] on a string; a list that holds generated_from_trainer is
    returned as it is, with or without generated_from_keras_callback; and
    every other list gets generated_from_keras_callback appended, also
    when it already holds it.  Without tags the result is the one-element
    list, and another single tag is followed by
    generated_from_keras_callback. *)
Theorem keras_tags_spec :
  keras_tags (Some (Single "generated_from_keras_callback"))
  = Failed AttributeError
  /\ keras_tags None = Built (Some (Many [Some "generated_from_keras_callback"]))
  /\ (forall s, s <> "generated_from_keras_callback" ->
        keras_tags (Some (Single s))
        = Built (Some (Many [Some s; Some "generated_from_keras_callback"])))
  /\ (forall l, In (Some "generated_from_trainer") l ->
        keras_tags (Some (Many l)) = Built (Some (Many l)))
  /\ (forall l, ~ In (Some "generated_from_trainer") l ->
        keras_tags (Some (Many l))
        = Built (Some (Many (l ++ [Some "generated_from_keras_callback"])))).
Proof.
  split; [reflexivity|]. split; [reflexivity|]. unfold keras_tags.
  split; [|split].
  - intros s Hs.
    destruct (String.eqb s "generated_from_keras_callback") eqn:E;
      [|reflexivity].
    apply String.eqb_eq in E. contradiction.
  - intros l Hin. apply opt_mem_in in Hin. now rewrite Hin.
  - intros l Hin.
    destruct (opt_mem (Some "generated_from_trainer") l) eqn:E; [|reflexivity].
    apply opt_mem_in in E. contradiction.
Qed.

Lemma inferred_task_in_model_index_witness :
  let audio :=
    [("wav2vec2", ClassName "Wav2Vec2ForSequenceClassification")] in
  default_task [] [] [] [] [] [] [] [] [] [] audio
    "Wav2Vec2ForSequenceClassification" None
  = Some (Single "audio-classification")
  /\ task_mapping_of
       (default_task [] [] [] [] [] [] [] [] [] [] audio
          "Wav2Vec2ForSequenceClassification" None) = [].
Proof.
  cbv zeta. split; [reflexivity|].
  destruct (inferred_task_in_model_index [] [] [] [] [] [] [] [] [] []
              [("wav2vec2", ClassName "Wav2Vec2ForSequenceClassification")]
              "Wav2Vec2ForSequenceClassification" "audio-classification"
              eq_refl) as [[_ H]|[Hne _]].
  - exact H.
  - exfalso. apply Hne. reflexivity.
Defined.
